(** * coalib.settings.SectionManager: layered settings resolution

    A shallow embedding of [coalib/settings/SectionManager.py].  Python
    objects live in typed stores (sections, section dictionaries, plugin
    descriptors, Python lists) and are referred to by location, so that
    in-place mutation and aliasing are visible.  Every operation of the
    module is a function from a state to an outcome: a normal return, a
    raised exception, or a failed dereference of the model itself. *)

From Stdlib Require Import String Ascii ZArith Lia Bool.
From stdpp Require Import base option list strings.

Local Open Scope string_scope.
Local Open Scope list_scope.

(** ** Strings *)

Module Str.

(** [str.lower] and [str.upper].  A Python string is held as the bytes
    of its UTF-8 encoding.  On ASCII text the two methods map the
    letters as below; on any other text they are the case mappings of
    Unicode, which come with the language and are taken as given. *)
Definition lower_ascii (c : ascii) : ascii :=
  let n := nat_of_ascii c in
  if (65 <=? n)%nat && (n <=? 90)%nat then ascii_of_nat (n + 32) else c.

Definition upper_ascii (c : ascii) : ascii :=
  let n := nat_of_ascii c in
  if (97 <=? n)%nat && (n <=? 122)%nat then ascii_of_nat (n - 32) else c.

Fixpoint lower_letters (s : string) : string :=
  match s with
  | EmptyString => EmptyString
  | String c r => String (lower_ascii c) (lower_letters r)
  end.

Fixpoint upper_letters (s : string) : string :=
  match s with
  | EmptyString => EmptyString
  | String c r => String (upper_ascii c) (upper_letters r)
  end.

Fixpoint is_ascii (s : string) : bool :=
  match s with
  | EmptyString => true
  | String c r => (nat_of_ascii c <? 128)%nat && is_ascii r
  end.

(** The case mappings of Unicode, on text that is not ASCII. *)
Class Unicode : Type := {
  unicode_lower : string -> string;
  unicode_upper : string -> string
}.

Definition lower {U : Unicode} (s : string) : string :=
  if is_ascii s then lower_letters s else unicode_lower s.

Definition upper {U : Unicode} (s : string) : string :=
  if is_ascii s then upper_letters s else unicode_upper s.

End Str.

(** ** Ordered dictionaries with string keys

    A Python [dict]/[OrderedDict] keyed by strings: an association list
    in insertion order.  Reading takes the first binding of a key;
    writing replaces the binding in place when the key is present and
    appends it otherwise, as assignment to a dictionary entry does. *)

Module Dict.

Abbreviation t V := (list (string * V)) (only parsing).

Section Ops.
Context {V : Type}.

Fixpoint get (d : t V) (k : string) : option V :=
  match d with
  | [] => None
  | (k', v) :: r => if String.eqb k' k then Some v else get r k
  end.

Definition mem (d : t V) (k : string) : bool :=
  match get d k with Some _ => true | None => false end.

Fixpoint set (d : t V) (k : string) (v : V) : t V :=
  match d with
  | [] => [(k, v)]
  | (k', v') :: r =>
      if String.eqb k' k then (k', v) :: r else (k', v') :: set r k v
  end.

(** [d.pop(k, default)]: the removed value, if any, and what is left. *)
Fixpoint pop (d : t V) (k : string) : option V * t V :=
  match d with
  | [] => (None, [])
  | (k', v) :: r =>
      if String.eqb k' k then (Some v, r)
      else let '(o, r') := pop r k in (o, (k', v) :: r')
  end.

Definition keys (d : t V) : list string := fst <$> d.
Definition values (d : t V) : list V := snd <$> d.

(** [d.update(other)]: every binding of [other], in its order. *)
Definition update (d other : t V) : t V :=
  fold_left (fun acc kv => set acc (fst kv) (snd kv)) other d.

(** A dictionary has each key once. *)
Definition wf (d : t V) : Prop := NoDup (keys d).

End Ops.

End Dict.

(** ** Data model *)

(** Locations of objects in the stores below. *)
Abbreviation loc := nat (only parsing).

(** Modelled from the spec: the [Setting] class ([coalib.settings.Setting]
    is not part of the module under study).  A named value with its raw
    text; [str(setting)] is the raw text.  Whether a value counts as
    explicit or defaulted is a matter of where it is found: in the
    section's own contents, or only through the section's [defaults]
    link. *)
Record Setting : Type := mkSetting {
  setting_key : string;
  setting_value : string
}.

Definition str (s : Setting) : string := setting_value s.

(** Modelled from the spec: the [Section] class ([coalib.settings.Section]
    is not part of the module under study).  A name, an ordered mapping
    from setting name to setting, and a non-owning reference to the
    section consulted for fallback lookups. *)
Record Section : Type := mkSection {
  name : string;
  contents : Dict.t Setting;
  defaults : option loc
}.

(** [Section(name)]: no settings, no defaults. *)
Definition Section_new (n : string) : Section := mkSection n [] None.

Definition with_contents (s : Section) (c : Dict.t Setting) : Section :=
  mkSection (name s) c (defaults s).

Definition with_defaults (s : Section) (d : option loc) : Section :=
  mkSection (name s) (contents s) d.

(** A section dictionary maps section names to section objects. *)
Abbreviation SectionDict := (list (string * loc)) (only parsing).

(** Log levels are the values of the [LOG_LEVEL] enumeration. *)
Definition level : Type := Z.

Inductive Printer : Type :=
| ConsolePrinter (log_level : level)
| FilePrinter (filename : string) (log_level : level)
| NullPrinter.

Inductive Interactor : Type :=
| NullInteractor (log_printer : Printer)
| ConsoleInteractor (section : loc) (log_printer : Printer).

(** A message is a format template and the argument formatted into it. *)
Record message : Type := mkMessage {
  msg_template : string;
  msg_argument : string
}.

Inductive BEAR_KIND : Type := LOCAL | GLOBAL.

(** Modelled from the spec: a plugin descriptor (what [collect_bears]
    returns is defined outside the module under study).  A name, a
    capability kind and the setting names the plugin requires. *)
Record Descriptor : Type := mkDescriptor {
  bear_name : string;
  bear_kind : BEAR_KIND;
  bear_requires : list string
}.

(** Python exceptions that the module raises, catches or lets through. *)
Inductive exn : Type :=
| KeyError (key : string)
| ValueError
| FileNotFoundError
| OtherError (what : string).

(** What the module does to its collaborators, in order. *)
Inductive event : Type :=
| EvLog (p : Printer) (lvl : level) (m : message)
| EvClosePrinter (p : Printer)
| EvCloseInteractor (i : Interactor)
| EvWriteSections (path : string) (sections : loc)
| EvCloseWriter (path : string).

(** The attributes of a [SectionManager] instance. *)
Record Manager : Type := mkManager {
  cli_sections : option loc;
  default_sections : option loc;
  user_sections : option loc;
  coafile_sections : option loc;
  sections : option loc;
  local_bears : Dict.t loc;
  global_bears : Dict.t loc;
  log_printer : option Printer;
  interactor : option Interactor;
  targets : list string
}.

(** [SectionManager.__init__]. *)
Definition Manager_init : Manager :=
  mkManager None None None None None [] [] None None [].

(** The program state: one store per kind of mutable object, the trace
    of calls made to collaborators, and the manager instance. *)
Record state : Type := mkState {
  section_store : list Section;
  dict_store : list SectionDict;
  bear_store : list Descriptor;
  list_store : list (list loc);
  events : list event;
  self : Manager
}.

Definition initial_state : state := mkState [] [] [] [] [] Manager_init.

Definition set_section_store (f : list Section -> list Section) (st : state) :=
  mkState (f (section_store st)) (dict_store st) (bear_store st)
          (list_store st) (events st) (self st).
Definition set_dict_store (f : list SectionDict -> list SectionDict) (st : state) :=
  mkState (section_store st) (f (dict_store st)) (bear_store st)
          (list_store st) (events st) (self st).
Definition set_bear_store (f : list Descriptor -> list Descriptor) (st : state) :=
  mkState (section_store st) (dict_store st) (f (bear_store st))
          (list_store st) (events st) (self st).
Definition set_list_store (f : list (list loc) -> list (list loc)) (st : state) :=
  mkState (section_store st) (dict_store st) (bear_store st)
          (f (list_store st)) (events st) (self st).
Definition set_events (f : list event -> list event) (st : state) :=
  mkState (section_store st) (dict_store st) (bear_store st)
          (list_store st) (f (events st)) (self st).
Definition set_self (f : Manager -> Manager) (st : state) :=
  mkState (section_store st) (dict_store st) (bear_store st)
          (list_store st) (events st) (f (self st)).

(** ** Computations *)

(** A call returns, raises, or gets stuck on a location that holds no
    object (which a Python program cannot do). *)
Inductive outcome (A : Type) : Type :=
| Ok (a : A) (st : state)
| Raise (e : exn) (st : state)
| Stuck.
Arguments Ok {A} a st.
Arguments Raise {A} e st.
Arguments Stuck {A}.

Definition M (A : Type) : Type := state -> outcome A.

Definition ret {A} (a : A) : M A := fun st => Ok a st.

Definition bind {A B} (m : M A) (k : A -> M B) : M B :=
  fun st =>
    match m st with
    | Ok a st' => k a st'
    | Raise e st' => Raise e st'
    | Stuck => Stuck
    end.

Notation "x <- m ;; k" := (bind m (fun x => k))
  (at level 100, m at next level, right associativity).
Notation "m ;;; k" := (bind m (fun _ => k))
  (at level 100, right associativity).

Definition raise {A} (e : exn) : M A := fun st => Raise e st.
Definition stuck {A} : M A := fun _ => Stuck.
Definition get_state : M state := fun st => Ok st st.
Definition modify (f : state -> state) : M unit := fun st => Ok tt (f st).
Definition emit (ev : event) : M unit := modify (set_events (fun t => t ++ [ev])).

Definition of_option {A} (o : option A) : M A :=
  match o with Some a => ret a | None => stuck end.

(** [for x in xs: body(x)]. *)
Fixpoint for_each {A} (xs : list A) (body : A -> M unit) : M unit :=
  match xs with
  | [] => ret tt
  | x :: r => body x ;;; for_each r body
  end.

(** *** Stores *)

Definition deref_section (l : loc) : M Section :=
  st <- get_state ;; of_option (section_store st !! l).

Definition assign_section (l : loc) (s : Section) : M unit :=
  st <- get_state ;;
  if decide (l < length (section_store st))
  then modify (set_section_store (fun h => <[l := s]> h))
  else stuck.

Definition alloc_section (s : Section) : M loc :=
  st <- get_state ;;
  modify (set_section_store (fun h => h ++ [s])) ;;;
  ret (length (section_store st)).

Definition deref_dict (r : loc) : M SectionDict :=
  st <- get_state ;; of_option (dict_store st !! r).

Definition assign_dict (r : loc) (d : SectionDict) : M unit :=
  st <- get_state ;;
  if decide (r < length (dict_store st))
  then modify (set_dict_store (fun h => <[r := d]> h))
  else stuck.

Definition alloc_dict (d : SectionDict) : M loc :=
  st <- get_state ;;
  modify (set_dict_store (fun h => h ++ [d])) ;;;
  ret (length (dict_store st)).

(** [d[key]]: [KeyError] when the key is missing. *)
Definition index {V} (d : Dict.t V) (key : string) : M V :=
  match Dict.get d key with
  | Some v => ret v
  | None => raise (KeyError key)
  end.

(** *** Sections *)

(** Modelled from the spec: [Section.get(key, default)] checks the
    section itself first, then its [defaults] section, then wraps the
    supplied fallback in a setting. *)
Definition Section_get (l : loc) (key fallback : string) : M Setting :=
  s <- deref_section l ;;
  match Dict.get (contents s) key with
  | Some v => ret v
  | None =>
      match defaults s with
      | Some d =>
          ds <- deref_section d ;;
          match Dict.get (contents ds) key with
          | Some v => ret v
          | None => ret (mkSetting key fallback)
          end
      | None => ret (mkSetting key fallback)
      end
  end.

(** Modelled from the spec: [Section.update(other, ignore_defaults=True)]
    updates the section in place, setting by setting, from the settings
    that [other] itself holds; the [defaults] links play no part. *)
Definition Section_update (l other : loc) : M unit :=
  s <- deref_section l ;;
  o <- deref_section other ;;
  assign_section l (with_contents s (Dict.update (contents s) (contents o))).

(** ** The precedence merger *)

(** The body of the loop of [merge_section_dicts], over the names still
    to visit. *)
Fixpoint merge_loop (names : list string) (lower higher : loc) : M unit :=
  match names with
  | [] => ret tt
  | name :: rest =>
      ld <- deref_dict lower ;;
      (if Dict.mem ld name then
         l <- index ld name ;;
         hd <- deref_dict higher ;;
         h <- index hd name ;;
         Section_update l h
       else
         hd <- deref_dict higher ;;
         h <- index hd name ;;
         assign_dict lower (Dict.set ld name h)) ;;;
      merge_loop rest lower higher
  end.

(** [merge_section_dicts(lower, higher)].  The loop runs over the names
    that [higher] has when it starts. *)
Definition merge_section_dicts (lower higher : loc) : M loc :=
  hd <- deref_dict higher ;;
  merge_loop (Dict.keys hd) lower higher ;;;
  ret lower.

(** *** Exceptions, attributes and the remaining stores *)

(** [try: m except <the exceptions that handler accepts>: ...]. *)
Definition try_except {A} (m : M A) (handler : exn -> option (M A)) : M A :=
  fun st =>
    match m st with
    | Raise e st' =>
        match handler e with
        | Some h => h st'
        | None => Raise e st'
        end
    | r => r
    end.

Definition set_cli_sections (r : loc) (m : Manager) : Manager :=
  mkManager (Some r) (default_sections m) (user_sections m)
            (coafile_sections m) (sections m) (local_bears m)
            (global_bears m) (log_printer m) (interactor m) (targets m).
Definition set_default_sections (r : loc) (m : Manager) : Manager :=
  mkManager (cli_sections m) (Some r) (user_sections m)
            (coafile_sections m) (sections m) (local_bears m)
            (global_bears m) (log_printer m) (interactor m) (targets m).
Definition set_user_sections (r : loc) (m : Manager) : Manager :=
  mkManager (cli_sections m) (default_sections m) (Some r)
            (coafile_sections m) (sections m) (local_bears m)
            (global_bears m) (log_printer m) (interactor m) (targets m).
Definition set_coafile_sections (r : loc) (m : Manager) : Manager :=
  mkManager (cli_sections m) (default_sections m) (user_sections m)
            (Some r) (sections m) (local_bears m)
            (global_bears m) (log_printer m) (interactor m) (targets m).
Definition set_sections (r : loc) (m : Manager) : Manager :=
  mkManager (cli_sections m) (default_sections m) (user_sections m)
            (coafile_sections m) (Some r) (local_bears m)
            (global_bears m) (log_printer m) (interactor m) (targets m).
Definition set_local_bears (f : Dict.t loc -> Dict.t loc) (m : Manager) : Manager :=
  mkManager (cli_sections m) (default_sections m) (user_sections m)
            (coafile_sections m) (sections m) (f (local_bears m))
            (global_bears m) (log_printer m) (interactor m) (targets m).
Definition set_global_bears (f : Dict.t loc -> Dict.t loc) (m : Manager) : Manager :=
  mkManager (cli_sections m) (default_sections m) (user_sections m)
            (coafile_sections m) (sections m) (local_bears m)
            (f (global_bears m)) (log_printer m) (interactor m) (targets m).
Definition set_log_printer (p : Printer) (m : Manager) : Manager :=
  mkManager (cli_sections m) (default_sections m) (user_sections m)
            (coafile_sections m) (sections m) (local_bears m)
            (global_bears m) (Some p) (interactor m) (targets m).
Definition set_interactor (i : Interactor) (m : Manager) : Manager :=
  mkManager (cli_sections m) (default_sections m) (user_sections m)
            (coafile_sections m) (sections m) (local_bears m)
            (global_bears m) (log_printer m) (Some i) (targets m).
Definition set_targets (f : list string -> list string) (m : Manager) : Manager :=
  mkManager (cli_sections m) (default_sections m) (user_sections m)
            (coafile_sections m) (sections m) (local_bears m)
            (global_bears m) (log_printer m) (interactor m) (f (targets m)).

(** [self.<field>], an attribute that has been assigned. *)
Definition attr {A} (field : Manager -> option A) : M A :=
  st <- get_state ;; of_option (field (self st)).

(** [self.<field>[name]] for an attribute holding a section dictionary. *)
Definition attr_section (field : Manager -> option loc) (n : string) : M loc :=
  r <- attr field ;;
  d <- deref_dict r ;;
  index d n.

Definition deref_bear (l : loc) : M Descriptor :=
  st <- get_state ;; of_option (bear_store st !! l).

Definition assign_bear (l : loc) (b : Descriptor) : M unit :=
  st <- get_state ;;
  if decide (l < length (bear_store st))
  then modify (set_bear_store (fun h => <[l := b]> h))
  else stuck.

Definition alloc_bear (b : Descriptor) : M loc :=
  st <- get_state ;;
  modify (set_bear_store (fun h => h ++ [b])) ;;;
  ret (length (bear_store st)).

Definition deref_list (l : loc) : M (list loc) :=
  st <- get_state ;; of_option (list_store st !! l).

Definition assign_list (l : loc) (xs : list loc) : M unit :=
  st <- get_state ;;
  if decide (l < length (list_store st))
  then modify (set_list_store (fun h => <[l := xs]> h))
  else stuck.

Definition alloc_list (xs : list loc) : M loc :=
  st <- get_state ;;
  modify (set_list_store (fun h => h ++ [xs])) ;;;
  ret (length (list_store st)).

(** [xs.extend(ys)], in place. *)
Definition list_extend (xs ys : loc) : M unit :=
  a <- deref_list xs ;;
  b <- deref_list ys ;;
  assign_list xs (a ++ b).

(** [copy.deepcopy] of a list of descriptors: a new list holding a new
    copy of each descriptor; a descriptor met twice is copied once (the
    memo of [deepcopy]). *)
Fixpoint memo_find (memo : list (loc * loc)) (x : loc) : option loc :=
  match memo with
  | [] => None
  | (a, b) :: r => if Nat.eqb a x then Some b else memo_find r x
  end.

Fixpoint deepcopy_items (items : list loc) (memo : list (loc * loc))
  : M (list loc) :=
  match items with
  | [] => ret []
  | x :: r =>
      match memo_find memo x with
      | Some y =>
          ys <- deepcopy_items r memo ;;
          ret (y :: ys)
      | None =>
          b <- deref_bear x ;;
          y <- alloc_bear b ;;
          ys <- deepcopy_items r ((x, y) :: memo) ;;
          ret (y :: ys)
      end
  end.

Definition deepcopy (xs : loc) : M loc :=
  items <- deref_list xs ;;
  copies <- deepcopy_items items [] ;;
  alloc_list copies.

(** ** The module, over its collaborators *)

(** What the module imports and calls but does not define. *)
Class Collaborators : Type := {
  (** The case mappings of [str.lower] and [str.upper]. *)
  unicode :: Str.Unicode;
  (** [os.path.abspath] and [os.path.join]. *)
  abspath : string -> string;
  path_join : string -> string -> string;
  (** [StringConstants]. *)
  system_coafile : string;
  user_coafile : string;
  coalib_bears_root : string;
  (** [ConfParser().reparse(filename)] and [CliParser().reparse(arg_list)]:
      the section dictionary read, or the exception of the parser. *)
  ConfParser_reparse : string -> M loc;
  CliParser_reparse : list string -> M loc;
  (** [bool(setting)], [None] standing for [ValueError]; [list(setting)];
      [path_list(setting)]. *)
  Setting_bool : Setting -> option bool;
  Setting_iter : Setting -> list string;
  path_list : Setting -> list string;
  (** [LOG_LEVEL.str_dict] and [LOG_LEVEL.WARNING]. *)
  LOG_LEVEL_str_dict : Dict.t level;
  LOG_LEVEL_WARNING : level;
  (** Why [FilePrinter(filename=...)] and [ConfWriter(path)] cannot be
      constructed, if they cannot. *)
  FilePrinter_error : string -> option exn;
  ConfWriter_error : string -> option exn;
  (** [isinstance(x, ClosableObject)]. *)
  closable_printer : Printer -> bool;
  closable_interactor : Interactor -> bool;
  (** [collect_bears(bear_dirs, bears, [kind], log_printer)] returns a
      list object; [SectionFiller(section, interactor,
      log_printer).fill_section(bears)]. *)
  collect_bears : list string -> list string -> BEAR_KIND -> Printer -> M loc;
  fill_section : loc -> Interactor -> Printer -> loc -> M unit
}.

Section SectionManager.

Context {C : Collaborators}.

(** [log_printer.log(level, message)] and [log_printer.warn(message)]. *)
Definition log (p : Printer) (lvl : level) (m : message) : M unit :=
  emit (EvLog p lvl m).

Definition warn (p : Printer) (m : message) : M unit :=
  log p LOG_LEVEL_WARNING m.

(** *** [load_config_file] *)

Definition coafile_missing : string :=
  "The requested coafile '{filename}' does not exist. Thus it will not be used.".

Definition load_config_file (filename : string) (log_printer : Printer)
                            (silent : bool) : M loc :=
  let filename := abspath filename in
  try_except (ConfParser_reparse filename)
    (fun e =>
       match e with
       | FileNotFoundError =>
           Some ((if negb silent
                  then warn log_printer (mkMessage coafile_missing filename)
                  else ret tt) ;;;
                 s <- alloc_section (Section_new "default") ;;
                 alloc_dict [("default", s)])
       | _ => None
       end).

(** *** [save_sections] *)

(** [ConfWriter(path)]; the writer is known by its path. *)
Definition ConfWriter (path : string) : M string :=
  match ConfWriter_error path with
  | Some e => raise e
  | None => ret path
  end.

(** [bool(setting)]. *)
Definition to_bool (s : Setting) : M bool :=
  match Setting_bool s with
  | Some b => ret b
  | None => raise ValueError
  end.

(** The [try] statement of [save_sections]: the writer to use, or
    [None] where the function returns early. *)
Definition save_sections_writer (default_section : loc) : M (option string) :=
  try_except
    (save <- Section_get default_section "save" "false" ;;
     b <- to_bool save ;;
     if b then
       config <- Section_get default_section "config" ".coafile" ;;
       w <- ConfWriter (str config) ;;
       ret (Some w)
     else ret None)
    (fun e =>
       match e with
       | ValueError =>
           Some (save <- Section_get default_section "save" ".coafile" ;;
                 w <- ConfWriter (str save) ;;
                 ret (Some w))
       | _ => None
       end).

Definition save_sections (sections : loc) : M unit :=
  d <- deref_dict sections ;;
  default_section <- index d "default" ;;
  conf_writer <- save_sections_writer default_section ;;
  match conf_writer with
  | None => ret tt
  | Some w =>
      emit (EvWriteSections w sections) ;;;
      emit (EvCloseWriter w)
  end.

(** *** [warn_nonexistent_targets] *)

Definition section_missing : string :=
  "The requested section '{section}' is not existent. Thus it cannot be executed.".

Definition warn_nonexistent_targets (targets : list string) (sections : loc)
                                    (log_printer : Printer) : M unit :=
  for_each targets
    (fun target =>
       d <- deref_dict sections ;;
       if Dict.mem d target then ret tt
       else warn log_printer (mkMessage section_missing target)).


(** *** [SectionManager.retrieve_logging_objects] *)

Definition logging_failed : string :=
  "Failed to instantiate the logging method '{}'. Falling back to console output.".

(** [FilePrinter(filename=..., log_level=...)]. *)
Definition FilePrinter_new (filename : string) (log_level : level) : M Printer :=
  match FilePrinter_error filename with
  | Some e => raise e
  | None => ret (FilePrinter filename log_level)
  end.

Definition close_previous : M unit :=
  st <- get_state ;;
  (match interactor (self st) with
   | Some i => if closable_interactor i then emit (EvCloseInteractor i) else ret tt
   | None => ret tt
   end) ;;;
  match log_printer (self st) with
  | Some p => if closable_printer p then emit (EvClosePrinter p) else ret tt
  | None => ret tt
  end.

(** [LOG_LEVEL.str_dict.get(str_log_level, LOG_LEVEL.WARNING)]. *)
Definition lookup_log_level (str_log_level : string) : level :=
  match Dict.get LOG_LEVEL_str_dict str_log_level with
  | Some l => l
  | None => LOG_LEVEL_WARNING
  end.

(** The choice of the log printer, from the lower-cased log type. *)
Definition select_log_printer (log_type : string) (log_level : level) : M unit :=
  if String.eqb log_type "console" then
    modify (set_self (set_log_printer (ConsolePrinter log_level)))
  else
    try_except
      (if String.eqb log_type "none" then
         modify (set_self (set_log_printer NullPrinter))
       else
         p <- FilePrinter_new log_type log_level ;;
         modify (set_self (set_log_printer p)))
      (fun _ =>
         Some (modify (set_self (set_log_printer (ConsolePrinter log_level))) ;;;
               p <- attr log_printer ;;
               log p LOG_LEVEL_WARNING (mkMessage logging_failed log_type))).

Definition retrieve_logging_objects (section : loc) : M unit :=
  close_previous ;;;
  lt <- Section_get section "log_type" "console" ;;
  let log_type := Str.lower (str lt) in
  ot <- Section_get section "output" "console" ;;
  let output_type := Str.lower (str ot) in
  ll <- Section_get section "log_level" "" ;;
  let str_log_level := Str.upper (str ll) in
  let log_level := lookup_log_level str_log_level in
  select_log_printer log_type log_level ;;;
  p <- attr log_printer ;;
  if String.eqb output_type "none" then
    modify (set_self (set_interactor (NullInteractor p)))
  else
    modify (set_self (set_interactor (ConsoleInteractor section p))).

(** *** [SectionManager._load_configuration] *)

(** The targets are taken out of the [default] section of the command
    line and remembered, lower-cased. *)
Definition capture_targets : M unit :=
  l <- attr_section cli_sections "default" ;;
  s <- deref_section l ;;
  let '(popped, rest) := Dict.pop (contents s) "targets" in
  assign_section l (with_contents s rest) ;;;
  for_each (match popped with
            | Some t => Setting_iter t
            | None => []
            end)
    (fun item =>
       modify (set_self (set_targets (fun ts => ts ++ [Str.lower item])))).

(** The path of the project's coafile. *)
Definition project_config : M string :=
  d <- attr_section default_sections "default" ;;
  dc <- Section_get d "config" ".coafile" ;;
  let default_config := str dc in
  u <- attr_section user_sections "default" ;;
  uc <- Section_get u "config" default_config ;;
  let user_config := str uc in
  c <- attr_section cli_sections "default" ;;
  cc <- Section_get c "config" user_config ;;
  ret (abspath (str cc)).

(** The three merges, lowest layer first. *)
Definition merge_layers : M unit :=
  d <- attr default_sections ;;
  u <- attr user_sections ;;
  s <- merge_section_dicts d u ;;
  modify (set_self (set_sections s)) ;;;
  s <- attr sections ;;
  p <- attr coafile_sections ;;
  s <- merge_section_dicts s p ;;
  modify (set_self (set_sections s)) ;;;
  s <- attr sections ;;
  c <- attr cli_sections ;;
  s <- merge_section_dicts s c ;;
  modify (set_self (set_sections s)).

(** [self.sections[section].defaults = self.sections["default"]]. *)
Definition set_defaults (section : string) : M unit :=
  d <- attr_section sections "default" ;;
  l <- attr_section sections section ;;
  s <- deref_section l ;;
  assign_section l (with_defaults s (Some d)).

(** Every section but [default] falls back on [default]. *)
Definition wire_defaults : M unit :=
  r <- attr sections ;;
  d <- deref_dict r ;;
  for_each (Dict.keys d)
    (fun section =>
       if negb (String.eqb section "default") then set_defaults section
       else ret tt).

(** The command line is read first, so that its settings choose the
    log printer; then its targets are set aside. *)
Definition read_cli (arg_list : list string) : M unit :=
  cli <- CliParser_reparse arg_list ;;
  modify (set_self (set_cli_sections cli)) ;;;
  l <- attr_section cli_sections "default" ;;
  retrieve_logging_objects l ;;;
  capture_targets.

(** The three coafiles. *)
Definition load_layers : M unit :=
  p <- attr log_printer ;;
  r <- load_config_file system_coafile p false ;;
  modify (set_self (set_default_sections r)) ;;;
  p <- attr log_printer ;;
  r <- load_config_file user_coafile p true ;;
  modify (set_self (set_user_sections r)) ;;;
  config <- project_config ;;
  p <- attr log_printer ;;
  r <- load_config_file config p false ;;
  modify (set_self (set_coafile_sections r)).

Definition _load_configuration (arg_list : list string) : M unit :=
  read_cli arg_list ;;;
  load_layers ;;;
  merge_layers ;;;
  wire_defaults.

(** *** [SectionManager._fill_settings] *)

(** The list handed to the section filler: a deep copy of the local
    plugins, extended in place by the global ones. *)
Definition combine_bears (local_bears global_bears : loc) : M loc :=
  all_bears <- deepcopy local_bears ;;
  list_extend all_bears global_bears ;;;
  ret all_bears.

Definition fill_one (section_name : string) : M unit :=
  section <- attr_section sections section_name ;;
  bd <- Section_get section "bear_dirs" "" ;;
  let bear_dirs := path_list bd ++ [path_join coalib_bears_root "**"] in
  bs <- Section_get section "bears" "" ;;
  let bears := Setting_iter bs in
  p <- attr log_printer ;;
  local <- collect_bears bear_dirs bears LOCAL p ;;
  p <- attr log_printer ;;
  global <- collect_bears bear_dirs bears GLOBAL p ;;
  i <- attr interactor ;;
  p <- attr log_printer ;;
  all_bears <- combine_bears local global ;;
  fill_section section i p all_bears ;;;
  modify (set_self (set_local_bears (fun d => Dict.set d section_name local))) ;;;
  modify (set_self (set_global_bears (fun d => Dict.set d section_name global))).

Definition _fill_settings : M unit :=
  r <- attr sections ;;
  d <- deref_dict r ;;
  for_each (Dict.keys d) fill_one.

(** *** [SectionManager.run] *)

Definition run (arg_list : list string)
  : M (loc * Dict.t loc * Dict.t loc * list string * Interactor * Printer) :=
  _load_configuration arg_list ;;;
  l <- attr_section sections "default" ;;
  retrieve_logging_objects l ;;;
  _fill_settings ;;;
  s <- attr sections ;;
  save_sections s ;;;
  st <- get_state ;;
  p <- attr log_printer ;;
  warn_nonexistent_targets (targets (self st)) s p ;;;
  st <- get_state ;;
  i <- attr interactor ;;
  p <- attr log_printer ;;
  ret (s, local_bears (self st), global_bears (self st),
       targets (self st), i, p).

End SectionManager.

(** ** A concrete set of collaborators

    A small file system, a [key=value] command line and a two-plugin
    catalogue, to run the module on. *)

Module Demo.

(** A parsed file: its sections, each with its settings. *)
Definition file : Type := list (string * list (string * string)).

Definition make_section (n : string) (kvs : list (string * string)) : Section :=
  mkSection n (map (fun kv => (fst kv, mkSetting (fst kv) (snd kv))) kvs) None.

Fixpoint alloc_sections (f : file) : M SectionDict :=
  match f with
  | [] => ret []
  | (n, kvs) :: r =>
      l <- alloc_section (make_section n kvs) ;;
      d <- alloc_sections r ;;
      ret ((n, l) :: d)
  end.

Definition load (f : file) : M loc :=
  d <- alloc_sections f ;;
  alloc_dict d.

Inductive entry : Type :=
| Parsed (f : file)
| Malformed.

(** The files that exist. *)
Definition filesystem : Dict.t entry :=
  [ ("/etc/default_coafile",
     Parsed [("default", [("log_level", "INFO"); ("targets", "docs")])]);
    ("/work/.coafile",
     Parsed [("default", [("bears", "StyleBear"); ("log_level", "DEBUG")]);
             ("mysection", [("files", "*.py")])]);
    ("/work/broken.coafile", Malformed) ].

Definition reparse (path : string) : M loc :=
  match Dict.get filesystem path with
  | Some (Parsed f) => load f
  | Some Malformed => raise (OtherError "ParsingError")
  | None => raise FileNotFoundError
  end.

(** [key=value] arguments, all for the [default] section. *)
Fixpoint split_at (c : ascii) (s : string) : string * option string :=
  match s with
  | EmptyString => (EmptyString, None)
  | String a r =>
      if Ascii.eqb a c then (EmptyString, Some r)
      else let '(k, v) := split_at c r in (String a k, v)
  end.

Definition parse_arg (a : string) : string * string :=
  let '(k, v) := split_at "="%char a in
  (k, match v with Some v => v | None => "True" end).

Definition cli_reparse (args : list string) : M loc :=
  load [("default", map parse_arg args)].

Fixpoint split_all (fuel : nat) (c : ascii) (s : string) : list string :=
  match fuel with
  | O => [s]
  | S n =>
      match split_at c s with
      | (a, Some r) => a :: split_all n c r
      | (a, None) => [a]
      end
  end.

Definition items (s : Setting) : list string :=
  filter (fun x => x <> EmptyString)
         (split_all (String.length (str s)) ","%char (str s)).

(** The samples are ASCII text; the mappings outside ASCII are never
    reached and leave the text as it is. *)
Definition sample_case : Str.Unicode := {|
  Str.unicode_lower := fun s => s;
  Str.unicode_upper := fun s => s
|}.

Definition truth (s : Setting) : option bool :=
  let v := Str.lower (U := sample_case) (str s) in
  if existsb (String.eqb v) ["1"; "y"; "yes"; "true"; "yeah"] then Some true
  else if existsb (String.eqb v) ["0"; "n"; "no"; "false"; "nope"] then Some false
  else None.

Definition absolute (p : string) : string :=
  match p with
  | String "/"%char _ => p
  | _ => ("/work/" ++ p)%string
  end.

Definition catalogue : list Descriptor :=
  [ mkDescriptor "StyleBear" LOCAL ["max_line_length"];
    mkDescriptor "GraphBear" GLOBAL ["root"] ].

Definition same_kind (a b : BEAR_KIND) : bool :=
  match a, b with
  | LOCAL, LOCAL | GLOBAL, GLOBAL => true
  | _, _ => false
  end.

Fixpoint alloc_bears (bs : list Descriptor) : M (list loc) :=
  match bs with
  | [] => ret []
  | b :: r =>
      l <- alloc_bear b ;;
      ls <- alloc_bears r ;;
      ret (l :: ls)
  end.

Definition collect (dirs names : list string) (k : BEAR_KIND) (p : Printer)
  : M loc :=
  ls <- alloc_bears
          (filter (fun b => same_kind (bear_kind b) k = true) catalogue) ;;
  alloc_list ls.

Definition collaborators_at (system : string) : Collaborators := {|
  unicode := sample_case;
  abspath := absolute;
  path_join := fun a b => (a ++ "/" ++ b)%string;
  system_coafile := system;
  user_coafile := "/home/user/.coarc";
  coalib_bears_root := "/usr/lib/coalib/bears";
  ConfParser_reparse := reparse;
  CliParser_reparse := cli_reparse;
  Setting_bool := truth;
  Setting_iter := items;
  path_list := items;
  LOG_LEVEL_str_dict := [("DEBUG", 0%Z); ("INFO", 1%Z); ("WARNING", 2%Z); ("ERROR", 3%Z)];
  LOG_LEVEL_WARNING := 2%Z;
  FilePrinter_error :=
    fun p => if String.prefix "/no/" p then Some (OtherError "IOError") else None;
  ConfWriter_error := fun _ => None;
  closable_printer :=
    fun p => match p with NullPrinter => false | _ => true end;
  closable_interactor := fun _ => false;
  collect_bears := collect;
  fill_section := fun _ _ _ _ => ret tt
|}.

Definition collaborators : Collaborators :=
  collaborators_at "/etc/default_coafile".

(** Four layers, loaded one after the other, and the manager that
    holds them. *)
Definition layer_default : file :=
  [("default", [("log_level", "INFO"); ("bears", "SpaceBear")]);
   ("docs", [("files", "*.rst")])].
Definition layer_user : file :=
  [("default", [("log_level", "DEBUG"); ("config", "team.coafile")])].
Definition layer_coafile : file :=
  [("default", [("bears", "StyleBear"); ("save", "backup.coafile")]);
   ("mysection", [("files", "*.py")])].
Definition layer_cli : file :=
  [("default", [("save", "True")]);
   ("mysection", [("files", "*.v")])].

Definition state_of (m : M unit) : state :=
  match m initial_state with
  | Ok _ st => st
  | _ => initial_state
  end.

Definition four_layers : state :=
  Eval vm_compute in
    state_of (d <- load layer_default ;;
              u <- load layer_user ;;
              p <- load layer_coafile ;;
              c <- load layer_cli ;;
              modify (set_self (fun _ =>
                mkManager (Some c) (Some d) (Some u) (Some p) None
                          [] [] None None []))).

(** The state in which the command line and the three coafiles have
    been read. *)
Definition loaded : state :=
  Eval vm_compute in
    state_of (read_cli (C := collaborators)
                ["targets=Docs,MySection"; "save=backup.coafile"] ;;;
              load_layers (C := collaborators)).

(** A section that asks for a log file that cannot be opened. *)
Definition logging : state :=
  Eval vm_compute in
    state_of (load [("default", [("log_type", "/no/such/dir/File.log");
                                 ("log_level", "debug")])] ;;;
              ret tt).

(** The plugins found for one section: a list of local ones and a
    list of global ones. *)
Definition discovered : state :=
  Eval vm_compute in
    state_of (collect [] [] LOCAL NullPrinter ;;;
              collect [] [] GLOBAL NullPrinter ;;;
              ret tt).

(** The same collaborators, with a writer that cannot be made for
    some paths. *)
Definition with_writer_error (f : string -> option exn) : Collaborators := {|
  unicode := sample_case;
  abspath := absolute;
  path_join := fun a b => (a ++ "/" ++ b)%string;
  system_coafile := "/etc/default_coafile";
  user_coafile := "/home/user/.coarc";
  coalib_bears_root := "/usr/lib/coalib/bears";
  ConfParser_reparse := reparse;
  CliParser_reparse := cli_reparse;
  Setting_bool := truth;
  Setting_iter := items;
  path_list := items;
  LOG_LEVEL_str_dict := [("DEBUG", 0%Z); ("INFO", 1%Z); ("WARNING", 2%Z); ("ERROR", 3%Z)];
  LOG_LEVEL_WARNING := 2%Z;
  FilePrinter_error :=
    fun p => if String.prefix "/no/" p then Some (OtherError "IOError") else None;
  ConfWriter_error := f;
  closable_printer :=
    fun p => match p with NullPrinter => false | _ => true end;
  closable_interactor := fun _ => false;
  collect_bears := collect;
  fill_section := fun _ _ _ _ => ret tt
|}.

(** A writer that rejects the default path as a bad value. *)
Definition picky : Collaborators :=
  with_writer_error
    (fun p => if String.eqb p ".coafile" then Some ValueError else None).

(** A dictionary without a [default] section. *)
Definition headless : state :=
  Eval vm_compute in
    state_of (load [("docs", [("files", "*.rst")])] ;;; ret tt).

(** A command line that comes without a [default] section. *)
Definition headless_cli : Collaborators := {|
  unicode := sample_case;
  abspath := absolute;
  path_join := fun a b => (a ++ "/" ++ b)%string;
  system_coafile := "/etc/default_coafile";
  user_coafile := "/home/user/.coarc";
  coalib_bears_root := "/usr/lib/coalib/bears";
  ConfParser_reparse := reparse;
  CliParser_reparse := fun args => load [("docs", map parse_arg args)];
  Setting_bool := truth;
  Setting_iter := items;
  path_list := items;
  LOG_LEVEL_str_dict := [("DEBUG", 0%Z); ("INFO", 1%Z); ("WARNING", 2%Z); ("ERROR", 3%Z)];
  LOG_LEVEL_WARNING := 2%Z;
  FilePrinter_error := fun _ => None;
  ConfWriter_error := fun _ => None;
  closable_printer := fun _ => false;
  closable_interactor := fun _ => false;
  collect_bears := collect;
  fill_section := fun _ _ _ _ => ret tt
|}.

(** A disk without any coafile. *)
Definition empty_disk : Collaborators := {|
  unicode := sample_case;
  abspath := absolute;
  path_join := fun a b => (a ++ "/" ++ b)%string;
  system_coafile := "/etc/default_coafile";
  user_coafile := "/home/user/.coarc";
  coalib_bears_root := "/usr/lib/coalib/bears";
  ConfParser_reparse := fun _ => raise FileNotFoundError;
  CliParser_reparse := cli_reparse;
  Setting_bool := truth;
  Setting_iter := items;
  path_list := items;
  LOG_LEVEL_str_dict := [("DEBUG", 0%Z); ("INFO", 1%Z); ("WARNING", 2%Z); ("ERROR", 3%Z)];
  LOG_LEVEL_WARNING := 2%Z;
  FilePrinter_error := fun _ => None;
  ConfWriter_error := fun _ => None;
  closable_printer := fun _ => false;
  closable_interactor := fun _ => false;
  collect_bears := collect;
  fill_section := fun _ _ _ _ => ret tt
|}.

(** The state in which the command line has been read, there. *)
Definition after_cli : state :=
  Eval vm_compute in
    state_of (read_cli (C := empty_disk)
                ["config=my.coafile"; "targets=Docs"]).

(** The state in which the command line has been parsed. *)
Definition parsed_cli : state :=
  Eval vm_compute in
    state_of (cli_reparse ["config=my.coafile"; "targets=Docs"] ;;; ret tt).

(** The state in which the configuration has been loaded, there. *)
Definition configured : state :=
  Eval vm_compute in
    state_of (_load_configuration (C := empty_disk)
                ["config=my.coafile"; "targets=Docs"]).

(** The same four layers as a parser leaves them that gives every
    section but [default] the [default] section of its file to fall
    back on. *)
Definition link (l d : loc) (st : state) : state :=
  match section_store st !! l with
  | Some s => set_section_store (fun h => <[l := with_defaults s (Some d)]> h) st
  | None => st
  end.

Definition linked : state :=
  Eval vm_compute in link 1 0 (link 4 3 (link 6 5 four_layers)).

(** A dictionary and a copy of it. *)
Definition twice : state :=
  Eval vm_compute in
    state_of (load layer_coafile ;;; load layer_coafile ;;; ret tt).

End Demo.

(** * Specification vocabulary *)

(** ** Views of the stores *)

(** The section object that a section dictionary holds under a name. *)
Definition section_of (st : state) (r : loc) (n : string) : option loc :=
  d ← dict_store st !! r; Dict.get d n.

(** The setting that a section of a dictionary holds itself. *)
Definition explicit (st : state) (r : loc) (n k : string) : option Setting :=
  l ← section_of st r n; s ← section_store st !! l; Dict.get (contents s) k.

(** The setting that a lookup in a section finds: its own, or else the
    one of its [defaults] section. *)
Definition found (st : state) (l : loc) (k : string) : option Setting :=
  s ← section_store st !! l;
  match Dict.get (contents s) k with
  | Some v => Some v
  | None => d ← defaults s; ds ← section_store st !! d; Dict.get (contents ds) k
  end.

(** The setting that a layer sets at all, explicitly or by default. *)
Definition set_at_all (st : state) (r : loc) (n k : string) : option Setting :=
  l ← section_of st r n; found st l k.

(** The first answer of a list of lookups. *)
Fixpoint first_of {A} (os : list (option A)) : option A :=
  match os with
  | [] => None
  | Some a :: _ => Some a
  | None :: r => first_of r
  end.

(** What the spec says a fold of the layers (lowest first) yields for a
    setting: the value of the highest layer that set it explicitly, else
    of the lowest layer that set it at all, else nothing. *)
Definition resolution (st : state) (layers : list loc) (n k : string)
  : option Setting :=
  match first_of (map (λ r, explicit st r n k) (rev layers)) with
  | Some v => Some v
  | None => first_of (map (λ r, set_at_all st r n k) layers)
  end.

(** The own setting that the fold yields: the one of the highest layer
    that holds it itself. *)
Definition highest_explicit (st : state) (layers : list loc) (n k : string)
  : option Setting :=
  first_of (map (λ r, explicit st r n k) (rev layers)).

(** The name under which a dictionary holds a section object. *)
Definition name_in (d : SectionDict) (x : loc) : option string :=
  fst <$> List.find (λ p : string * loc, bool_decide (p.2 = x)) d.

(** What a lookup in a section of the merged dictionary finds, told from
    the layers as they were: the own setting of the fold; else what the
    section that the merged section object refers to as its [defaults]
    holds after the merge, which is the own setting of the fold under
    its name where the merged dictionary holds that section, and what
    it held before where it does not. *)
Definition fold_lookup (st : state) (layers : list loc) (merged : SectionDict)
                       (n k : string) : option Setting :=
  match highest_explicit st layers n k with
  | Some v => Some v
  | None =>
      l ← Dict.get merged n;
      s ← section_store st !! l;
      t ← defaults s;
      match name_in merged t with
      | Some m => highest_explicit st layers m k
      | None => ts ← section_store st !! t; Dict.get (contents ts) k
      end
  end.

(** C1 as stated, for the fold: a lookup in the merged dictionary finds
    what [resolution] says. *)
Definition fold_resolves (st : state) (d u p c : loc) : Prop :=
  ∀ st', merge_layers st = Ok tt st' →
         ∀ n k, set_at_all st' d n k = resolution st [d; u; p; c] n k.

(** ** The merge *)

(** What the merge writes into a section of [lower]. *)
Definition merged_section (s o : Section) : Section :=
  with_contents s (Dict.update (contents s) (contents o)).

(** The bindings that visiting [names] appends to [lower]. *)
Definition inserted (hd ld : SectionDict) (names : list string) : SectionDict :=
  flat_map (λ n, if Dict.mem ld n then []
                 else match Dict.get hd n with
                      | Some h => [(n, h)]
                      | None => []
                      end) names.

(** The names that [higher] adds to [lower], with their sections. *)
Definition added (ld hd : SectionDict) : SectionDict :=
  filter (λ p, Dict.mem ld p.1 = false) hd.

(** What the loop of the merge needs of the names still to visit. *)
Record merge_pre (lower higher : loc) (hd : SectionDict)
                 (st : state) (ld : SectionDict) (names : list string) : Prop := {
  pre_distinct : lower ≠ higher;
  pre_lower : dict_store st !! lower = Some ld;
  pre_higher : dict_store st !! higher = Some hd;
  pre_names : ∀ n, n ∈ names → is_Some (Dict.get hd n);
  pre_nodup : NoDup names;
  pre_valid_l : ∀ n l, n ∈ names → Dict.get ld n = Some l →
                       l < length (section_store st);
  pre_valid_h : ∀ n h, n ∈ names → Dict.get hd n = Some h →
                       h < length (section_store st);
  pre_inj : ∀ n m l, n ∈ names → m ∈ names →
                     Dict.get ld n = Some l → Dict.get ld m = Some l → n = m;
  pre_sep : ∀ n m l h, n ∈ names → m ∈ names →
                       Dict.get ld n = Some l → Dict.get hd m = Some h → l ≠ h
}.

(** What the loop of the merge has done once [names] are visited. *)
Record merge_post (lower : loc) (hd : SectionDict)
                  (st st' : state) (ld : SectionDict) (names : list string) : Prop := {
  post_dicts : dict_store st' = <[lower := ld ++ inserted hd ld names]> (dict_store st);
  post_length : length (section_store st') = length (section_store st);
  post_frame : ∀ x, (∀ n, n ∈ names → Dict.get ld n ≠ Some x) →
                    section_store st' !! x = section_store st !! x;
  post_update : ∀ n l h s o,
      n ∈ names → Dict.get ld n = Some l → Dict.get hd n = Some h →
      section_store st !! l = Some s → section_store st !! h = Some o →
      section_store st' !! l = Some (merged_section s o);
  post_bears : bear_store st' = bear_store st;
  post_lists : list_store st' = list_store st;
  post_events : events st' = events st;
  post_self : self st' = self st
}.

(** Every section holds a dictionary of settings. *)
Definition contents_wf (st : state) : Prop :=
  ∀ l s, section_store st !! l = Some s → Dict.wf (contents s).

(** Two section dictionaries that share no section object. *)
Record separate (st : state) (lower higher : loc) (ld hd : SectionDict) : Prop := {
  sep_distinct : lower ≠ higher;
  sep_lower : dict_store st !! lower = Some ld;
  sep_higher : dict_store st !! higher = Some hd;
  sep_wf_lower : Dict.wf ld;
  sep_wf_higher : Dict.wf hd;
  sep_valid : ∀ l, l ∈ Dict.values ld ++ Dict.values hd →
                   l < length (section_store st);
  sep_nodup : NoDup (Dict.values ld ++ Dict.values hd);
  sep_contents : contents_wf st
}.

(** What a merge of separate dictionaries leaves behind. *)
Record merge_result (st st' : state) (lower higher : loc)
                    (ld hd : SectionDict) : Prop := {
  res_dicts : dict_store st' = <[lower := ld ++ added ld hd]> (dict_store st);
  res_length : length (section_store st') = length (section_store st);
  res_frame : ∀ x, x ∉ Dict.values ld →
                   section_store st' !! x = section_store st !! x;
  res_explicit : ∀ n k,
      explicit st' lower n k
      = match explicit st higher n k with
        | Some v => Some v
        | None => explicit st lower n k
        end;
  res_defaults : ∀ x, defaults <$> section_store st' !! x
                      = defaults <$> section_store st !! x;
  res_name : ∀ x, name <$> section_store st' !! x = name <$> section_store st !! x;
  res_contents : contents_wf st';
  res_bears : bear_store st' = bear_store st;
  res_lists : list_store st' = list_store st;
  res_events : events st' = events st;
  res_self : self st' = self st
}.

(** The four layers as the loader leaves them: four dictionaries, each
    with section objects of its own. *)
Record layered (st : state) (d u p c : loc) (dd ud pd cd : SectionDict) : Prop := {
  lay_default : default_sections (self st) = Some d;
  lay_user : user_sections (self st) = Some u;
  lay_coafile : coafile_sections (self st) = Some p;
  lay_cli : cli_sections (self st) = Some c;
  lay_refs : NoDup [d; u; p; c];
  lay_dd : dict_store st !! d = Some dd;
  lay_ud : dict_store st !! u = Some ud;
  lay_pd : dict_store st !! p = Some pd;
  lay_cd : dict_store st !! c = Some cd;
  lay_wf : Dict.wf dd ∧ Dict.wf ud ∧ Dict.wf pd ∧ Dict.wf cd;
  lay_valid : ∀ l, l ∈ Dict.values dd ++ Dict.values ud
                        ++ Dict.values pd ++ Dict.values cd →
                   l < length (section_store st);
  lay_nodup : NoDup (Dict.values dd ++ Dict.values ud
                     ++ Dict.values pd ++ Dict.values cd);
  lay_contents : contents_wf st
}.

(** No [defaults] reference has been assigned. *)
Definition no_defaults (st : state) : Prop :=
  ∀ l s, section_store st !! l = Some s → defaults s = None.

(** The dictionary of the merged layers. *)
Definition merged3 (dd ud pd cd : SectionDict) : SectionDict :=
  let m1 := dd ++ added dd ud in
  let m2 := m1 ++ added m1 pd in
  m2 ++ added m2 cd.

(** What the three merges leave behind. *)
Record layers_merged (st st' : state) (d u p c : loc)
                     (dd ud pd cd : SectionDict) : Prop := {
  lm_sections : sections (self st') = Some d;
  lm_self : self st' = set_sections d (self st);
  lm_dict : dict_store st' !! d = Some (merged3 dd ud pd cd);
  lm_dicts : ∀ r, r ≠ d → dict_store st' !! r = dict_store st !! r;
  lm_length : length (section_store st') = length (section_store st);
  lm_frame : ∀ x, x ∉ Dict.values dd ++ Dict.values ud ++ Dict.values pd →
                  section_store st' !! x = section_store st !! x;
  lm_untouched : ∀ x, x ∉ Dict.values (merged3 dd ud pd cd) →
                      section_store st' !! x = section_store st !! x;
  lm_explicit : ∀ n k,
      explicit st' d n k
      = first_of [explicit st c n k; explicit st p n k;
                  explicit st u n k; explicit st d n k];
  lm_defaults : ∀ x, defaults <$> section_store st' !! x
                     = defaults <$> section_store st !! x;
  lm_name : ∀ x, name <$> section_store st' !! x = name <$> section_store st !! x;
  lm_contents : contents_wf st';
  lm_wf : Dict.wf (merged3 dd ud pd cd);
  lm_nodup : NoDup (Dict.values (merged3 dd ud pd cd));
  lm_valid : ∀ l, l ∈ Dict.values (merged3 dd ud pd cd) →
                  l < length (section_store st');
  lm_bears : bear_store st' = bear_store st;
  lm_lists : list_store st' = list_store st;
  lm_events : events st' = events st
}.

(** Two dictionaries of equal content: under every name, sections of
    equal value. *)
Record same_content (st : state) (ld hd : SectionDict) : Prop := {
  same_sections : ∀ n, (Dict.get hd n ≫= λ h, section_store st !! h)
                       = (Dict.get ld n ≫= λ l, section_store st !! l);
  same_valid : ∀ n h, Dict.get hd n = Some h → is_Some (section_store st !! h)
}.

#[global] Instance wf_dec {V} (d : Dict.t V) : Decision (Dict.wf d) :=
  NoDup_dec (Dict.keys d).

(** ** The loader and the saver *)

(** A section that can be looked into: it is in the store, and so is
    the section its [defaults] refer to. *)
Definition readable (st : state) (l : loc) : Prop :=
  ∃ s, section_store st !! l = Some s
       ∧ ∀ x, defaults s = Some x → is_Some (section_store st !! x).

(** The [default] section of the dictionary that an attribute holds. *)
Definition default_of (st : state) (field : Manager → option loc) (l : loc) : Prop :=
  ∃ r d, field (self st) = Some r
         ∧ dict_store st !! r = Some d
         ∧ Dict.get d "default" = Some l
         ∧ readable st l.

(** What a lookup with a fallback returns. *)
Definition lookup (st : state) (l : loc) (key fallback : string) : Setting :=
  default (mkSetting key fallback) (found st l key).

(** The fallback chain for the path of the project's coafile, as the
    claim words it: the command line's [config] if present, else the
    user file's, else the system file's, else [.coafile]. *)
Definition config_fallback (cli user system : option Setting) : string :=
  match cli with
  | Some s => str s
  | None =>
      match user with
      | Some s => str s
      | None =>
          match system with
          | Some s => str s
          | None => ".coafile"
          end
      end
  end.

(** The events of a write by [ConfWriter]. *)
Definition written (path : string) (sections : loc) : list event :=
  [EvWriteSections path sections; EvCloseWriter path].

(** ** The choice of the log printer *)

(** What closing the objects held so far emits. *)
Definition closing `{Collaborators} (st : state) : list event :=
  match interactor (self st) with
  | Some i => if closable_interactor i then [EvCloseInteractor i] else []
  | None => []
  end
  ++ match log_printer (self st) with
     | Some p => if closable_printer p then [EvClosePrinter p] else []
     | None => []
     end.

(** The warning about a log printer that could not be made. *)
Definition fallback_warning `{Collaborators} (log_type : string) (lvl : level) : event :=
  EvLog (ConsolePrinter lvl) LOG_LEVEL_WARNING (mkMessage logging_failed log_type).

(** ** The wiring of the defaults *)

(** Whether the wiring loop, over [names], assigns the [defaults] of the
    section object [x]. *)
Definition wired (d : SectionDict) (names : list string) (x : loc) : bool :=
  existsb (λ n, negb (String.eqb n "default")
                && bool_decide (Dict.get d n = Some x)) names.

(** The body of the wiring loop. *)
Definition wire_one (section : string) : M unit :=
  if negb (String.eqb section "default") then set_defaults section else ret tt.

(** ** Claims that the code does not meet, as they are stated *)

(** C8 as stated: after loading, the merged [default] section has no
    [targets] setting. *)
Definition merged_without_targets `{Collaborators}
    (arg_list : list string) (st : state) : Prop :=
  ∀ st' r l s,
    _load_configuration arg_list st = Ok tt st' →
    sections (self st') = Some r →
    section_of st' r "default" = Some l →
    section_store st' !! l = Some s →
    Dict.get (contents s) "targets" = None.

(** C9 as stated: no descriptor of the combined list is one of the
    stored local or global descriptors, and assigning to a descriptor of
    the combined list changes none of those. *)
Definition combined_unaliased (st : state) (local global : loc) : Prop :=
  ∀ st' all xs ls gs y x b,
    combine_bears local global st = Ok all st' →
    list_store st' !! all = Some xs →
    list_store st' !! local = Some ls →
    list_store st' !! global = Some gs →
    y ∈ xs → x ∈ ls ++ gs →
    y ≠ x ∧ <[y := b]> (bear_store st') !! x = bear_store st' !! x.

(** ** Effects *)

(** The second state is the first with more events in its trace. *)
Definition logs_only (st st' : state) : Prop :=
  ∃ evs, st' = set_events (λ t, t ++ evs) st.

(** A computation that, however it ends, has done nothing but add
    events to the trace. *)
Definition only_logs {A} (m : M A) : Prop :=
  ∀ st, match m st with
        | Ok _ st' | Raise _ st' => logs_only st st'
        | Stuck => True
        end.

(** The targets that name no section of a dictionary. *)
Definition missing_targets (d : SectionDict) (targets : list string) : list string :=
  filter (λ t, Dict.mem d t = false) targets.

(** The state in which one more dictionary has been made, holding one
    new and empty [default] section, and [evs] have been logged. *)
Definition with_empty_default (evs : list event) (st : state) : state :=
  mkState (section_store st ++ [Section_new "default"])
          (dict_store st ++ [[("default", length (section_store st))]])
          (bear_store st) (list_store st) (events st ++ evs) (self st).

(** The warning about a coafile that does not exist. *)
Definition missing_warning `{Collaborators} (p : Printer) (filename : string) : event :=
  EvLog p LOG_LEVEL_WARNING (mkMessage coafile_missing (abspath filename)).

(** A computation that, when it returns, has left the manager as it
    was. *)
Definition keeps_self {A} (m : M A) : Prop :=
  ∀ st a st', m st = Ok a st' → self st' = self st.

(** The plugins discovered for the section of a name: what
    [collect_bears] returned for the LOCAL kind, and what it returned
    for the GLOBAL kind when called next, both on the plugin directories
    and the plugin names that the section gives. *)
Definition bear_dirs_of `{Collaborators} (st : state) (l : loc) : list string :=
  path_list (lookup st l "bear_dirs" "") ++ [path_join coalib_bears_root "**"].

Definition bears_of `{Collaborators} (st : state) (l : loc) : list string :=
  Setting_iter (lookup st l "bears" "").

Definition discovery `{Collaborators} (n : string) (lb gb : loc) : Prop :=
  ∃ s1 r l p s2 p' s3,
    sections (self s1) = Some r
    ∧ section_of s1 r n = Some l
    ∧ log_printer (self s1) = Some p
    ∧ collect_bears (bear_dirs_of s1 l) (bears_of s1 l) LOCAL p s1 = Ok lb s2
    ∧ log_printer (self s2) = Some p'
    ∧ collect_bears (bear_dirs_of s1 l) (bears_of s1 l) GLOBAL p' s2 = Ok gb s3.
(** * Properties *)

(** ** Dictionaries *)

Module DictFacts.
Import Dict.

Section Facts.
Context {V : Type}.
Implicit Types (d o : t V) (k : string) (v : V).

Lemma eqb_refl' k : String.eqb k k = true.
Proof. apply String.eqb_refl. Qed.

Lemma eqb_ne k k' : k ≠ k' → String.eqb k k' = false.
Proof. intros H. by apply String.eqb_neq. Qed.

Lemma get_None_keys d k : get d k = None ↔ k ∉ keys d.
Proof.
  induction d as [|[k' v] r IH]; simpl.
  - split; [intros _; apply not_elem_of_nil | done].
  - destruct (String.eqb k' k) eqn:E.
    + apply String.eqb_eq in E as ->. split; [done|].
      intros H. exfalso. apply H. left.
    + apply String.eqb_neq in E. rewrite IH. rewrite not_elem_of_cons.
      split; [intros; split; [congruence | done] | by intros [_ ?]].
Qed.

Lemma get_Some_keys d k v : get d k = Some v → k ∈ keys d.
Proof.
  intros H. destruct (decide (k ∈ keys d)) as [|N]; [done|].
  apply get_None_keys in N. congruence.
Qed.

Lemma keys_get_Some d k : k ∈ keys d → is_Some (get d k).
Proof.
  intros H. destruct (get d k) eqn:E; [eauto|].
  apply get_None_keys in E. done.
Qed.

Lemma get_Some_elem d k v : get d k = Some v → (k, v) ∈ d.
Proof.
  induction d as [|[k' v'] r IH]; simpl; [done|].
  destruct (String.eqb k' k) eqn:E.
  - apply String.eqb_eq in E as ->. intros [= ->]. left.
  - intros H. right. auto.
Qed.

Lemma get_Some_values d k v : get d k = Some v → v ∈ values d.
Proof.
  intros H%get_Some_elem. unfold values.
  apply list_elem_of_fmap. by exists (k, v).
Qed.

Lemma elem_get_Some d k v : wf d → (k, v) ∈ d → get d k = Some v.
Proof.
  unfold wf. induction d as [|[k' v'] r IH]; simpl; intros ND H.
  - by apply elem_of_nil in H.
  - apply NoDup_cons in ND as [Hk ND].
    apply elem_of_cons in H as [[= <- <-]|H].
    + by rewrite String.eqb_refl.
    + destruct (String.eqb k' k) eqn:E; [|auto].
      apply String.eqb_eq in E as ->. exfalso. apply Hk.
      apply list_elem_of_fmap. by exists (k, v).
Qed.

Lemma mem_true d k : mem d k = true ↔ is_Some (get d k).
Proof.
  unfold mem. destruct (get d k); split; eauto; try done.
Qed.

Lemma mem_false d k : mem d k = false ↔ get d k = None.
Proof. unfold mem. destruct (get d k); split; eauto; done. Qed.

Lemma get_set_eq d k v : get (set d k v) k = Some v.
Proof.
  induction d as [|[k' v'] r IH]; simpl.
  - by rewrite String.eqb_refl.
  - destruct (String.eqb k' k) eqn:E; simpl; by rewrite E.
Qed.

Lemma get_set_ne d k k' v : k ≠ k' → get (set d k v) k' = get d k'.
Proof.
  intros N. induction d as [|[k0 v0] r IH]; simpl.
  - by rewrite eqb_ne.
  - destruct (String.eqb k0 k) eqn:E; simpl.
    + apply String.eqb_eq in E as ->. by rewrite eqb_ne.
    + by rewrite IH.
Qed.

Lemma get_set d k k' v :
  get (set d k v) k' = if decide (k = k') then Some v else get d k'.
Proof.
  case_decide as E; [subst; apply get_set_eq | by apply get_set_ne].
Qed.

(** Assigning to a key that is absent appends the binding. *)
Lemma set_fresh d k v : get d k = None → set d k v = d ++ [(k, v)].
Proof.
  induction d as [|[k' v'] r IH]; simpl; [done|].
  destruct (String.eqb k' k); [done|]. intros H. by rewrite IH.
Qed.

(** Assigning to a key that is present keeps the keys as they are. *)
Lemma keys_set_present d k v : is_Some (get d k) → keys (set d k v) = keys d.
Proof.
  induction d as [|[k' v'] r IH]; simpl; [by intros [? ?]|].
  destruct (String.eqb k' k) eqn:E; simpl; [done|].
  intros H. by rewrite IH.
Qed.

Lemma set_same d k v : get d k = Some v → set d k v = d.
Proof.
  induction d as [|[k' v'] r IH]; simpl; [done|].
  destruct (String.eqb k' k) eqn:E.
  - by intros [= ->].
  - intros H. by rewrite IH.
Qed.

Lemma get_app d o k :
  get (d ++ o) k = match get d k with Some v => Some v | None => get o k end.
Proof.
  induction d as [|[k' v'] r IH]; simpl; [done|].
  by destruct (String.eqb k' k).
Qed.

Lemma get_pop_eq d k : wf d → get (pop d k).2 k = None.
Proof.
  unfold wf. induction d as [|[k' v'] r IH]; simpl; [done|].
  intros [Hk ND]%NoDup_cons.
  destruct (String.eqb k' k) eqn:E; simpl.
  - apply String.eqb_eq in E as ->. by apply get_None_keys.
  - destruct (pop r k) as [o r'] eqn:P. simpl in *. rewrite E. auto.
Qed.

Lemma get_pop_ne d k k' : k ≠ k' → get (pop d k).2 k' = get d k'.
Proof.
  intros N. induction d as [|[k0 v0] r IH]; simpl; [done|].
  destruct (String.eqb k0 k) eqn:E; simpl.
  - apply String.eqb_eq in E as ->. by rewrite eqb_ne.
  - destruct (pop r k) as [o r'] eqn:P. simpl in *. by rewrite IH.
Qed.

Lemma pop_fst d k : (pop d k).1 = get d k.
Proof.
  induction d as [|[k0 v0] r IH]; simpl; [done|].
  destruct (String.eqb k0 k) eqn:E; simpl; [done|].
  destruct (pop r k) as [o r'] eqn:P. simpl in *. done.
Qed.

(** What [update] leaves under each key, when [other] is a
    dictionary. *)
Lemma get_update d o k :
  wf o →
  get (update d o) k = match get o k with Some v => Some v | None => get d k end.
Proof.
  unfold update, wf. revert d.
  induction o as [|[k' v'] r IH]; simpl; intros d ND; [done|].
  apply NoDup_cons in ND as [Hk ND]. rewrite IH by done.
  destruct (String.eqb k' k) eqn:E.
  - apply String.eqb_eq in E as ->.
    apply get_None_keys in Hk. rewrite Hk. apply get_set_eq.
  - apply String.eqb_neq in E. destruct (get r k); [done|].
    by apply get_set_ne.
Qed.

(** Updating with bindings that are all there already changes
    nothing. *)
Lemma update_same_elems d o :
  (∀ k v, (k, v) ∈ o → get d k = Some v) → update d o = d.
Proof.
  unfold update. revert d.
  induction o as [|[k' v'] r IH]; simpl; intros d H; [done|].
  rewrite set_same by (apply H; left). apply IH.
  intros k v Hin. apply H. by right.
Qed.

Lemma update_idemp d : wf d → update d d = d.
Proof. intros W. apply update_same_elems. intros k v. by apply elem_get_Some. Qed.

Lemma keys_update_subset d o :
  (∀ k, k ∈ keys o → k ∈ keys d) → keys (update d o) = keys d.
Proof.
  unfold update. revert d.
  induction o as [|[k' v'] r IH]; simpl; intros d H; [done|].
  assert (Hk : keys (set d k' v') = keys d).
  { apply keys_set_present, keys_get_Some, H. left. }
  rewrite IH; [done|]. intros k Hin. rewrite Hk. apply H. by right.
Qed.

End Facts.

End DictFacts.

(** ** Running computations *)

Lemma bind_Ok {A B} (m : M A) (k : A → M B) st a st' :
  m st = Ok a st' → bind m k st = k a st'.
Proof. unfold bind. by intros ->. Qed.

Lemma bind_Raise {A B} (m : M A) (k : A → M B) st e st' :
  m st = Raise e st' → bind m k st = Raise e st'.
Proof. unfold bind. by intros ->. Qed.

Lemma deref_dict_Ok r st d :
  dict_store st !! r = Some d → deref_dict r st = Ok d st.
Proof. unfold deref_dict, bind, get_state, of_option. by intros ->. Qed.

Lemma deref_section_Ok l st s :
  section_store st !! l = Some s → deref_section l st = Ok s st.
Proof. unfold deref_section, bind, get_state, of_option. by intros ->. Qed.

Lemma index_Ok {V} (d : Dict.t V) k v st :
  Dict.get d k = Some v → index d k st = Ok v st.
Proof. unfold index. by intros ->. Qed.

Lemma index_Raise {V} (d : Dict.t V) k st :
  Dict.get d k = None → index d k st = Raise (KeyError k) st.
Proof. unfold index. by intros ->. Qed.

Lemma assign_section_Ok l s st :
  l < length (section_store st) →
  assign_section l s st = Ok tt (set_section_store (λ h, <[l := s]> h) st).
Proof.
  intros H. unfold assign_section, bind, get_state. by rewrite decide_True.
Qed.

Lemma assign_dict_Ok r d st :
  r < length (dict_store st) →
  assign_dict r d st = Ok tt (set_dict_store (λ h, <[r := d]> h) st).
Proof.
  intros H. unfold assign_dict, bind, get_state. by rewrite decide_True.
Qed.

Lemma attr_Ok {A} (field : Manager → option A) st a :
  field (self st) = Some a → attr field st = Ok a st.
Proof. unfold attr, bind, get_state, of_option. by intros ->. Qed.

Lemma Section_update_Ok l h s o st :
  section_store st !! l = Some s →
  section_store st !! h = Some o →
  Section_update l h st
  = Ok tt (set_section_store (λ m, <[l := merged_section s o]> m) st).
Proof.
  intros Hl Hh. unfold Section_update.
  rewrite (bind_Ok _ _ _ _ _ (deref_section_Ok _ _ _ Hl)).
  rewrite (bind_Ok _ _ _ _ _ (deref_section_Ok _ _ _ Hh)).
  apply assign_section_Ok. by eapply lookup_lt_Some.
Qed.

(** ** The merge *)

Import Dict DictFacts.

Ltac same H1 H2 :=
  let X := fresh in
  pose proof (eq_trans (eq_sym H2) H1) as X; injection X as ->.

Section Merge.
Variables (lower higher : loc) (hd : SectionDict).

Lemma inserted_snoc ld n h names :
  n ∉ names → inserted hd (ld ++ [(n, h)]) names = inserted hd ld names.
Proof.
  intros Hn. unfold inserted. induction names as [|m r IH]; simpl; [done|].
  apply not_elem_of_cons in Hn as [Hne Hr]. rewrite IH by done. f_equal.
  unfold Dict.mem. rewrite get_app. destruct (Dict.get ld m); [done|].
  simpl. by rewrite eqb_ne.
Qed.

Lemma merge_loop_spec names : ∀ st ld,
  merge_pre lower higher hd st ld names →
  ∃ st', merge_loop names lower higher st = Ok tt st'
         ∧ merge_post lower hd st st' ld names.
Proof.
  induction names as [|n rest IH]; intros st ld P.
  - exists st. split; [done|]. destruct P. split; try done.
    + simpl. rewrite app_nil_r. symmetry. by apply list_insert_id.
    + intros ????? Hin. by apply elem_of_nil in Hin.
  - destruct P as [Hd Hl Hh Hn ND Vl Vh Inj Sep].
    apply NoDup_cons in ND as [Hnr ND].
    destruct (Hn n) as [h Hhn]; [left|].
    assert (Hvh : h < length (section_store st)) by (eapply Vh; [left|done]).
    simpl. rewrite (bind_Ok _ _ _ _ _ (deref_dict_Ok _ _ _ Hl)).
    destruct (Dict.get ld n) as [l|] eqn:Hln.
    + (* the name is in lower: update in place *)
      assert (Hvl : l < length (section_store st)) by (eapply Vl; [left|done]).
      destruct (lookup_lt_is_Some_2 _ _ Hvl) as [s Hs].
      destruct (lookup_lt_is_Some_2 _ _ Hvh) as [o Ho].
      assert (Hm : Dict.mem ld n = true) by (apply mem_true; eauto).
      rewrite Hm.
      set (st1 := set_section_store (λ m, <[l := merged_section s o]> m) st).
      assert (E1 : (l0 <- index ld n ;; hd0 <- deref_dict higher ;;
                    h0 <- index hd0 n ;; Section_update l0 h0) st = Ok tt st1).
      { rewrite (bind_Ok _ _ _ _ _ (index_Ok _ _ _ _ Hln)).
        rewrite (bind_Ok _ _ _ _ _ (deref_dict_Ok _ _ _ Hh)).
        rewrite (bind_Ok _ _ _ _ _ (index_Ok _ _ _ _ Hhn)).
        by apply Section_update_Ok. }
      rewrite (bind_Ok _ _ _ _ _ E1).
      destruct (IH st1 ld) as (st' & Hrun & Q).
      { split; simpl; try done.
        - intros m ?. apply Hn. by right.
        - intros m x ? ?. rewrite length_insert. eapply Vl; [by right|done].
        - intros m x ? ?. rewrite length_insert. eapply Vh; [by right|done].
        - intros a b x ? ?. apply Inj; by right.
        - intros a b x y ? ?. apply Sep; by right. }
      exists st'. split; [done|]. destruct Q as [Qd Ql Qf Qu Qb Qli Qe Qs].
      split; simpl in *; try done.
      * rewrite Qd. simpl. by rewrite Hm.
      * by rewrite Ql, length_insert.
      * intros x Hx. rewrite Qf.
        -- apply list_lookup_insert_ne. intros ->. by apply (Hx n); [left|].
        -- intros m ?. apply Hx. by right.
      * intros m lm hm sm om Hin Hlm Hhm Hsm Hom.
        apply elem_of_cons in Hin as [->|Hin].
        -- same Hln Hlm. same Hhn Hhm. same Hs Hsm. same Ho Hom. rewrite Qf.
           ++ by apply list_lookup_insert_eq.
           ++ intros m Hm' Hlm'. apply Hnr.
              rewrite (Inj n m l); [done|left|by right|done|done].
        -- assert (m ≠ n) by (intros ->; done).
           apply (Qu m lm hm); try done.
           ++ rewrite list_lookup_insert_ne; [done|].
              intros E. apply H. apply (Inj m n lm); [by right|by left|done|by rewrite <- E].
           ++ rewrite list_lookup_insert_ne; [done|].
              intros E. by apply (Sep n m l hm); [left|right|..].
    + (* the name is new: the section object itself is inserted *)
      assert (Hm : Dict.mem ld n = false) by (by apply mem_false).
      rewrite Hm.
      assert (Hlow : lower < length (dict_store st)) by (by eapply lookup_lt_Some).
      set (st1 := set_dict_store (λ m, <[lower := Dict.set ld n h]> m) st).
      assert (E1 : (hd0 <- deref_dict higher ;; h0 <- index hd0 n ;;
                    assign_dict lower (Dict.set ld n h0)) st = Ok tt st1).
      { rewrite (bind_Ok _ _ _ _ _ (deref_dict_Ok _ _ _ Hh)).
        rewrite (bind_Ok _ _ _ _ _ (index_Ok _ _ _ _ Hhn)).
        by apply assign_dict_Ok. }
      rewrite (bind_Ok _ _ _ _ _ E1).
      assert (Hother : ∀ m, m ∈ rest → Dict.get (Dict.set ld n h) m = Dict.get ld m).
      { intros m Hin. apply get_set_ne. intros ->. done. }
      destruct (IH st1 (Dict.set ld n h)) as (st' & Hrun & Q).
      { split; simpl; try done.
        - by apply list_lookup_insert_eq.
        - by rewrite list_lookup_insert_ne.
        - intros m ?. apply Hn. by right.
        - intros m x Hin. rewrite Hother by done. intros ?. eapply Vl; [by right|done].
        - intros m x ? ?. eapply Vh; [by right|done].
        - intros a b x Ha Hb. rewrite !Hother by done. apply Inj; by right.
        - intros a b x y Ha Hb. rewrite Hother by done. apply Sep; by right. }
      exists st'. split; [done|]. destruct Q as [Qd Ql Qf Qu Qb Qli Qe Qs].
      split; simpl in *; try done.
      * rewrite Qd. simpl. rewrite list_insert_insert_eq. rewrite Hm, Hhn.
        rewrite set_fresh by done. rewrite inserted_snoc by done.
        by rewrite <- app_assoc.
      * intros x Hx. rewrite Qf; [done|].
        intros m Hin. rewrite Hother by done. apply Hx. by right.
      * intros m lm hm sm om Hin Hlm Hhm Hsm Hom.
        apply elem_of_cons in Hin as [->|Hin];
          [by pose proof (eq_trans (eq_sym Hln) Hlm)|].
        apply (Qu m lm hm); try done. by rewrite Hother.
Qed.

Lemma inserted_keys_aux ld (l : SectionDict) :
  (∀ k v, (k, v) ∈ l → Dict.get hd k = Some v) →
  inserted hd ld (keys l) = filter (λ p, Dict.mem ld p.1 = false) l.
Proof.
  induction l as [|[k v] r IH]; intros H; [done|].
  change (inserted hd ld (keys ((k, v) :: r)))
    with ((if Dict.mem ld k then []
           else match Dict.get hd k with Some h => [(k, h)] | None => [] end)
          ++ inserted hd ld (keys r)).
  rewrite IH by (intros ???; apply H; by right).
  rewrite (H k v) by left. rewrite filter_cons. simpl.
  destruct (Dict.mem ld k); by case_decide.
Qed.

Lemma inserted_keys ld :
  wf hd → inserted hd ld (keys hd) = added ld hd.
Proof. intros W. apply inserted_keys_aux. intros k v. by apply elem_get_Some. Qed.

End Merge.

Lemma get_inj_values {V} (d : Dict.t V) n m v :
  NoDup (values d) → Dict.get d n = Some v → Dict.get d m = Some v → n = m.
Proof.
  unfold values. induction d as [|[k x] r IH]; simpl; [done|].
  intros [Hx ND]%NoDup_cons.
  destruct (String.eqb k n) eqn:En, (String.eqb k m) eqn:Em.
  - apply String.eqb_eq in En, Em. congruence.
  - intros [= ->] Hm%get_Some_values. done.
  - intros Hn%get_Some_values [= ->]. done.
  - auto.
Qed.

Lemma separate_pre st lower higher ld hd :
  separate st lower higher ld hd →
  merge_pre lower higher hd st ld (keys hd).
Proof.
  intros [Hd Hl Hh Wl Wh V ND _].
  apply NoDup_app in ND as (NDl & Hdis & NDh).
  split; try done.
  - intros n. apply keys_get_Some.
  - intros n l _ Hn%get_Some_values. apply V, elem_of_app. by left.
  - intros n h _ Hn%get_Some_values. apply V, elem_of_app. by right.
  - intros n m l _ _. by apply get_inj_values.
  - intros n m l h _ _ Hn%get_Some_values Hm%get_Some_values ->.
    by apply (Hdis h).
Qed.

Lemma merge_section_dicts_post st lower higher ld hd :
  separate st lower higher ld hd →
  ∃ st', merge_section_dicts lower higher st = Ok lower st'
         ∧ merge_post lower hd st st' ld (keys hd).
Proof.
  intros S. pose proof (separate_pre _ _ _ _ _ S) as P.
  destruct (merge_loop_spec lower higher hd _ _ _ P) as (st' & Hrun & Q).
  exists st'. split; [|done]. unfold merge_section_dicts.
  rewrite (bind_Ok _ _ _ _ _ (deref_dict_Ok _ _ _ (sep_higher _ _ _ _ _ S))).
  by rewrite (bind_Ok _ _ _ _ _ Hrun).
Qed.

Lemma wf_set {V} (d : Dict.t V) k v : wf d → wf (Dict.set d k v).
Proof.
  unfold wf. intros W. destruct (Dict.get d k) eqn:E.
  - rewrite keys_set_present; eauto.
  - rewrite set_fresh by done. unfold keys. rewrite fmap_app. simpl.
    apply NoDup_app. split; [done|]. split.
    + intros x Hx ->%list_elem_of_singleton. by apply get_None_keys in E.
    + apply NoDup_singleton.
Qed.

Lemma wf_update {V} (d o : Dict.t V) : wf d → wf (Dict.update d o).
Proof.
  unfold Dict.update. revert d.
  induction o as [|[k v] r IH]; simpl; intros d W; [done|].
  by apply IH, wf_set.
Qed.

Lemma get_added ld hd n :
  Dict.get (added ld hd) n = if Dict.mem ld n then None else Dict.get hd n.
Proof.
  unfold added. induction hd as [|[k v] r IH]; simpl.
  - by destruct (Dict.mem ld n).
  - rewrite filter_cons. simpl. case_decide as E; simpl.
    + rewrite IH. destruct (String.eqb k n) eqn:Ek; [|done].
      apply String.eqb_eq in Ek as ->. by rewrite E.
    + rewrite IH. destruct (String.eqb k n) eqn:Ek; [|done].
      apply String.eqb_eq in Ek as ->. by destruct (Dict.mem ld n).
Qed.

Lemma values_added_sublist ld hd : values (added ld hd) `sublist_of` values hd.
Proof. unfold values, added. apply fmap_sublist, sublist_filter. Qed.

Lemma keys_added_sublist ld hd : keys (added ld hd) `sublist_of` keys hd.
Proof. unfold keys, added. apply fmap_sublist, sublist_filter. Qed.

Lemma wf_merged ld hd : wf ld → wf hd → wf (ld ++ added ld hd).
Proof.
  unfold wf. intros Wl Wh. unfold keys. rewrite fmap_app.
  apply NoDup_app. split; [done|]. split.
  - intros k Hk Ha. apply keys_get_Some in Ha as [h Ha].
    rewrite get_added in Ha. apply keys_get_Some in Hk as Hk'.
    apply mem_true in Hk'. by rewrite Hk' in Ha.
  - eapply sublist_NoDup; [exact Wh|apply keys_added_sublist].
Qed.

Lemma explicit_unfold st r d n k :
  dict_store st !! r = Some d →
  explicit st r n k
  = l ← Dict.get d n; s ← section_store st !! l; Dict.get (contents s) k.
Proof. intros H. unfold explicit, section_of. by rewrite H. Qed.

Lemma merge_section_dicts_result st lower higher ld hd :
  separate st lower higher ld hd →
  ∃ st', merge_section_dicts lower higher st = Ok lower st'
         ∧ merge_post lower hd st st' ld (keys hd)
         ∧ merge_result st st' lower higher ld hd.
Proof.
  intros S. destruct (merge_section_dicts_post _ _ _ _ _ S) as (st' & Hrun & Q).
  exists st'. split; [done|]. split; [done|].
  destruct S as [Hd Hl Hh Wl Wh V ND CW].
  destruct Q as [Qd Ql Qf Qu Qb Qli Qe Qs].
  pose proof ND as ND'. apply NoDup_app in ND' as (NDl & Hdis & NDh).
  assert (Hframe : ∀ x, x ∉ values ld →
                        section_store st' !! x = section_store st !! x).
  { intros x Hx. apply Qf. intros n _ Hn. by apply Hx, (get_Some_values _ n). }
  assert (Hcases : ∀ x,
            section_store st' !! x = section_store st !! x
            ∨ ∃ s o, section_store st !! x = Some s
                     ∧ section_store st' !! x = Some (merged_section s o)).
  { intros x.
    destruct (decide (x ∈ values (filter (λ p, Dict.mem hd p.1 = true) ld)))
      as [Hin|Hout].
    - right. unfold values in Hin.
      apply list_elem_of_fmap in Hin as ([n y] & -> & Hin).
      apply list_elem_of_filter in Hin as [Hm Hin]. simpl in *.
      apply mem_true in Hm as [h Hh'].
      pose proof (elem_get_Some _ _ _ Wl Hin) as Hn.
      assert (Hvy : y < length (section_store st)).
      { apply V, elem_of_app. left. by eapply get_Some_values. }
      assert (Hvh : h < length (section_store st)).
      { apply V, elem_of_app. right. by eapply get_Some_values. }
      destruct (lookup_lt_is_Some_2 _ _ Hvy) as [s Hs].
      destruct (lookup_lt_is_Some_2 _ _ Hvh) as [o Ho].
      exists s, o. split; [done|]. eapply Qu; eauto.
      by eapply get_Some_keys.
    - left. apply Qf. intros n Hn Hx. apply Hout. unfold values.
      apply list_elem_of_fmap. exists (n, x). split; [done|].
      apply list_elem_of_filter. split; [|by apply get_Some_elem].
      simpl. by apply mem_true, keys_get_Some. }
  split; try done.
  - by rewrite Qd, inserted_keys.
  - intros n k.
    assert (Hl' : dict_store st' !! lower = Some (ld ++ added ld hd)).
    { rewrite Qd, inserted_keys by done. apply list_lookup_insert_eq.
      by eapply lookup_lt_Some. }
    rewrite (explicit_unfold _ _ _ _ _ Hl'), (explicit_unfold _ _ _ _ _ Hl),
            (explicit_unfold _ _ _ _ _ Hh).
    rewrite get_app, get_added.
    destruct (Dict.get ld n) as [l|] eqn:Hln.
    + assert (Hvl : l < length (section_store st)).
      { apply V, elem_of_app. left. by eapply get_Some_values. }
      destruct (lookup_lt_is_Some_2 _ _ Hvl) as [s Hs].
      destruct (Dict.get hd n) as [h|] eqn:Hhn; simpl.
      * assert (Hvh : h < length (section_store st)).
        { apply V, elem_of_app. right. by eapply get_Some_values. }
        destruct (lookup_lt_is_Some_2 _ _ Hvh) as [o Ho].
        rewrite (Qu n l h s o); [|by eapply get_Some_keys|done..].
        rewrite Hs, Ho. simpl. apply get_update. by eapply CW.
      * rewrite Qf; [done|]. intros m Hm Hlm.
        assert (m = n) by (by apply (get_inj_values ld m n l)). subst.
        apply keys_get_Some in Hm as [? Hm]. congruence.
    + assert (Hm : Dict.mem ld n = false) by (by apply mem_false).
      rewrite Hm. destruct (Dict.get hd n) as [h|] eqn:Hhn; simpl; [|done].
      rewrite Hframe.
      * by destruct (section_store st !! h ≫= λ s, Dict.get (contents s) k).
      * intros Hin. apply (Hdis h); [done|]. by eapply get_Some_values.
  - intros x. destruct (Hcases x) as [->|(s & o & -> & ->)]; done.
  - intros x. destruct (Hcases x) as [->|(s & o & -> & ->)]; done.
  - intros x s' Hs'. destruct (Hcases x) as [E|(s & o & Hs & E)].
    + rewrite E in Hs'. by eapply CW.
    + rewrite E in Hs'. injection Hs' as <-. simpl. apply wf_update. by eapply CW.
Qed.

(** ** The three merges *)

Lemma explicit_frame st st' r n k d :
  dict_store st !! r = Some d →
  dict_store st' !! r = Some d →
  (∀ l, l ∈ values d → section_store st' !! l = section_store st !! l) →
  explicit st' r n k = explicit st r n k.
Proof.
  intros H H' F. rewrite (explicit_unfold _ _ _ _ _ H), (explicit_unfold _ _ _ _ _ H').
  destruct (Dict.get d n) as [l|] eqn:E; [|done]. simpl.
  rewrite F; [done|]. by eapply get_Some_values.
Qed.

Lemma values_app {V} (a b : Dict.t V) : values (a ++ b) = values a ++ values b.
Proof. unfold values. apply fmap_app. Qed.

Lemma merge_layers_spec st d u p c dd ud pd cd :
  layered st d u p c dd ud pd cd →
  ∃ st', merge_layers st = Ok tt st'
         ∧ layers_merged st st' d u p c dd ud pd cd.
Proof.
  intros [Ld Lu Lp Lc Lrefs Hdd Hud Hpd Hcd (Wd & Wu & Wp & Wc) V ND CW].
  assert (d ≠ u ∧ d ≠ p ∧ d ≠ c) as (Ndu & Ndp & Ndc).
  { apply NoDup_cons in Lrefs as [Hd _]. rewrite !not_elem_of_cons in Hd.
    tauto. }
  set (m1 := dd ++ added dd ud).
  set (m2 := m1 ++ added m1 pd).
  pose proof (values_added_sublist dd ud) as Sub1.
  pose proof (values_added_sublist m1 pd) as Sub2.
  pose proof (values_added_sublist m2 cd) as Sub3.
  (* first merge *)
  destruct (merge_section_dicts_result st d u dd ud) as (st1 & R1 & _ & Q1).
  { split; try done.
    - intros l Hl. apply V. rewrite !elem_of_app in *. tauto.
    - eapply sublist_NoDup; [exact ND|].
      rewrite (app_assoc (values dd)). by apply sublist_inserts_r. }
  set (st1' := set_self (set_sections d) st1).
  (* second merge *)
  assert (Hc1 : dict_store st1 !! c = Some cd).
  { rewrite (res_dicts _ _ _ _ _ _ Q1). by rewrite list_lookup_insert_ne. }
  assert (Hp1 : dict_store st1 !! p = Some pd).
  { rewrite (res_dicts _ _ _ _ _ _ Q1). by rewrite list_lookup_insert_ne. }
  assert (Hm1 : dict_store st1 !! d = Some m1).
  { rewrite (res_dicts _ _ _ _ _ _ Q1). apply list_lookup_insert_eq.
    by eapply lookup_lt_Some. }
  assert (Sm1 : values m1 ++ values pd `sublist_of`
                values dd ++ values ud ++ values pd ++ values cd).
  { unfold m1. rewrite values_app, <- !app_assoc.
    apply sublist_app; [done|]. apply sublist_app; [done|].
    by apply sublist_inserts_r. }
  destruct (merge_section_dicts_result st1' d p m1 pd) as (st2 & R2 & _ & Q2).
  { split; try done.
    - by apply wf_merged.
    - intros l Hl. simpl. rewrite (res_length _ _ _ _ _ _ Q1). apply V.
      by eapply elem_of_sublist.
    - by eapply sublist_NoDup.
    - apply (res_contents _ _ _ _ _ _ Q1). }
  set (st2' := set_self (set_sections d) st2).
  (* third merge *)
  assert (Hc2 : dict_store st2 !! c = Some cd).
  { rewrite (res_dicts _ _ _ _ _ _ Q2). simpl. by rewrite list_lookup_insert_ne. }
  assert (Hm2 : dict_store st2 !! d = Some m2).
  { rewrite (res_dicts _ _ _ _ _ _ Q2). apply list_lookup_insert_eq.
    by eapply lookup_lt_Some. }
  assert (Sm2 : values m2 ++ values cd `sublist_of`
                values dd ++ values ud ++ values pd ++ values cd).
  { unfold m2, m1. rewrite !values_app, <- !app_assoc.
    apply sublist_app; [done|]. apply sublist_app; [done|].
    by apply sublist_app. }
  destruct (merge_section_dicts_result st2' d c m2 cd) as (st3 & R3 & _ & Q3).
  { split; try done.
    - by apply wf_merged, Wp; apply wf_merged.
    - intros l Hl. simpl.
      rewrite (res_length _ _ _ _ _ _ Q2). simpl.
      rewrite (res_length _ _ _ _ _ _ Q1). apply V.
      by eapply elem_of_sublist.
    - by eapply sublist_NoDup.
    - apply (res_contents _ _ _ _ _ _ Q2). }
  exists (set_self (set_sections d) st3). split.
  { unfold merge_layers.
    rewrite (bind_Ok _ _ _ _ _ (attr_Ok _ _ _ Ld)).
    rewrite (bind_Ok _ _ _ _ _ (attr_Ok _ _ _ Lu)).
    rewrite (bind_Ok _ _ _ _ _ R1).
    rewrite (bind_Ok _ _ st1 tt st1') by done.
    rewrite (bind_Ok _ _ st1' d st1'); [|by apply attr_Ok].
    rewrite (bind_Ok _ _ st1' p st1');
      [|apply attr_Ok; simpl; by rewrite (res_self _ _ _ _ _ _ Q1)].
    rewrite (bind_Ok _ _ _ _ _ R2).
    rewrite (bind_Ok _ _ st2 tt st2') by done.
    rewrite (bind_Ok _ _ st2' d st2'); [|by apply attr_Ok].
    rewrite (bind_Ok _ _ st2' c st2');
      [|apply attr_Ok; simpl; rewrite (res_self _ _ _ _ _ _ Q2); simpl;
        by rewrite (res_self _ _ _ _ _ _ Q1)].
    by rewrite (bind_Ok _ _ _ _ _ R3). }
  assert (Hfinal : dict_store st3 !! d = Some (merged3 dd ud pd cd)).
  { rewrite (res_dicts _ _ _ _ _ _ Q3). apply list_lookup_insert_eq.
    simpl. by eapply lookup_lt_Some. }
  assert (Wm : wf (merged3 dd ud pd cd)).
  { by apply wf_merged, Wc; apply wf_merged, Wp; apply wf_merged. }
  assert (NDm : NoDup (values (merged3 dd ud pd cd))).
  { unfold merged3. fold m1. fold m2. rewrite values_app.
    eapply sublist_NoDup; [exact ND|].
    etrans; [|exact Sm2]. by apply sublist_app. }
  assert (Vm : ∀ l, l ∈ values (merged3 dd ud pd cd) →
                    l < length (section_store st)).
  { intros l Hl. apply V. eapply elem_of_sublist; [|exact Sm2].
    unfold merged3 in Hl. fold m1 in Hl. fold m2 in Hl.
    rewrite values_app in Hl. rewrite elem_of_app in *.
    destruct Hl as [?|Hl]; [by left|right]. by eapply elem_of_sublist. }
  assert (Len : length (section_store st3) = length (section_store st)).
  { rewrite (res_length _ _ _ _ _ _ Q3). simpl.
    rewrite (res_length _ _ _ _ _ _ Q2). simpl.
    by rewrite (res_length _ _ _ _ _ _ Q1). }
  split; simpl; try done.
  - rewrite (res_self _ _ _ _ _ _ Q3). simpl.
    rewrite (res_self _ _ _ _ _ _ Q2). simpl.
    by rewrite (res_self _ _ _ _ _ _ Q1).
  - intros r Hr. rewrite (res_dicts _ _ _ _ _ _ Q3). simpl.
    rewrite list_lookup_insert_ne by done.
    rewrite (res_dicts _ _ _ _ _ _ Q2). simpl.
    rewrite list_lookup_insert_ne by done.
    rewrite (res_dicts _ _ _ _ _ _ Q1).
    by rewrite list_lookup_insert_ne.
  - intros x Hx. rewrite !elem_of_app in Hx.
    rewrite (res_frame _ _ _ _ _ _ Q3); simpl.
    + rewrite (res_frame _ _ _ _ _ _ Q2); simpl.
      * apply (res_frame _ _ _ _ _ _ Q1). tauto.
      * unfold m1. rewrite values_app, elem_of_app. intros [?|Hin]; [tauto|].
        apply Hx. right. left. by eapply elem_of_sublist.
    + unfold m2, m1. rewrite !values_app, !elem_of_app.
      intros [[?|Hin]|Hin]; [tauto| |].
      * apply Hx. right. left. by eapply elem_of_sublist.
      * apply Hx. right. right. by eapply elem_of_sublist.
  - intros x Hx. unfold merged3 in Hx. fold m1 in Hx. fold m2 in Hx.
    rewrite values_app, elem_of_app in Hx.
    assert (H2 : x ∉ values m2) by tauto.
    assert (H1 : x ∉ values m1).
    { unfold m2 in H2. rewrite values_app, elem_of_app in H2. tauto. }
    assert (H0 : x ∉ values dd).
    { unfold m1 in H1. rewrite values_app, elem_of_app in H1. tauto. }
    rewrite (res_frame _ _ _ _ _ _ Q3) by done. simpl.
    rewrite (res_frame _ _ _ _ _ _ Q2) by done. simpl.
    by apply (res_frame _ _ _ _ _ _ Q1).
  - intros n k. apply NoDup_app in ND as (_ & D1 & ND).
    apply NoDup_app in ND as (_ & D2 & ND).
    apply NoDup_app in ND as (_ & D3 & _).
    change (explicit (set_self (set_sections d) st3) d n k)
      with (explicit st3 d n k).
    rewrite (res_explicit _ _ _ _ _ _ Q3).
    change (explicit st2' d n k) with (explicit st2 d n k).
    change (explicit st2' c n k) with (explicit st2 c n k).
    rewrite (res_explicit _ _ _ _ _ _ Q2).
    change (explicit st1' d n k) with (explicit st1 d n k).
    change (explicit st1' p n k) with (explicit st1 p n k).
    rewrite (res_explicit _ _ _ _ _ _ Q1).
    assert (Ec : explicit st2 c n k = explicit st c n k).
    { apply (explicit_frame _ _ _ _ _ cd); [done| |].
      - rewrite (res_dicts _ _ _ _ _ _ Q2). simpl.
        by rewrite list_lookup_insert_ne.
      - intros l Hl. rewrite (res_frame _ _ _ _ _ _ Q2); simpl.
        + apply (res_frame _ _ _ _ _ _ Q1). intros Hin.
          apply (D1 l Hin). rewrite !elem_of_app. tauto.
        + unfold m1. rewrite values_app, elem_of_app. intros [Hin|Hin].
          * apply (D1 l Hin). rewrite !elem_of_app. tauto.
          * apply (D2 l); [by eapply elem_of_sublist|].
            rewrite !elem_of_app. tauto. }
    assert (Ep : explicit st1 p n k = explicit st p n k).
    { apply (explicit_frame _ _ _ _ _ pd); [done|done|].
      intros l Hl. apply (res_frame _ _ _ _ _ _ Q1). intros Hin.
      apply (D1 l Hin). rewrite !elem_of_app. tauto. }
    rewrite Ec, Ep. simpl.
    destruct (explicit st c n k); [done|].
    destruct (explicit st p n k); [done|].
    destruct (explicit st u n k); [done|].
    by destruct (explicit st d n k).
  - intros x. rewrite (res_defaults _ _ _ _ _ _ Q3). simpl.
    rewrite (res_defaults _ _ _ _ _ _ Q2). simpl.
    apply (res_defaults _ _ _ _ _ _ Q1).
  - intros x. rewrite (res_name _ _ _ _ _ _ Q3). simpl.
    rewrite (res_name _ _ _ _ _ _ Q2). simpl.
    apply (res_name _ _ _ _ _ _ Q1).
  - apply (res_contents _ _ _ _ _ _ Q3).
  - intros l Hl. rewrite Len. by apply Vm.
  - rewrite (res_bears _ _ _ _ _ _ Q3). simpl.
    rewrite (res_bears _ _ _ _ _ _ Q2). simpl.
    apply (res_bears _ _ _ _ _ _ Q1).
  - rewrite (res_lists _ _ _ _ _ _ Q3). simpl.
    rewrite (res_lists _ _ _ _ _ _ Q2). simpl.
    apply (res_lists _ _ _ _ _ _ Q1).
  - rewrite (res_events _ _ _ _ _ _ Q3). simpl.
    rewrite (res_events _ _ _ _ _ _ Q2). simpl.
    apply (res_events _ _ _ _ _ _ Q1).
Qed.

(** ** Lookups in sections *)

Lemma Section_get_own l k fb st s v :
  section_store st !! l = Some s →
  Dict.get (contents s) k = Some v →
  Section_get l k fb st = Ok v st.
Proof.
  intros Hs Hk. unfold Section_get.
  rewrite (bind_Ok _ _ _ _ _ (deref_section_Ok _ _ _ Hs)). by rewrite Hk.
Qed.

Lemma Section_get_found l k fb st s :
  section_store st !! l = Some s →
  (∀ d, defaults s = Some d → is_Some (section_store st !! d)) →
  Section_get l k fb st = Ok (default (mkSetting k fb) (found st l k)) st.
Proof.
  intros Hs Hd. unfold Section_get, found.
  rewrite (bind_Ok _ _ _ _ _ (deref_section_Ok _ _ _ Hs)). rewrite Hs. simpl.
  destruct (Dict.get (contents s) k); [done|].
  destruct (defaults s) as [d|] eqn:E; [|done]. simpl.
  destruct (Hd d eq_refl) as [ds Hds].
  rewrite (bind_Ok _ _ _ _ _ (deref_section_Ok _ _ _ Hds)). rewrite Hds. simpl.
  by destruct (Dict.get (contents ds) k).
Qed.

Lemma found_own st l s k v :
  section_store st !! l = Some s →
  Dict.get (contents s) k = Some v →
  found st l k = Some v.
Proof. intros Hs Hk. unfold found. rewrite Hs. simpl. by rewrite Hk. Qed.

Lemma set_at_all_no_defaults st r n k :
  no_defaults st → set_at_all st r n k = explicit st r n k.
Proof.
  intros ND. unfold set_at_all, explicit, found.
  destruct (section_of st r n) as [l|]; [|done]. simpl.
  destruct (section_store st !! l) as [s|] eqn:Hs; [|done]. simpl.
  destruct (Dict.get (contents s) k); [done|]. by rewrite (ND l s Hs).
Qed.

(** ** Checking concrete states *)

Lemma contents_wf_Forall st :
  Forall (λ s, wf (contents s)) (section_store st) → contents_wf st.
Proof.
  intros F l s Hs. rewrite Forall_forall in F. apply F.
  by eapply list_elem_of_lookup_2.
Qed.

Lemma no_defaults_Forall st :
  Forall (λ s, defaults s = None) (section_store st) → no_defaults st.
Proof.
  intros F l s Hs. rewrite Forall_forall in F. apply F.
  by eapply list_elem_of_lookup_2.
Qed.

Lemma valid_Forall (n : nat) (ls : list nat) :
  Forall (λ l, l < n) ls → ∀ l, l ∈ ls → l < n.
Proof. intros F. by apply Forall_forall. Qed.

Ltac check := eapply (bool_decide_unpack _); vm_compute; exact I.

Lemma Section_get_lookup l k fb st :
  readable st l → Section_get l k fb st = Ok (lookup st l k fb) st.
Proof. intros (s & Hs & Hd). by eapply Section_get_found. Qed.

Lemma attr_section_Ok field n st r d l :
  field (self st) = Some r →
  dict_store st !! r = Some d →
  Dict.get d n = Some l →
  attr_section field n st = Ok l st.
Proof.
  intros Hf Hd Hn. unfold attr_section.
  rewrite (bind_Ok _ _ _ _ _ (attr_Ok _ _ _ Hf)).
  rewrite (bind_Ok _ _ _ _ _ (deref_dict_Ok _ _ _ Hd)).
  by apply index_Ok.
Qed.

Lemma attr_default_Ok st field l :
  default_of st field l → attr_section field "default" st = Ok l st.
Proof. intros (r & d & Hf & Hd & Hn & _). by eapply attr_section_Ok. Qed.

(** * The claims *)

(** ** Merging *)

(** A merge of separate dictionaries, name by name. *)
Lemma merge_section_dicts_cases st lower higher ld hd :
  separate st lower higher ld hd →
  ∃ st', merge_section_dicts lower higher st = Ok lower st'
    ∧ dict_store st' !! lower = Some (ld ++ added ld hd)
    ∧ (∀ n l h s o,
         Dict.get ld n = Some l → Dict.get hd n = Some h →
         section_store st !! l = Some s → section_store st !! h = Some o →
         section_of st' lower n = Some l
         ∧ ∃ s', section_store st' !! l = Some s'
                 ∧ name s' = name s ∧ defaults s' = defaults s
                 ∧ (∀ k v fb, Dict.get (contents o) k = Some v →
                              Dict.get (contents s') k = Some v
                              ∧ Section_get l k fb st' = Ok v st')
                 ∧ (∀ k, Dict.get (contents o) k = None →
                         Dict.get (contents s') k = Dict.get (contents s) k))
    ∧ (∀ n h, Dict.get ld n = None → Dict.get hd n = Some h →
              section_of st' lower n = Some h
              ∧ section_store st' !! h = section_store st !! h)
    ∧ (∀ n l, Dict.get ld n = Some l → Dict.get hd n = None →
              section_of st' lower n = Some l
              ∧ section_store st' !! l = section_store st !! l).
Proof.
  intros S. destruct (merge_section_dicts_result _ _ _ _ _ S) as (st' & Hrun & Q & R).
  destruct S as [Hd Hl Hh Wl Wh V ND CW].
  assert (Hl' : dict_store st' !! lower = Some (ld ++ added ld hd)).
  { rewrite (res_dicts _ _ _ _ _ _ R). apply list_lookup_insert_eq.
    by eapply lookup_lt_Some. }
  assert (Hsec : ∀ n, section_of st' lower n
                      = match Dict.get ld n with
                        | Some l => Some l
                        | None => Dict.get hd n
                        end).
  { intros n. unfold section_of. rewrite Hl'. simpl.
    rewrite get_app, get_added. destruct (Dict.get ld n) eqn:E; [done|].
    apply mem_false in E. by rewrite E. }
  apply NoDup_app in ND as (NDl & Hdis & NDh).
  exists st'. split; [done|]. split; [done|]. split; [|split].
  - intros n l h s o Hln Hhn Hs Ho. rewrite Hsec, Hln. split; [done|].
    exists (merged_section s o).
    assert (Hs' : section_store st' !! l = Some (merged_section s o)).
    { eapply (post_update _ _ _ _ _ _ Q); eauto. by eapply get_Some_keys. }
    split; [done|]. split; [done|]. split; [done|]. split.
    + intros k v fb Hk.
      assert (Hk' : Dict.get (contents (merged_section s o)) k = Some v).
      { simpl. rewrite get_update by (by eapply CW). by rewrite Hk. }
      split; [done|]. by eapply Section_get_own.
    + intros k Hk. simpl. rewrite get_update by (by eapply CW). by rewrite Hk.
  - intros n h Hln Hhn. rewrite Hsec, Hln. split; [done|].
    apply (res_frame _ _ _ _ _ _ R). intros Hin.
    apply (Hdis h Hin). by eapply get_Some_values.
  - intros n l Hln Hhn. rewrite Hsec, Hln. split; [done|].
    apply (post_frame _ _ _ _ _ _ Q). intros m Hm Hlm.
    assert (m = n) by (by apply (get_inj_values ld m n l)). subst.
    apply keys_get_Some in Hm as [? Hm]. congruence.
Qed.

(** The name that a dictionary gives for a section object is one under
    which it holds it. *)
Lemma name_in_Some (d : SectionDict) x n :
  wf d → name_in d x = Some n → Dict.get d n = Some x.
Proof.
  intros W. unfold name_in.
  destruct (List.find _ d) as [[m y]|] eqn:E; [|done]. intros [= <-].
  apply find_some in E as [Hin Hy]. apply bool_decide_eq_true in Hy.
  simpl in Hy. subst y. apply elem_get_Some; [done|]. by apply list_elem_of_In.
Qed.

Lemma name_in_None (d : SectionDict) x : name_in d x = None → x ∉ values d.
Proof.
  unfold name_in. destruct (List.find _ d) as [q|] eqn:E; [done|]. intros _ Hin.
  unfold values in Hin. apply list_elem_of_fmap in Hin as ([m y] & -> & Hin).
  apply list_elem_of_In in Hin.
  pose proof (find_none _ _ E _ Hin) as Hf. simpl in Hf.
  by apply bool_decide_eq_false in Hf.
Qed.

(** The merged dictionary holds, under a name, the section object of
    the lowest layer that has the name. *)
Lemma merged3_get dd ud pd cd n :
  Dict.get (merged3 dd ud pd cd) n
  = first_of [Dict.get dd n; Dict.get ud n; Dict.get pd n; Dict.get cd n].
Proof.
  unfold merged3. rewrite !get_app, !get_added. simpl.
  destruct (Dict.get dd n) as [l|] eqn:Ed; [done|].
  assert (M1 : Dict.mem dd n = false) by (by apply mem_false). rewrite M1.
  destruct (Dict.get ud n) as [l|] eqn:Eu; [done|].
  assert (G2 : Dict.get (dd ++ added dd ud) n = None)
    by (by rewrite get_app, get_added, Ed, M1, Eu).
  assert (M2 : Dict.mem (dd ++ added dd ud) n = false) by (by apply mem_false).
  rewrite M2.
  destruct (Dict.get pd n) as [l|] eqn:Ep; [done|].
  assert (M3 : Dict.mem ((dd ++ added dd ud) ++ added (dd ++ added dd ud) pd) n
               = false).
  { apply mem_false. by rewrite get_app, get_added, G2, M2, Ep. }
  rewrite M3. by destruct (Dict.get cd n).
Qed.

(** What a lookup in the merged dictionary finds. *)
Lemma merged_lookup st st' d u p c dd ud pd cd :
  layers_merged st st' d u p c dd ud pd cd →
  ∀ n k, set_at_all st' d n k
         = fold_lookup st [d; u; p; c] (merged3 dd ud pd cd) n k.
Proof.
  intros R n k.
  pose proof (lm_explicit _ _ _ _ _ _ _ _ _ _ R) as Hex.
  pose proof (lm_dict _ _ _ _ _ _ _ _ _ _ R) as Hd.
  assert (Hhigh : ∀ m, highest_explicit st [d; u; p; c] m k = explicit st' d m k).
  { intros m. by rewrite Hex. }
  unfold fold_lookup. rewrite Hhigh.
  unfold set_at_all. rewrite (explicit_unfold _ _ _ _ _ Hd).
  unfold section_of. rewrite Hd. simpl.
  destruct (Dict.get (merged3 dd ud pd cd) n) as [l|] eqn:Hn; [|done]. simpl.
  assert (Hvl : l < length (section_store st')).
  { apply (lm_valid _ _ _ _ _ _ _ _ _ _ R). by eapply get_Some_values. }
  destruct (lookup_lt_is_Some_2 _ _ Hvl) as [s' Hs'].
  unfold found. rewrite Hs'. simpl.
  destruct (Dict.get (contents s') k) as [v|]; [done|].
  pose proof (lm_defaults _ _ _ _ _ _ _ _ _ _ R l) as Hdef.
  rewrite Hs' in Hdef. simpl in Hdef.
  destruct (section_store st !! l) as [s|]; [|done]. simpl in *.
  injection Hdef as Hdef. rewrite Hdef.
  destruct (defaults s) as [t|]; [|done]. simpl.
  destruct (name_in (merged3 dd ud pd cd) t) as [m|] eqn:Hm.
  - apply name_in_Some in Hm; [|apply (lm_wf _ _ _ _ _ _ _ _ _ _ R)].
    rewrite Hhigh, (explicit_unfold _ _ _ _ _ Hd), Hm. done.
  - apply name_in_None in Hm.
    by rewrite (lm_untouched _ _ _ _ _ _ _ _ _ _ R t Hm).
Qed.

(** While no [defaults] reference is assigned, the three merges resolve
    every setting as the layers rank. *)
Lemma merged_resolution st st' d u p c dd ud pd cd :
  layers_merged st st' d u p c dd ud pd cd →
  no_defaults st →
  ∀ n k, set_at_all st' d n k = resolution st [d; u; p; c] n k.
Proof.
  intros R ND n k.
  assert (ND' : no_defaults st').
  { intros l s' Hs'. pose proof (lm_defaults _ _ _ _ _ _ _ _ _ _ R l) as E.
    rewrite Hs' in E. simpl in E.
    destruct (section_store st !! l) as [s|] eqn:Hs; [|done].
    simpl in E. injection E as ->. by eapply ND. }
  rewrite set_at_all_no_defaults by done.
  rewrite (lm_explicit _ _ _ _ _ _ _ _ _ _ R). unfold resolution. simpl.
  rewrite !set_at_all_no_defaults by done.
  destruct (explicit st c n k); [done|].
  destruct (explicit st p n k); [done|].
  destruct (explicit st u n k); [done|].
  by destruct (explicit st d n k).
Qed.

(** C1, as the code has it.  [merge_section_dicts(lower, higher)]
    returns [lower], mutated in place: under a name that both have,
    every setting that the section of [higher] holds itself replaces the
    one of [lower] (whatever a lookup in [lower] found before, its own
    setting or one of its [defaults]) and the other settings of [lower]
    stay; a name that only [higher] has is bound to the very section
    object of [higher].  Folding the four layers, defaults first, gives
    under every name the section object of the lowest layer that has
    the name, holding as its own, for every setting, the value of the
    highest layer that holds it explicitly.  The merge copies and
    changes no [defaults] reference; a lookup that finds no own setting
    reads the section that the merged section object referred to before,
    as it is after the merge ([fold_lookup]).  While no [defaults]
    reference is assigned, this is the value of the highest layer that
    holds the setting explicitly, else nothing. *)
Theorem merge_precedence
    st lower higher ld hd st4 d u p c dd ud pd cd :
  separate st lower higher ld hd →
  layered st4 d u p c dd ud pd cd →
  (∃ st', merge_section_dicts lower higher st = Ok lower st'
     ∧ dict_store st' !! lower = Some (ld ++ added ld hd)
     ∧ (∀ n l h s o,
          Dict.get ld n = Some l → Dict.get hd n = Some h →
          section_store st !! l = Some s → section_store st !! h = Some o →
          section_of st' lower n = Some l
          ∧ ∃ s', section_store st' !! l = Some s'
                  ∧ name s' = name s ∧ defaults s' = defaults s
                  ∧ (∀ k v fb, Dict.get (contents o) k = Some v →
                               Dict.get (contents s') k = Some v
                               ∧ Section_get l k fb st' = Ok v st')
                  ∧ (∀ k, Dict.get (contents o) k = None →
                          Dict.get (contents s') k = Dict.get (contents s) k))
     ∧ (∀ n h, Dict.get ld n = None → Dict.get hd n = Some h →
               section_of st' lower n = Some h
               ∧ section_store st' !! h = section_store st !! h)
     ∧ (∀ n l, Dict.get ld n = Some l → Dict.get hd n = None →
               section_of st' lower n = Some l
               ∧ section_store st' !! l = section_store st !! l))
  ∧ (∃ st', merge_layers st4 = Ok tt st'
       ∧ sections (self st') = Some d
       ∧ (∀ n, section_of st' d n
               = first_of [Dict.get dd n; Dict.get ud n;
                           Dict.get pd n; Dict.get cd n])
       ∧ (∀ n k, explicit st' d n k
                 = first_of [explicit st4 c n k; explicit st4 p n k;
                             explicit st4 u n k; explicit st4 d n k])
       ∧ (∀ x, defaults <$> section_store st' !! x
               = defaults <$> section_store st4 !! x)
       ∧ (∀ n k, set_at_all st' d n k
                 = fold_lookup st4 [d; u; p; c] (merged3 dd ud pd cd) n k)
       ∧ (no_defaults st4 →
          ∀ n k, set_at_all st' d n k = resolution st4 [d; u; p; c] n k
                 ∧ resolution st4 [d; u; p; c] n k
                   = highest_explicit st4 [d; u; p; c] n k)).
Proof.
  intros S L. split.
  - by apply merge_section_dicts_cases.
  - destruct (merge_layers_spec _ _ _ _ _ _ _ _ _ L) as (st' & Hrun & R).
    exists st'. split; [done|].
    split; [apply (lm_sections _ _ _ _ _ _ _ _ _ _ R)|].
    split.
    { intros n. unfold section_of.
      rewrite (lm_dict _ _ _ _ _ _ _ _ _ _ R). simpl. apply merged3_get. }
    split; [apply (lm_explicit _ _ _ _ _ _ _ _ _ _ R)|].
    split; [apply (lm_defaults _ _ _ _ _ _ _ _ _ _ R)|].
    split; [by apply merged_lookup|].
    intros ND n k. split; [by eapply merged_resolution|].
    unfold resolution, highest_explicit. simpl.
    rewrite !set_at_all_no_defaults by done.
    destruct (explicit st4 c n k); [done|].
    destruct (explicit st4 p n k); [done|].
    destruct (explicit st4 u n k); [done|].
    by destruct (explicit st4 d n k).
Qed.

(** Merging a dictionary of equal content changes nothing at all. *)
Lemma merge_loop_same_content lower higher ld hd st names :
  dict_store st !! lower = Some ld →
  dict_store st !! higher = Some hd →
  contents_wf st →
  same_content st ld hd →
  (∀ n, n ∈ names → is_Some (Dict.get hd n)) →
  merge_loop names lower higher st = Ok tt st.
Proof.
  intros Hl Hh CW [Hsame Hvalid]. induction names as [|n rest IH]; intros Hn; [done|].
  simpl. rewrite (bind_Ok _ _ _ _ _ (deref_dict_Ok _ _ _ Hl)).
  destruct (Hn n) as [h Hhn]; [left|].
  destruct (Hvalid n h Hhn) as [o Ho].
  pose proof (Hsame n) as E. rewrite Hhn in E. simpl in E. rewrite Ho in E.
  destruct (Dict.get ld n) as [l|] eqn:Hln; [|done]. simpl in E.
  assert (Hm : Dict.mem ld n = true) by (apply mem_true; eauto).
  rewrite Hm.
  assert (E1 : (l0 <- index ld n ;; hd0 <- deref_dict higher ;;
                h0 <- index hd0 n ;; Section_update l0 h0) st = Ok tt st).
  { rewrite (bind_Ok _ _ _ _ _ (index_Ok _ _ _ _ Hln)).
    rewrite (bind_Ok _ _ _ _ _ (deref_dict_Ok _ _ _ Hh)).
    rewrite (bind_Ok _ _ _ _ _ (index_Ok _ _ _ _ Hhn)).
    rewrite (Section_update_Ok l h o o) by done. f_equal.
    destruct st as [ss ds bs ls ev sf]. unfold set_section_store. simpl in *.
    f_equal. apply list_insert_id. rewrite <- E. f_equal.
    unfold merged_section, with_contents.
    rewrite update_idemp by (by eapply CW). by destruct o. }
  rewrite (bind_Ok _ _ _ _ _ E1). apply IH. intros m ?. apply Hn. by right.
Qed.

(** C6.  Merging a section dictionary with one of equal content (the
    same sections under the same names, be it the same dictionary or a
    copy) leaves the state as it was: every section and every setting
    has the value it had. *)
Theorem merge_idempotent st lower higher ld hd :
  dict_store st !! lower = Some ld →
  dict_store st !! higher = Some hd →
  contents_wf st →
  same_content st ld hd →
  merge_section_dicts lower higher st = Ok lower st.
Proof.
  intros Hl Hh CW Same. unfold merge_section_dicts.
  rewrite (bind_Ok _ _ _ _ _ (deref_dict_Ok _ _ _ Hh)).
  rewrite (bind_Ok _ _ st tt st); [done|].
  eapply merge_loop_same_content; eauto. intros n. apply keys_get_Some.
Qed.

Lemma merge_precedence_witness :
  separate Demo.linked 0 1
    [("default", 0); ("docs", 1)] [("default", 2)]
  ∧ layered Demo.linked 0 1 2 3
      [("default", 0); ("docs", 1)] [("default", 2)]
      [("default", 3); ("mysection", 4)] [("default", 5); ("mysection", 6)]
  ∧ (∃ st', merge_section_dicts 0 1 Demo.linked = Ok 0 st'
            ∧ dict_store st' !! 0 = Some [("default", 0); ("docs", 1)])
  ∧ (∃ st', merge_layers Demo.linked = Ok tt st'
            ∧ sections (self st') = Some 0
            ∧ section_of st' 0 "mysection" = Some 4
            ∧ set_at_all st' 0 "mysection" "files"
              = Some (mkSetting "files" "*.v")
            ∧ set_at_all st' 0 "mysection" "save"
              = Some (mkSetting "save" "backup.coafile")
            ∧ set_at_all st' 0 "docs" "log_level"
              = Some (mkSetting "log_level" "DEBUG")).
Proof.
  assert (CW : contents_wf Demo.linked)
    by (apply contents_wf_Forall; check).
  assert (S : separate Demo.linked 0 1
                [("default", 0); ("docs", 1)] [("default", 2)]).
  { split; try done; try check. apply valid_Forall. check. }
  assert (L : layered Demo.linked 0 1 2 3
                [("default", 0); ("docs", 1)] [("default", 2)]
                [("default", 3); ("mysection", 4)]
                [("default", 5); ("mysection", 6)]).
  { split; try done; try check. apply valid_Forall. check. }
  split; [done|]. split; [done|].
  destruct (merge_precedence _ _ _ _ _ _ _ _ _ _ _ _ _ _ S L)
    as [(st1 & H1 & H2 & _) (st2 & H3 & H4 & H5 & _ & _ & H6 & _)].
  split; [by exists st1|].
  exists st2. split; [done|]. split; [done|].
  split; [by rewrite H5|]. by rewrite !H6.
Defined.

(** C1, as stated, fails for the fold: in the sample, no layer sets
    [log_level] in [docs] itself; the system coafile, the lowest layer,
    sets it there through its [default] section, to INFO; and the lookup
    in the merged dictionary finds DEBUG, which the user's coafile has
    put into that [default] section. *)
Lemma fold_lowest_layer_counterexample : ¬ fold_resolves Demo.linked 0 1 2 3.
Proof.
  intros Claim.
  eassert (Run : merge_layers Demo.linked = Ok tt _) by (vm_compute; reflexivity).
  specialize (Claim _ Run "docs" "log_level").
  vm_compute in Claim. discriminate Claim.
Qed.

Lemma merge_idempotent_witness :
  same_content Demo.twice
    [("default", 0); ("mysection", 1)] [("default", 2); ("mysection", 3)]
  ∧ merge_section_dicts 0 1 Demo.twice = Ok 0 Demo.twice.
Proof.
  assert (Same : same_content Demo.twice
                   [("default", 0); ("mysection", 1)]
                   [("default", 2); ("mysection", 3)]).
  { split.
    - intros n. cbn [Dict.get].
      destruct (String.eqb "default" n); [done|].
      by destruct (String.eqb "mysection" n).
    - intros n h. cbn [Dict.get].
      destruct (String.eqb "default" n); [intros [= <-]; by eexists|].
      destruct (String.eqb "mysection" n); [intros [= <-]; by eexists|done]. }
  split; [done|].
  apply (merge_idempotent Demo.twice 0 1
           [("default", 0); ("mysection", 1)]
           [("default", 2); ("mysection", 3)]); try done.
  apply contents_wf_Forall. check.
Defined.

(** ** Loading *)

Section Loader.
Context {C : Collaborators}.

(** C2.  When the parser reports that the file does not exist,
    [load_config_file] returns a new section dictionary that holds
    exactly one section, named [default], which is a new section
    without settings; and it sends exactly one warning to the log
    printer if [silent] is false, and none if it is true. *)
Theorem load_config_file_missing filename p silent st st0 :
  ConfParser_reparse (abspath filename) st = Raise FileNotFoundError st0 →
  ∃ st' r l,
    load_config_file filename p silent st = Ok r st'
    ∧ dict_store st' !! r = Some [("default", l)]
    ∧ section_store st' !! l = Some (mkSection "default" [] None)
    ∧ r = length (dict_store st0)
    ∧ l = length (section_store st0)
    ∧ dict_store st' = dict_store st0 ++ [[("default", l)]]
    ∧ section_store st' = section_store st0 ++ [mkSection "default" [] None]
    ∧ events st'
      = events st0
        ++ (if silent then []
            else [EvLog p LOG_LEVEL_WARNING
                    (mkMessage coafile_missing (abspath filename))])
    ∧ self st' = self st0.
Proof.
  intros H. unfold load_config_file, try_except. rewrite H.
  destruct st0 as [ss ds bs ls ev sf].
  destruct silent; simpl;
    (eexists _, _, _; split; [reflexivity|]; simpl;
     repeat split; rewrite ?app_nil_r; try done;
     by apply list_lookup_middle).
Qed.

(** C7.  A failure of the parser other than the missing file is not
    caught by [load_config_file]: the call raises the same exception
    in the state the parser left, so nothing that follows the call
    runs.  Whichever of the three coafiles is at fault (the system
    coafile, the user's, or the project's, each read once the ones
    before it are), [_load_configuration] and [run] raise that
    exception too. *)
Theorem load_config_file_propagates filename p silent st e st0 :
  e ≠ FileNotFoundError →
  ConfParser_reparse (abspath filename) st = Raise e st0 →
  load_config_file filename p silent st = Raise e st0
  ∧ (∀ A (k : loc → M A),
       (r <- load_config_file filename p silent ;; k r) st = Raise e st0)
  ∧ (∀ args sta,
       filename = system_coafile →
       read_cli args sta = Ok tt st →
       log_printer (self st) = Some p →
       _load_configuration args sta = Raise e st0
       ∧ run args sta = Raise e st0)
  ∧ (∀ args sta sa q d sb,
       filename = user_coafile →
       read_cli args sta = Ok tt sa →
       log_printer (self sa) = Some q →
       load_config_file system_coafile q false sa = Ok d sb →
       st = set_self (set_default_sections d) sb →
       log_printer (self st) = Some p →
       _load_configuration args sta = Raise e st0
       ∧ run args sta = Raise e st0)
  ∧ (∀ args sta sa q d sb q' u sc,
       read_cli args sta = Ok tt sa →
       log_printer (self sa) = Some q →
       load_config_file system_coafile q false sa = Ok d sb →
       log_printer (self sb) = Some q' →
       load_config_file user_coafile q' true
         (set_self (set_default_sections d) sb) = Ok u sc →
       project_config (set_self (set_user_sections u) sc) = Ok filename st →
       log_printer (self st) = Some p →
       _load_configuration args sta = Raise e st0
       ∧ run args sta = Raise e st0).
Proof.
  intros Hne H.
  assert (L : ∀ q s, load_config_file filename q s st = Raise e st0).
  { intros q s. unfold load_config_file, try_except. rewrite H.
    by destruct e. }
  assert (Up : ∀ args sta sa,
            read_cli args sta = Ok tt sa →
            load_layers sa = Raise e st0 →
            _load_configuration args sta = Raise e st0
            ∧ run args sta = Raise e st0).
  { intros args sta sa Hcli Hl.
    assert (LC : _load_configuration args sta = Raise e st0).
    { unfold _load_configuration. rewrite (bind_Ok _ _ _ _ _ Hcli).
      by apply bind_Raise. }
    split; [done|]. unfold run. by apply bind_Raise. }
  split; [apply L|]. split; [|split; [|split]].
  - intros A k. apply bind_Raise. apply L.
  - intros args sta -> Hcli Hp. apply (Up args sta st Hcli).
    unfold load_layers. rewrite (bind_Ok _ _ _ _ _ (attr_Ok _ _ _ Hp)).
    apply bind_Raise. apply L.
  - intros args sta sa q d sb -> Hcli Hq Hd -> Hp. apply (Up args sta sa Hcli).
    unfold load_layers. rewrite (bind_Ok _ _ _ _ _ (attr_Ok _ _ _ Hq)).
    rewrite (bind_Ok _ _ _ _ _ Hd).
    rewrite (bind_Ok (modify (set_self (set_default_sections d))) _ sb tt _
               eq_refl).
    rewrite (bind_Ok _ _ _ _ _ (attr_Ok _ _ _ Hp)).
    apply bind_Raise. apply L.
  - intros args sta sa q d sb q' u sc Hcli Hq Hd Hq' Hu Hc Hp.
    apply (Up args sta sa Hcli).
    unfold load_layers. rewrite (bind_Ok _ _ _ _ _ (attr_Ok _ _ _ Hq)).
    rewrite (bind_Ok _ _ _ _ _ Hd).
    rewrite (bind_Ok (modify (set_self (set_default_sections d))) _ sb tt _
               eq_refl).
    rewrite (bind_Ok (attr log_printer) _ _ q' _
               (attr_Ok log_printer (set_self (set_default_sections d) sb)
                  q' Hq')).
    rewrite (bind_Ok _ _ _ _ _ Hu).
    rewrite (bind_Ok (modify (set_self (set_user_sections u))) _ sc tt _
               eq_refl).
    rewrite (bind_Ok _ _ _ _ _ Hc).
    rewrite (bind_Ok _ _ _ _ _ (attr_Ok _ _ _ Hp)).
    apply bind_Raise. apply L.
Qed.

End Loader.

Lemma load_config_file_missing_witness :
  Demo.reparse (Demo.absolute "/home/user/.coarc") initial_state
  = Raise FileNotFoundError initial_state
  ∧ ∃ st' r l,
      load_config_file (C := Demo.collaborators)
        "/home/user/.coarc" (ConsolePrinter 2%Z) true initial_state = Ok r st'
      ∧ dict_store st' !! r = Some [("default", l)]
      ∧ section_store st' !! l = Some (mkSection "default" [] None)
      ∧ events st' = [].
Proof.
  split; [reflexivity|].
  destruct (load_config_file_missing (C := Demo.collaborators)
              "/home/user/.coarc" (ConsolePrinter 2%Z) true
              initial_state initial_state eq_refl)
    as (st' & r & l & H1 & H2 & H3 & _ & _ & _ & _ & H4 & _).
  by exists st', r, l.
Defined.

Lemma load_config_file_propagates_witness :
  load_config_file (C := Demo.collaborators)
    "broken.coafile" (ConsolePrinter 2%Z) false initial_state
  = Raise (OtherError "ParsingError") initial_state
  ∧ (∃ st, run (C := Demo.collaborators_at "/work/broken.coafile")
             ["log_level=debug"] initial_state
           = Raise (OtherError "ParsingError") st)
  ∧ (∃ st, run (C := Demo.collaborators)
             ["config=broken.coafile"] initial_state
           = Raise (OtherError "ParsingError") st).
Proof.
  split; [|split].
  - by apply (load_config_file_propagates (C := Demo.collaborators)
                "broken.coafile" (ConsolePrinter 2%Z) false initial_state
                (OtherError "ParsingError") initial_state).
  - set (C := Demo.collaborators_at "/work/broken.coafile").
    eassert (H1 : read_cli (C := C) ["log_level=debug"] initial_state = Ok tt _)
      by (vm_compute; reflexivity).
    lazymatch type of H1 with
    | _ = Ok _ ?sa =>
        destruct (load_config_file_propagates (C := C)
                    "/work/broken.coafile" (ConsolePrinter 0%Z) false sa
                    (OtherError "ParsingError") sa)
          as (_ & _ & H & _); [done|reflexivity|]
    end.
    destruct (H _ _ eq_refl H1 eq_refl) as [_ Hrun]. by eexists.
  - set (C := Demo.collaborators).
    eassert (H1 : read_cli (C := C) ["config=broken.coafile"] initial_state
                  = Ok tt _) by (vm_compute; reflexivity).
    lazymatch type of H1 with
    | _ = Ok _ ?sa =>
        eassert (H2 : load_config_file (C := C) system_coafile
                        (ConsolePrinter 2%Z) false sa = Ok _ _)
          by (vm_compute; reflexivity)
    end.
    lazymatch type of H2 with
    | _ = Ok ?d ?sb =>
        eassert (H3 : load_config_file (C := C) user_coafile
                        (ConsolePrinter 2%Z) true
                        (set_self (set_default_sections d) sb) = Ok _ _)
          by (vm_compute; reflexivity)
    end.
    lazymatch type of H3 with
    | _ = Ok ?u ?sc =>
        eassert (H4 : project_config (C := C)
                        (set_self (set_user_sections u) sc)
                      = Ok "/work/broken.coafile" _)
          by (vm_compute; reflexivity)
    end.
    lazymatch type of H4 with
    | _ = Ok _ ?st =>
        destruct (load_config_file_propagates (C := C)
                    "/work/broken.coafile" (ConsolePrinter 2%Z) false st
                    (OtherError "ParsingError") st)
          as (_ & _ & _ & _ & H); [done|reflexivity|]
    end.
    destruct (H _ _ _ _ _ _ _ _ _ H1 eq_refl H2 eq_refl H3 H4 eq_refl)
      as [_ Hrun].
    by eexists.
Defined.

Section Paths.
Context {C : Collaborators}.

(** C10.  The path of the project's coafile is the [config] setting
    that a lookup finds in the [default] section of the command line,
    else the one of the user's coafile, else the one of the system
    coafile, else [.coafile]; made absolute.  It is the path that
    [load_layers] hands to [load_config_file]. *)
Theorem project_config_fallback st cl ul dl :
  default_of st cli_sections cl →
  default_of st user_sections ul →
  default_of st default_sections dl →
  project_config st
  = Ok (abspath (config_fallback (found st cl "config")
                                 (found st ul "config")
                                 (found st dl "config"))) st.
Proof.
  intros Hc Hu Hd. unfold project_config.
  rewrite (bind_Ok _ _ _ _ _ (attr_default_Ok _ _ _ Hd)).
  destruct Hd as (_ & _ & _ & _ & _ & Rd).
  rewrite (bind_Ok _ _ _ _ _ (Section_get_lookup _ _ _ _ Rd)).
  rewrite (bind_Ok _ _ _ _ _ (attr_default_Ok _ _ _ Hu)).
  destruct Hu as (_ & _ & _ & _ & _ & Ru).
  rewrite (bind_Ok _ _ _ _ _ (Section_get_lookup _ _ _ _ Ru)).
  rewrite (bind_Ok _ _ _ _ _ (attr_default_Ok _ _ _ Hc)).
  destruct Hc as (_ & _ & _ & _ & _ & Rc).
  rewrite (bind_Ok _ _ _ _ _ (Section_get_lookup _ _ _ _ Rc)).
  unfold ret, lookup, config_fallback. do 2 f_equal.
  destruct (found st cl "config"); [done|].
  destruct (found st ul "config"); [done|].
  by destruct (found st dl "config").
Qed.

(** C3.  [save_sections] looks up [save] in the [default] section.
    If it is a true boolean, the sections are written to the path that
    [config] holds ([.coafile] if absent); if it is a false boolean,
    nothing is written and nothing changes; if it is no boolean, the
    sections are written to the path that is the text of [save]
    itself.  (Each write supposes that the writer can be made.) *)
Theorem save_sections_cases st sections d l :
  dict_store st !! sections = Some d →
  Dict.get d "default" = Some l →
  readable st l →
  (Setting_bool (lookup st l "save" "false") = Some true →
   ConfWriter_error (str (lookup st l "config" ".coafile")) = None →
   save_sections sections st
   = Ok tt (set_events
              (λ t, t ++ written (str (lookup st l "config" ".coafile"))
                                 sections) st))
  ∧ (Setting_bool (lookup st l "save" "false") = Some false →
     save_sections sections st = Ok tt st)
  ∧ (∀ v, found st l "save" = Some v →
          Setting_bool v = None →
          ConfWriter_error (str v) = None →
          save_sections sections st
          = Ok tt (set_events (λ t, t ++ written (str v) sections) st)).
Proof.
  intros Hd Hl R.
  assert (Start : ∀ w,
            save_sections_writer l st = Ok w st →
            save_sections sections st
            = match w with
              | None => Ok tt st
              | Some w => Ok tt (set_events (λ t, t ++ written w sections) st)
              end).
  { intros w Hw. unfold save_sections.
    rewrite (bind_Ok _ _ _ _ _ (deref_dict_Ok _ _ _ Hd)).
    rewrite (bind_Ok _ _ _ _ _ (index_Ok _ _ _ _ Hl)).
    rewrite (bind_Ok _ _ _ _ _ Hw). destruct w; [|done].
    destruct st as [ss ds bs ls ev sf]. unfold written, emit, modify, bind.
    unfold set_events. simpl. by rewrite <- app_assoc. }
  split; [|split].
  - intros Hb Hw. apply (Start (Some _)).
    unfold save_sections_writer, try_except.
    rewrite (bind_Ok _ _ _ _ _ (Section_get_lookup _ _ _ _ R)).
    unfold to_bool. rewrite Hb. unfold bind at 1, ret at 1.
    rewrite (bind_Ok _ _ _ _ _ (Section_get_lookup _ _ _ _ R)).
    unfold ConfWriter. by rewrite Hw.
  - intros Hb. apply (Start None).
    unfold save_sections_writer, try_except.
    rewrite (bind_Ok _ _ _ _ _ (Section_get_lookup _ _ _ _ R)).
    unfold to_bool. by rewrite Hb.
  - intros v Hv Hb Hw. apply (Start (Some _)).
    unfold save_sections_writer, try_except.
    rewrite (bind_Ok _ _ _ _ _ (Section_get_lookup _ _ _ _ R)).
    unfold to_bool, lookup at 1. rewrite Hv. simpl. rewrite Hb.
    unfold bind at 1, raise at 1.
    rewrite (bind_Ok _ _ _ _ _ (Section_get_lookup _ _ _ _ R)).
    unfold lookup. rewrite Hv. simpl. unfold ConfWriter. by rewrite Hw.
Qed.

End Paths.

Lemma project_config_fallback_witness :
  default_of Demo.four_layers cli_sections 5
  ∧ default_of Demo.four_layers user_sections 2
  ∧ default_of Demo.four_layers default_sections 0
  ∧ project_config (C := Demo.collaborators) Demo.four_layers
    = Ok "/work/team.coafile" Demo.four_layers.
Proof.
  assert (R : ∀ l, l < 7 → readable Demo.four_layers l).
  { intros l Hl. do 7 (destruct l as [|l]; [by eexists|]). lia. }
  assert (Hc : default_of Demo.four_layers cli_sections 5).
  { eexists 3, _. repeat split; try done. apply R. lia. }
  assert (Hu : default_of Demo.four_layers user_sections 2).
  { eexists 1, _. repeat split; try done. apply R. lia. }
  assert (Hd : default_of Demo.four_layers default_sections 0).
  { eexists 0, _. repeat split; try done. apply R. lia. }
  split; [exact Hc|]. split; [exact Hu|]. split; [exact Hd|].
  by rewrite (project_config_fallback (C := Demo.collaborators) _ _ _ _ Hc Hu Hd).
Defined.

Lemma save_sections_cases_witness :
  readable Demo.four_layers 5
  ∧ save_sections (C := Demo.collaborators) 3 Demo.four_layers
    = Ok tt (set_events (λ t, t ++ written ".coafile" 3) Demo.four_layers)
  ∧ save_sections (C := Demo.collaborators) 0 Demo.four_layers
    = Ok tt Demo.four_layers
  ∧ save_sections (C := Demo.collaborators) 2 Demo.four_layers
    = Ok tt (set_events (λ t, t ++ written "backup.coafile" 2) Demo.four_layers).
Proof.
  assert (R : ∀ l, l < 7 → readable Demo.four_layers l).
  { intros l Hl. do 7 (destruct l as [|l]; [by eexists|]). lia. }
  split; [apply R; lia|]. split; [|split].
  - by apply (save_sections_cases (C := Demo.collaborators)
                Demo.four_layers 3 [("default", 5); ("mysection", 6)] 5
                eq_refl eq_refl (R 5 ltac:(lia))).
  - by apply (save_sections_cases (C := Demo.collaborators)
                Demo.four_layers 0 [("default", 0); ("docs", 1)] 0
                eq_refl eq_refl (R 0 ltac:(lia))).
  - destruct (save_sections_cases (C := Demo.collaborators)
                Demo.four_layers 2 [("default", 3); ("mysection", 4)] 3
                eq_refl eq_refl (R 3 ltac:(lia))) as (_ & _ & H).
    by apply (H (mkSetting "save" "backup.coafile")).
Defined.

(** ** Logging objects *)

Lemma upper_lower_ascii c : Str.upper_ascii (Str.lower_ascii c) = Str.upper_ascii c.
Proof. destruct c as [[] [] [] [] [] [] [] []]; reflexivity. Qed.

Lemma upper_lower_letters s :
  Str.upper_letters (Str.lower_letters s) = Str.upper_letters s.
Proof.
  induction s as [|c r IH]; [done|]. simpl. by rewrite upper_lower_ascii, IH.
Qed.

Lemma is_ascii_lower_letters s :
  Str.is_ascii s = true → Str.is_ascii (Str.lower_letters s) = true.
Proof.
  induction s as [|c r IH]; [done|]. simpl.
  intros [Hc Hr]%andb_prop. rewrite (IH Hr), andb_true_r.
  revert Hc. destruct c as [[] [] [] [] [] [] [] []]; done.
Qed.

(** On ASCII text, two names that differ in the case of their letters
    only have the same upper-case form. *)
Lemma upper_same_case {U : Str.Unicode} a b :
  Str.is_ascii a = true → Str.is_ascii b = true →
  Str.lower a = Str.lower b → Str.upper a = Str.upper b.
Proof.
  unfold Str.lower, Str.upper. intros Ha Hb. rewrite Ha, Hb. intros H.
  by rewrite <- (upper_lower_letters a), <- (upper_lower_letters b), H.
Qed.

Section Logging.
Context {C : Collaborators}.

Lemma close_previous_Ok st :
  close_previous st = Ok tt (set_events (λ t, t ++ closing st) st).
Proof.
  destruct st as [ss ds bs ls ev sf].
  unfold close_previous, closing, bind, get_state, emit, modify, ret,
    set_events. simpl.
  destruct (interactor sf) as [i|]; [destruct (closable_interactor i)|];
    (destruct (log_printer sf) as [p|]; [destruct (closable_printer p)|]);
    simpl; rewrite ?app_nil_r, <- ?app_assoc; reflexivity.
Qed.

Lemma select_log_printer_console lvl st :
  select_log_printer "console" lvl st
  = Ok tt (set_self (set_log_printer (ConsolePrinter lvl)) st).
Proof. done. Qed.

Lemma select_log_printer_none lvl st :
  select_log_printer "none" lvl st
  = Ok tt (set_self (set_log_printer NullPrinter) st).
Proof. done. Qed.

Lemma select_log_printer_file log_type lvl st :
  log_type ≠ "console" → log_type ≠ "none" →
  FilePrinter_error log_type = None →
  select_log_printer log_type lvl st
  = Ok tt (set_self (set_log_printer (FilePrinter log_type lvl)) st).
Proof.
  intros H1%String.eqb_neq H2%String.eqb_neq Hf.
  unfold select_log_printer, try_except, FilePrinter_new.
  rewrite H1, H2, Hf. reflexivity.
Qed.

Lemma select_log_printer_fallback log_type lvl st e :
  log_type ≠ "console" → log_type ≠ "none" →
  FilePrinter_error log_type = Some e →
  select_log_printer log_type lvl st
  = Ok tt (set_events (λ t, t ++ [fallback_warning log_type lvl])
             (set_self (set_log_printer (ConsolePrinter lvl)) st)).
Proof.
  intros H1%String.eqb_neq H2%String.eqb_neq Hf.
  unfold select_log_printer, try_except, FilePrinter_new.
  rewrite H1, H2, Hf. reflexivity.
Qed.

End Logging.

Section Selection.
Context {C : Collaborators}.

Lemma retrieve_logging_objects_after st section st2 p :
  readable st section →
  select_log_printer
    (Str.lower (str (lookup st section "log_type" "console")))
    (lookup_log_level (Str.upper (str (lookup st section "log_level" ""))))
    (set_events (λ t, t ++ closing st) st) = Ok tt st2 →
  log_printer (self st2) = Some p →
  ∃ i, retrieve_logging_objects section st
       = Ok tt (set_self (set_interactor i) st2).
Proof.
  intros R Hsel Hp. unfold retrieve_logging_objects.
  rewrite (bind_Ok _ _ _ _ _ (close_previous_Ok st)).
  set (st1 := set_events (λ t, t ++ closing st) st) in *.
  assert (R1 : readable st1 section) by exact R.
  rewrite (bind_Ok _ _ _ _ _ (Section_get_lookup _ _ _ _ R1)).
  rewrite (bind_Ok _ _ _ _ _ (Section_get_lookup _ _ _ _ R1)).
  rewrite (bind_Ok _ _ _ _ _ (Section_get_lookup _ _ _ _ R1)).
  change (lookup st1) with (lookup st).
  rewrite (bind_Ok _ _ _ _ _ Hsel).
  rewrite (bind_Ok _ _ _ _ _ (attr_Ok _ _ _ Hp)).
  destruct (String.eqb _ "none"); by eexists.
Qed.

Lemma lookup_log_level_get name :
  lookup_log_level name
  = default LOG_LEVEL_WARNING (Dict.get LOG_LEVEL_str_dict name).
Proof. unfold lookup_log_level. by destruct (Dict.get _ name). Qed.

(** C4.  [retrieve_logging_objects] chooses the log printer by the
    lower-cased [log_type] of the section: [console] gives a console
    printer, [none] a null printer, anything else a file printer at
    that path or, if that cannot be made, a console printer and
    exactly one warning that names the path.  The level of the
    printer is the one that the table of levels holds under the
    upper-cased [log_level], and WARNING when the table has no such
    name or the section has no [log_level]; so two names with the same
    upper-case form, as names of ASCII letters that differ in case
    only have, give the same level. *)
Theorem retrieve_logging_objects_selects st section :
  readable st section →
  let log_type := Str.lower (str (lookup st section "log_type" "console")) in
  let level_of := λ name : string,
    default LOG_LEVEL_WARNING (Dict.get LOG_LEVEL_str_dict (Str.upper name)) in
  let lvl := level_of (str (lookup st section "log_level" "")) in
  (∃ st', retrieve_logging_objects section st = Ok tt st'
     ∧ section_store st' = section_store st
     ∧ dict_store st' = dict_store st
     ∧ (log_type = "console" →
        log_printer (self st') = Some (ConsolePrinter lvl)
        ∧ events st' = events st ++ closing st)
     ∧ (log_type = "none" →
        log_printer (self st') = Some NullPrinter
        ∧ events st' = events st ++ closing st)
     ∧ (log_type ≠ "console" → log_type ≠ "none" →
        FilePrinter_error log_type = None →
        log_printer (self st') = Some (FilePrinter log_type lvl)
        ∧ events st' = events st ++ closing st)
     ∧ (log_type ≠ "console" → log_type ≠ "none" →
        is_Some (FilePrinter_error log_type) →
        log_printer (self st') = Some (ConsolePrinter lvl)
        ∧ events st'
          = events st ++ closing st ++ [fallback_warning log_type lvl]))
  ∧ (∀ name l, Dict.get LOG_LEVEL_str_dict (Str.upper name) = Some l →
               level_of name = l)
  ∧ (∀ name, Dict.get LOG_LEVEL_str_dict (Str.upper name) = None →
             level_of name = LOG_LEVEL_WARNING)
  ∧ (∀ a b, Str.upper a = Str.upper b → level_of a = level_of b)
  ∧ (∀ a b, Str.is_ascii a = true → Str.is_ascii b = true →
            Str.lower a = Str.lower b → level_of a = level_of b)
  ∧ (found st section "log_level" = None →
     lvl = default LOG_LEVEL_WARNING (Dict.get LOG_LEVEL_str_dict "")
     ∧ (Dict.get LOG_LEVEL_str_dict "" = None → lvl = LOG_LEVEL_WARNING)).
Proof.
  intros R log_type level_of lvl.
  assert (Hlvl : lookup_log_level
                   (Str.upper (str (lookup st section "log_level" ""))) = lvl)
    by apply lookup_log_level_get.
  split; [|split; [|split; [|split; [|split]]]].
  - set (st1 := set_events (λ t, t ++ closing st) st).
    destruct (decide (log_type = "console")) as [Ec|Nc];
      [|destruct (decide (log_type = "none")) as [En|Nn];
        [|destruct (FilePrinter_error log_type) as [e|] eqn:Ef]].
    + destruct (retrieve_logging_objects_after st section
                  (set_self (set_log_printer (ConsolePrinter lvl)) st1)
                  (ConsolePrinter lvl) R) as [i Hi]; [|done|].
      { rewrite Hlvl. fold log_type st1. rewrite Ec.
        apply select_log_printer_console. }
      eexists. split; [exact Hi|]. repeat split; try done.
      all: intros; congruence.
    + destruct (retrieve_logging_objects_after st section
                  (set_self (set_log_printer NullPrinter) st1)
                  NullPrinter R) as [i Hi]; [|done|].
      { rewrite Hlvl. fold log_type st1. rewrite En.
        apply select_log_printer_none. }
      eexists. split; [exact Hi|]. repeat split; try done.
      all: intros; congruence.
    + destruct (retrieve_logging_objects_after st section
                  (set_events (λ t, t ++ [fallback_warning log_type lvl])
                     (set_self (set_log_printer (ConsolePrinter lvl)) st1))
                  (ConsolePrinter lvl) R) as [i Hi]; [|done|].
      { rewrite Hlvl. fold log_type st1. by eapply select_log_printer_fallback. }
      eexists. split; [exact Hi|]. repeat split; try done.
      * simpl. by rewrite <- app_assoc.
    + destruct (retrieve_logging_objects_after st section
                  (set_self (set_log_printer (FilePrinter log_type lvl)) st1)
                  (FilePrinter log_type lvl) R) as [i Hi]; [|done|].
      { rewrite Hlvl. fold log_type st1. by apply select_log_printer_file. }
      eexists. split; [exact Hi|]. repeat split; try done.
      all: by intros _ _ [? ?].
  - intros name l H. unfold level_of. by rewrite H.
  - intros name H. unfold level_of. by rewrite H.
  - intros a b H. unfold level_of. by rewrite H.
  - intros a b Ha Hb H. unfold level_of. by rewrite (upper_same_case a b Ha Hb H).
  - intros Hf.
    assert (E : lvl = default LOG_LEVEL_WARNING (Dict.get LOG_LEVEL_str_dict ""))
      by (unfold lvl, level_of, lookup; rewrite Hf; reflexivity).
    split; [done|]. intros He. by rewrite E, He.
Qed.

End Selection.

Lemma retrieve_logging_objects_selects_witness :
  readable Demo.logging 0
  ∧ ∃ st', retrieve_logging_objects (C := Demo.collaborators) 0 Demo.logging
           = Ok tt st'
           ∧ log_printer (self st') = Some (ConsolePrinter 0%Z)
           ∧ events st'
             = [EvLog (ConsolePrinter 0%Z) 2%Z
                  (mkMessage logging_failed "/no/such/dir/file.log")].
Proof.
  assert (R : readable Demo.logging 0) by (by eexists).
  split; [done|].
  destruct (retrieve_logging_objects_selects (C := Demo.collaborators)
              Demo.logging 0 R)
    as [(st' & Hrun & _ & _ & _ & _ & _ & H) _].
  destruct H as [Hp He]; [done|done|by eexists|].
  exists st'. by rewrite Hrun, Hp, He.
Defined.

(** ** The wiring of the defaults *)

Section Wiring.
Context {C : Collaborators}.

Lemma wire_loop_spec r d dl names : ∀ st,
  sections (self st) = Some r →
  dict_store st !! r = Some d →
  Dict.get d "default" = Some dl →
  (∀ n, n ∈ names →
        ∃ l, Dict.get d n = Some l ∧ l < length (section_store st)) →
  ∃ st', for_each names wire_one st = Ok tt st'
    ∧ dict_store st' = dict_store st
    ∧ self st' = self st
    ∧ events st' = events st
    ∧ bear_store st' = bear_store st
    ∧ list_store st' = list_store st
    ∧ length (section_store st') = length (section_store st)
    ∧ ∀ x, section_store st' !! x
           = (λ s, if wired d names x then with_defaults s (Some dl) else s)
               <$> section_store st !! x.
Proof.
  induction names as [|n rest IH]; intros st Hs Hd Hdl Hn.
  - exists st. repeat split; try done. intros x. simpl.
    by destruct (section_store st !! x).
  - simpl. unfold wire_one at 1.
    destruct (String.eqb n "default") eqn:En; simpl.
    + destruct (IH st) as (st' & Hrun & H); try done.
      { intros m ?. apply Hn. by right. }
      exists st'. split; [by rewrite (bind_Ok _ _ st tt st)|]. exact H.
    + destruct (Hn n) as (l & Hl & Hv); [left|].
      destruct (lookup_lt_is_Some_2 _ _ Hv) as [s Hsl].
      set (st1 := set_section_store
                    (λ h, <[l := with_defaults s (Some dl)]> h) st).
      assert (E1 : set_defaults n st = Ok tt st1).
      { unfold set_defaults.
        rewrite (bind_Ok _ _ _ _ _ (attr_section_Ok _ _ _ _ _ _ Hs Hd Hdl)).
        rewrite (bind_Ok _ _ _ _ _ (attr_section_Ok _ _ _ _ _ _ Hs Hd Hl)).
        rewrite (bind_Ok _ _ _ _ _ (deref_section_Ok _ _ _ Hsl)).
        by apply assign_section_Ok. }
      destruct (IH st1) as (st' & Hrun & H1 & H2 & H3 & H4 & H5 & H6 & H7);
        try done.
      { intros m Hm. destruct (Hn m) as (lm & ? & ?); [by right|].
        exists lm. split; [done|]. simpl. by rewrite length_insert. }
      exists st'. split; [by rewrite (bind_Ok _ _ _ _ _ E1)|].
      repeat split; try done.
      * by rewrite H6; simpl; rewrite length_insert.
      * intros x. rewrite H7. simpl.
        destruct (decide (l = x)) as [<-|Nx].
        -- rewrite list_lookup_insert_eq by done. rewrite Hsl. simpl.
           rewrite bool_decide_eq_true_2 by done. simpl.
           by destruct (wired d rest l).
        -- rewrite list_lookup_insert_ne by done.
           rewrite bool_decide_eq_false_2; [done|].
           intros E. rewrite Hl in E. by injection E.
Qed.

Lemma wired_false d names dl :
  NoDup (values d) →
  Dict.get d "default" = Some dl →
  wired d names dl = false.
Proof.
  intros ND Hdl. unfold wired. induction names as [|n rest IH]; [done|].
  simpl. rewrite IH, orb_false_r.
  destruct (String.eqb n "default") eqn:En; [done|]. simpl.
  apply bool_decide_eq_false_2. intros Hn.
  apply String.eqb_neq in En. apply En.
  by apply (get_inj_values d n "default" dl).
Qed.

Lemma wired_true d names n x :
  n ∈ names → n ≠ "default" → Dict.get d n = Some x → wired d names x = true.
Proof.
  intros Hin Hne Hn. unfold wired. apply existsb_exists. exists n.
  split; [by apply list_elem_of_In|].
  apply String.eqb_neq in Hne. rewrite Hne. simpl.
  by apply bool_decide_eq_true_2.
Qed.

(** C5.  The three merges assign no [defaults] reference.  The loop
    that follows them gives every section of the merged dictionary
    whose name is not [default] the [default] section as its defaults,
    and leaves the defaults of the [default] section as they were, so
    that it does not come to refer to itself.  With the layers read,
    this is how [_load_configuration] ends. *)
Theorem defaults_wired_after_merge
    args st0 st d u p c dd ud pd cd dl :
  (read_cli args ;;; load_layers) st0 = Ok tt st →
  layered st d u p c dd ud pd cd →
  Dict.get dd "default" = Some dl →
  ∃ st1 st',
    merge_layers st = Ok tt st1
    ∧ (∀ x, defaults <$> section_store st1 !! x
            = defaults <$> section_store st !! x)
    ∧ wire_defaults st1 = Ok tt st'
    ∧ _load_configuration args st0 = Ok tt st'
    ∧ sections (self st') = Some d
    ∧ (∀ n, section_of st' d n = Dict.get (merged3 dd ud pd cd) n)
    ∧ section_of st' d "default" = Some dl
    ∧ (∀ n l, section_of st' d n = Some l → n ≠ "default" →
              defaults <$> section_store st' !! l = Some (Some dl))
    ∧ defaults <$> section_store st' !! dl
      = defaults <$> section_store st !! dl
    ∧ (∀ x, contents <$> section_store st' !! x
            = contents <$> section_store st1 !! x).
Proof.
  intros Hload L Hdl.
  destruct (merge_layers_spec _ _ _ _ _ _ _ _ _ L) as (st1 & Hm & R).
  destruct R as [Rs Rself Rd Rds Rlen Rfr _ Rex Rdef Rname Rcw Rwf Rnd Rv _ _ _].
  set (md := merged3 dd ud pd cd) in *.
  assert (Hmd : Dict.get md "default" = Some dl).
  { unfold md, merged3. by rewrite !get_app, Hdl. }
  destruct (wire_loop_spec d md dl (keys md) st1)
    as (st' & Hw & H1 & H2 & H3 & H4 & H5 & H6 & H7); try done.
  { intros n [l Hl]%keys_get_Some. exists l. split; [done|].
    apply Rv. by eapply get_Some_values. }
  assert (Hwire : wire_defaults st1 = Ok tt st').
  { unfold wire_defaults.
    rewrite (bind_Ok _ _ _ _ _ (attr_Ok _ _ _ Rs)).
    rewrite (bind_Ok _ _ _ _ _ (deref_dict_Ok _ _ _ Rd)). exact Hw. }
  assert (Hsec : ∀ n, section_of st' d n = Dict.get md n).
  { intros n. unfold section_of. by rewrite H1, Rd. }
  exists st1, st'. repeat split; try done.
  - unfold _load_configuration.
    unfold bind at 1. unfold bind at 1 in Hload.
    destruct (read_cli args st0) as [[] sta| |]; [|done|done].
    rewrite (bind_Ok _ _ _ _ _ Hload). by rewrite (bind_Ok _ _ _ _ _ Hm).
  - by rewrite H2.
  - by rewrite Hsec.
  - intros n l Hl Hne. rewrite Hsec in Hl. rewrite H7.
    rewrite (wired_true md (keys md) n l); [|by eapply get_Some_keys|done..].
    assert (Hv : l < length (section_store st1)).
    { apply Rv. by eapply get_Some_values. }
    destruct (lookup_lt_is_Some_2 _ _ Hv) as [s ->]. done.
  - rewrite H7, (wired_false md (keys md) dl) by done. rewrite <- Rdef.
    by destruct (section_store st1 !! dl).
  - intros x. rewrite H7. destruct (section_store st1 !! x); [|done].
    simpl. by destruct (wired md (keys md) x).
Qed.

End Wiring.

Lemma defaults_wired_after_merge_witness :
  layered Demo.loaded 1 2 3 0
    [("default", 1)] [("default", 2)]
    [("default", 3); ("mysection", 4)] [("default", 0)]
  ∧ ∃ st', _load_configuration (C := Demo.collaborators)
             ["targets=Docs,MySection"; "save=backup.coafile"] initial_state
           = Ok tt st'
           ∧ section_of st' 1 "default" = Some 1
           ∧ defaults <$> section_store st' !! 4 = Some (Some 1)
           ∧ defaults <$> section_store st' !! 1 = Some None.
Proof.
  assert (L : layered Demo.loaded 1 2 3 0
                [("default", 1)] [("default", 2)]
                [("default", 3); ("mysection", 4)] [("default", 0)]).
  { split; try done; try check.
    - apply valid_Forall. check.
    - apply contents_wf_Forall. check. }
  split; [done|].
  destruct (defaults_wired_after_merge (C := Demo.collaborators)
              ["targets=Docs,MySection"; "save=backup.coafile"]
              initial_state Demo.loaded 1 2 3 0 _ _ _ _ 1 eq_refl L eq_refl)
    as (st1 & st' & _ & _ & _ & Hrun & _ & Hsec & Hd & Hw & Hdl & _).
  exists st'. split; [done|]. split; [done|]. split; [|by rewrite Hdl].
  apply (Hw "mysection"); [|done]. by rewrite Hsec.
Defined.
(** ** Appending the targets *)
(** ** Targets *)

Section Targets.
Context {C : Collaborators}.

Lemma append_targets (f : string → string) items : ∀ st,
  for_each items
    (λ item, modify (set_self (set_targets (λ ts, ts ++ [f item])))) st
  = Ok tt (set_self (set_targets (λ ts, ts ++ map f items)) st).
Proof.
  induction items as [|i r IH]; intros st.
  - destruct st as [ss ds bs ls ev []]. unfold set_self, set_targets. simpl.
    by rewrite app_nil_r.
  - simpl. rewrite (bind_Ok (modify _) _ st tt _ eq_refl). rewrite IH.
    destruct st as [ss ds bs ls ev []]. unfold set_self, set_targets. simpl.
    by rewrite <- app_assoc.
Qed.

End Targets.

(** ** The combined list of plugins *)

Lemma deref_bear_Ok l st b :
  bear_store st !! l = Some b → deref_bear l st = Ok b st.
Proof. unfold deref_bear, bind, get_state, of_option. by intros ->. Qed.

Lemma deref_list_Ok l st xs :
  list_store st !! l = Some xs → deref_list l st = Ok xs st.
Proof. unfold deref_list, bind, get_state, of_option. by intros ->. Qed.

(** Copying the items of a list appends the copies to the store of
    descriptors and touches nothing else. *)
Lemma deepcopy_items_spec old items : ∀ memo st new,
  bear_store st = old ++ new →
  (∀ x, x ∈ items → x < length old) →
  (∀ a b, memo_find memo a = Some b →
          a < length old ∧ (length old ≤ b)%nat ∧ (old ++ new) !! b = old !! a) →
  ∃ copies ext,
    deepcopy_items items memo st
    = Ok copies (set_bear_store (λ _, old ++ new ++ ext) st)
    ∧ Forall2 (λ x y, (length old ≤ y)%nat ∧ (old ++ new ++ ext) !! y = old !! x)
              items copies.
Proof.
  induction items as [|x r IH]; intros memo st new Hst Hv Hmemo.
  - exists [], []. split; [|constructor].
    destruct st as [ss ds bs ls ev sf]. simpl in *. subst bs.
    unfold set_bear_store. simpl. by rewrite app_nil_r.
  - assert (Hx : x < length old) by (apply Hv; left).
    destruct (lookup_lt_is_Some_2 _ _ Hx) as [b Hb].
    simpl. destruct (memo_find memo x) as [y|] eqn:Hm.
    + destruct (Hmemo x y Hm) as (_ & Hy1 & Hy2).
      destruct (IH memo st new Hst) as (copies & ext & Hrun & F); [|done|].
      { intros z ?. apply Hv. by right. }
      exists (y :: copies), ext. split; [by rewrite (bind_Ok _ _ _ _ _ Hrun)|].
      constructor; [|done]. split; [done|].
      rewrite app_assoc, Hb. apply lookup_app_l_Some. by rewrite Hy2.
    + assert (Hd : deref_bear x st = Ok b st).
      { apply deref_bear_Ok. rewrite Hst. by apply lookup_app_l_Some. }
      rewrite (bind_Ok _ _ _ _ _ Hd).
      set (y := length (bear_store st)).
      set (st1 := set_bear_store (λ h, h ++ [b]) st).
      rewrite (bind_Ok _ _ st y st1) by done.
      destruct (IH ((x, y) :: memo) st1 (new ++ [b])) as (copies & ext & Hrun & F).
      { simpl. by rewrite Hst, <- app_assoc. }
      { intros z ?. apply Hv. by right. }
      { intros a c. simpl. destruct (Nat.eqb x a) eqn:E.
        - apply Nat.eqb_eq in E as <-. intros [= <-]. split; [done|].
          unfold y. rewrite Hst. split; [rewrite length_app; lia|].
          rewrite app_assoc, Hb. by apply list_lookup_middle.
        - intros Ha. destruct (Hmemo a c Ha) as (H1 & H2 & H3).
          split; [done|]. split; [done|].
          destruct (lookup_lt_is_Some_2 _ _ H1) as [? Hold].
          rewrite app_assoc, Hold. apply lookup_app_l_Some.
          by rewrite H3. }
      exists (y :: copies), ([b] ++ ext).
      rewrite (bind_Ok _ _ _ _ _ Hrun). split.
      * unfold ret. f_equal. destruct st as [ss ds bs ls ev sf].
        unfold set_bear_store. simpl. by rewrite <- !app_assoc.
      * constructor.
        -- unfold y. rewrite Hst. split; [rewrite length_app; lia|].
           rewrite Hb, (app_assoc old new). by apply list_lookup_middle.
        -- eapply Forall2_impl; [exact F|]. intros a c [? Hc]. split; [done|].
           by rewrite <- Hc, <- !app_assoc.
Qed.

(** C9, as the code has it.  [combine_bears] makes a new list.  It
    begins with new copies of the descriptors of the local list, each
    equal in value to the one it copies and stored where no descriptor
    was before, so that assigning to a copy changes no stored
    descriptor; it ends with the very descriptors of the global list.
    The local and the global list, and the descriptors in them, are as
    they were. *)
Theorem combine_bears_copies_local st local global ls gs :
  list_store st !! local = Some ls →
  list_store st !! global = Some gs →
  (∀ x, x ∈ ls → x < length (bear_store st)) →
  ∃ st' copies new,
    combine_bears local global st = Ok (length (list_store st)) st'
    ∧ list_store st' = list_store st ++ [copies ++ gs]
    ∧ bear_store st' = bear_store st ++ new
    ∧ Forall2 (λ x y, (length (bear_store st) ≤ y)%nat
                      ∧ bear_store st' !! y = bear_store st !! x) ls copies
    ∧ drop (length ls) (copies ++ gs) = gs
    ∧ (∀ y b x, y ∈ copies → x < length (bear_store st) →
                <[y := b]> (bear_store st') !! x = bear_store st !! x)
    ∧ section_store st' = section_store st
    ∧ dict_store st' = dict_store st
    ∧ events st' = events st
    ∧ self st' = self st.
Proof.
  intros Hl Hg Hv.
  destruct (deepcopy_items_spec (bear_store st) ls [] st []) as (copies & ext & Hrun & F).
  { by rewrite app_nil_r. }
  { done. }
  { intros a b. simpl. done. }
  simpl in Hrun, F.
  set (st1 := set_bear_store (λ _, bear_store st ++ ext) st) in *.
  set (all := length (list_store st)).
  set (st2 := set_list_store (λ h, h ++ [copies]) st1).
  set (st3 := set_list_store (λ h, <[all := copies ++ gs]> h) st2).
  assert (Hdeep : deepcopy local st = Ok all st2).
  { unfold deepcopy. rewrite (bind_Ok _ _ _ _ _ (deref_list_Ok _ _ _ Hl)).
    by rewrite (bind_Ok _ _ _ _ _ Hrun). }
  assert (Hext : list_extend all global st2 = Ok tt st3).
  { unfold list_extend.
    rewrite (bind_Ok _ _ st2 copies st2).
    2:{ apply deref_list_Ok. simpl. by apply list_lookup_middle. }
    rewrite (bind_Ok _ _ st2 gs st2).
    2:{ apply deref_list_Ok. simpl. by apply lookup_app_l_Some. }
    unfold assign_list, bind, get_state. rewrite decide_True; [done|].
    simpl. rewrite length_app. simpl. unfold all. lia. }
  exists st3, copies, ext. split.
  { unfold combine_bears. rewrite (bind_Ok _ _ _ _ _ Hdeep).
    by rewrite (bind_Ok _ _ _ _ _ Hext). }
  pose proof (Forall2_length _ _ _ F) as Hlen.
  repeat split; try done.
  - simpl. unfold all.
    rewrite (insert_app_r_alt _ _ (length (list_store st))) by lia.
    by rewrite Nat.sub_diag.
  - rewrite Hlen. apply drop_app_length.
  - intros y b x Hy Hx. simpl.
    apply list_elem_of_lookup in Hy as [i Hi].
    destruct (Forall2_lookup_r _ _ _ _ _ F Hi) as (x0 & _ & Hge & _).
    rewrite list_lookup_insert_ne by lia. by apply lookup_app_l.
Qed.

Lemma combine_bears_copies_local_witness :
  (∀ x, x ∈ [0] → x < length (bear_store Demo.discovered))
  ∧ ∃ st' copies,
      combine_bears 0 1 Demo.discovered = Ok 2 st'
      ∧ list_store st' = [[0]; [1]; copies ++ [1]]
      ∧ length copies = 1.
Proof.
  assert (Hv : ∀ x, x ∈ [0] → x < length (bear_store Demo.discovered)).
  { intros x ->%list_elem_of_singleton. simpl. lia. }
  split; [done|].
  destruct (combine_bears_copies_local Demo.discovered 0 1 [0] [1]
              eq_refl eq_refl Hv)
    as (st' & copies & new & Hrun & Hls & Hbs & F & _).
  exists st', copies. split; [done|]. split; [done|].
  symmetry. exact (Forall2_length _ _ _ F).
Defined.

(** C9, as stated, fails: in the combined list of the sample, the second
    descriptor is the stored global descriptor itself, and assigning to
    it changes what the global list holds. *)
Lemma combined_aliases_global_counterexample :
  ¬ combined_unaliased Demo.discovered 0 1.
Proof.
  intros Claim.
  destruct (Claim _ 2 [2; 1] [0] [1] 1 1
              (mkDescriptor "Changed" GLOBAL [])
              eq_refl eq_refl eq_refl eq_refl) as [Hne _].
  - right. left.
  - right. left.
  - done.
Qed.

(** * Further properties *)

(** ** Computations that only log *)

Lemma bind_Ok_inv {A B} (m : M A) (k : A → M B) st b st' :
  bind m k st = Ok b st' → ∃ a st1, m st = Ok a st1 ∧ k a st1 = Ok b st'.
Proof.
  unfold bind. destruct (m st) as [a st1| |]; [|done|done]. by exists a, st1.
Qed.

Lemma logs_only_refl st : logs_only st st.
Proof.
  exists []. destruct st as [ss ds bs ls ev sf]. unfold set_events. simpl.
  by rewrite app_nil_r.
Qed.

Lemma logs_only_trans st1 st2 st3 :
  logs_only st1 st2 → logs_only st2 st3 → logs_only st1 st3.
Proof.
  intros [e1 ->] [e2 ->]. exists (e1 ++ e2).
  destruct st1 as [ss ds bs ls ev sf]. unfold set_events. simpl.
  by rewrite app_assoc.
Qed.

Lemma only_logs_ret {A} (a : A) : only_logs (ret a).
Proof. intros st. apply logs_only_refl. Qed.

Lemma only_logs_raise {A} e : only_logs (raise (A := A) e).
Proof. intros st. apply logs_only_refl. Qed.

Lemma only_logs_emit ev : only_logs (emit ev).
Proof. intros st. by exists [ev]. Qed.

Lemma only_logs_of_option {A} (o : option A) : only_logs (of_option o).
Proof. destruct o; [apply only_logs_ret | by intros st]. Qed.

Lemma only_logs_bind {A B} (m : M A) (k : A → M B) :
  only_logs m → (∀ a, only_logs (k a)) → only_logs (bind m k).
Proof.
  intros Hm Hk st. unfold bind. specialize (Hm st).
  destruct (m st) as [a st1|e st1|]; [|done|done].
  specialize (Hk a st1). destruct (k a st1); try done;
    by eapply logs_only_trans.
Qed.

Lemma only_logs_try_except {A} (m : M A) handler :
  only_logs m →
  (∀ e h, handler e = Some h → only_logs h) →
  only_logs (try_except m handler).
Proof.
  intros Hm Hh st. unfold try_except. specialize (Hm st).
  destruct (m st) as [a st1|e st1|]; [done| |done].
  destruct (handler e) as [h|] eqn:E; [|done].
  specialize (Hh e h E st1). destruct (h st1); try done;
    by eapply logs_only_trans.
Qed.

Lemma only_logs_deref_section l : only_logs (deref_section l).
Proof.
  apply only_logs_bind; [intros st; apply logs_only_refl|].
  intros a. apply only_logs_of_option.
Qed.

Lemma only_logs_deref_dict r : only_logs (deref_dict r).
Proof.
  apply only_logs_bind; [intros st; apply logs_only_refl|].
  intros a. apply only_logs_of_option.
Qed.

Lemma only_logs_attr {A} (field : Manager → option A) : only_logs (attr field).
Proof.
  apply only_logs_bind; [intros st; apply logs_only_refl|].
  intros a. apply only_logs_of_option.
Qed.

Lemma only_logs_index {V} (d : Dict.t V) k : only_logs (index d k).
Proof. unfold index. destruct (Dict.get d k); [apply only_logs_ret|apply only_logs_raise]. Qed.

Lemma only_logs_Section_get l k fb : only_logs (Section_get l k fb).
Proof.
  apply only_logs_bind; [apply only_logs_deref_section|]. intros s.
  destruct (Dict.get (contents s) k); [apply only_logs_ret|].
  destruct (defaults s); [|apply only_logs_ret].
  apply only_logs_bind; [apply only_logs_deref_section|]. intros ds.
  destruct (Dict.get (contents ds) k); apply only_logs_ret.
Qed.

Lemma only_logs_for_each {A} (xs : list A) body :
  (∀ x, only_logs (body x)) → only_logs (for_each xs body).
Proof.
  intros H. induction xs as [|x r IH]; [apply only_logs_ret|].
  simpl. by apply only_logs_bind.
Qed.

Lemma logs_only_self st st' : logs_only st st' → self st' = self st.
Proof. by intros [evs ->]. Qed.

Lemma logs_only_stores st st' :
  logs_only st st' →
  section_store st' = section_store st ∧ dict_store st' = dict_store st
  ∧ bear_store st' = bear_store st ∧ list_store st' = list_store st.
Proof. by intros [evs ->]. Qed.

(** ** Warnings about targets *)

Section TargetsWarned.
Context {C : Collaborators}.

(** X1.  [warn_nonexistent_targets] sends one warning for every
    target that names no section of the dictionary, in the order of
    the targets and once per occurrence, each naming its target; it
    does nothing else. *)
Theorem warn_nonexistent_targets_events targets sections p st d :
  dict_store st !! sections = Some d →
  warn_nonexistent_targets targets sections p st
  = Ok tt (set_events
             (λ t, t ++ map (λ x, EvLog p LOG_LEVEL_WARNING
                                    (mkMessage section_missing x))
                            (missing_targets d targets)) st).
Proof.
  intros Hd. unfold warn_nonexistent_targets, missing_targets.
  revert st Hd. induction targets as [|x r IH]; intros st Hd.
  - destruct st as [ss ds bs ls ev sf]. unfold set_events. simpl.
    by rewrite app_nil_r.
  - simpl. rewrite filter_cons.
    destruct (Dict.mem d x) eqn:E.
    + rewrite decide_False by done.
      rewrite (bind_Ok _ _ st tt st).
      2:{ rewrite (bind_Ok _ _ _ _ _ (deref_dict_Ok _ _ _ Hd)). by rewrite E. }
      by apply IH.
    + rewrite decide_True by done.
      set (st1 := set_events
                    (λ t, t ++ [EvLog p LOG_LEVEL_WARNING
                                  (mkMessage section_missing x)]) st).
      rewrite (bind_Ok _ _ st tt st1).
      2:{ rewrite (bind_Ok _ _ _ _ _ (deref_dict_Ok _ _ _ Hd)). by rewrite E. }
      rewrite (IH st1) by done.
      destruct st as [ss ds bs ls ev sf]. unfold set_events. simpl.
      by rewrite <- app_assoc.
Qed.

End TargetsWarned.

Lemma warn_nonexistent_targets_events_witness :
  warn_nonexistent_targets (C := Demo.collaborators)
    ["docs"; "nowhere"; "default"; "nowhere"] 0 NullPrinter Demo.four_layers
  = Ok tt (set_events
             (λ t, t ++ [EvLog NullPrinter 2%Z (mkMessage section_missing "nowhere");
                         EvLog NullPrinter 2%Z (mkMessage section_missing "nowhere")])
             Demo.four_layers).
Proof.
  by rewrite (warn_nonexistent_targets_events (C := Demo.collaborators)
                _ 0 NullPrinter Demo.four_layers
                [("default", 0); ("docs", 1)] eq_refl).
Defined.

(** ** Saving *)

Section Saving.
Context {C : Collaborators}.

Lemma only_logs_save_sections sections : only_logs (save_sections sections).
Proof.
  apply only_logs_bind; [apply only_logs_deref_dict|]. intros d.
  apply only_logs_bind; [apply only_logs_index|]. intros l.
  apply only_logs_bind.
  - apply only_logs_try_except.
    + apply only_logs_bind; [apply only_logs_Section_get|]. intros save.
      apply only_logs_bind.
      { unfold to_bool. destruct (Setting_bool save);
          [apply only_logs_ret|apply only_logs_raise]. }
      intros [|]; [|apply only_logs_ret].
      apply only_logs_bind; [apply only_logs_Section_get|]. intros cfg.
      apply only_logs_bind; [|intros; apply only_logs_ret].
      unfold ConfWriter. destruct (ConfWriter_error (str cfg));
        [apply only_logs_raise|apply only_logs_ret].
    + intros e h. destruct e; try done. intros [= <-].
      apply only_logs_bind; [apply only_logs_Section_get|]. intros save.
      apply only_logs_bind; [|intros; apply only_logs_ret].
      unfold ConfWriter. destruct (ConfWriter_error (str save));
        [apply only_logs_raise|apply only_logs_ret].
  - intros [w|]; [|apply only_logs_ret].
    apply only_logs_bind; [apply only_logs_emit|]. intros _.
    apply only_logs_emit.
Qed.

(** X2.  However [save_sections] ends, by returning or by raising, it
    has changed no section, no section dictionary and no attribute of
    the manager: all it does to the state is to add events to the
    trace. *)
Theorem save_sections_changes_nothing sections st :
  match save_sections sections st with
  | Ok _ st' | Raise _ st' =>
      section_store st' = section_store st
      ∧ dict_store st' = dict_store st
      ∧ self st' = self st
      ∧ ∃ evs, events st' = events st ++ evs
  | Stuck => True
  end.
Proof.
  pose proof (only_logs_save_sections sections st) as H.
  destruct (save_sections sections st) as [a st'|e st'|]; [| |done];
    destruct H as [evs ->]; repeat split; by exists evs.
Qed.

(** X3.  Without a [default] section there is nothing to save:
    [save_sections] raises [KeyError] for [default] and writes
    nothing. *)
Theorem save_sections_without_default sections st d :
  dict_store st !! sections = Some d →
  Dict.get d "default" = None →
  save_sections sections st = Raise (KeyError "default") st.
Proof.
  intros Hd Hn. unfold save_sections.
  rewrite (bind_Ok _ _ _ _ _ (deref_dict_Ok _ _ _ Hd)).
  apply bind_Raise. by apply index_Raise.
Qed.

(** X4.  The handler of [save_sections] catches a [ValueError] of the
    writer's constructor as well: when [save] is a true boolean and
    the writer for the [config] path raises [ValueError], the sections
    are written to the path that is the text of [save]; any other
    exception of that constructor leaves [save_sections] as it is and
    nothing is written. *)
Theorem save_sections_writer_failure st sections d l e :
  dict_store st !! sections = Some d →
  Dict.get d "default" = Some l →
  readable st l →
  Setting_bool (lookup st l "save" "false") = Some true →
  ConfWriter_error (str (lookup st l "config" ".coafile")) = Some e →
  (e = ValueError →
   ConfWriter_error (str (lookup st l "save" ".coafile")) = None →
   save_sections sections st
   = Ok tt (set_events
              (λ t, t ++ written (str (lookup st l "save" ".coafile"))
                                 sections) st))
  ∧ (e ≠ ValueError → save_sections sections st = Raise e st).
Proof.
  intros Hd Hl R Hb He.
  assert (Hw : ∀ r, save_sections_writer l st = r →
               save_sections sections st
               = bind (λ _, r) (λ conf_writer,
                   match conf_writer with
                   | None => ret tt
                   | Some w => emit (EvWriteSections w sections) ;;;
                               emit (EvCloseWriter w)
                   end) st).
  { intros r <-. unfold save_sections.
    rewrite (bind_Ok _ _ _ _ _ (deref_dict_Ok _ _ _ Hd)).
    by rewrite (bind_Ok _ _ _ _ _ (index_Ok _ _ _ _ Hl)). }
  assert (Htry : ∀ handler,
            try_except
              (save <- Section_get l "save" "false" ;;
               b <- to_bool save ;;
               if b then
                 config <- Section_get l "config" ".coafile" ;;
                 w <- ConfWriter (str config) ;;
                 ret (Some w)
               else ret None) handler st
            = match handler e with
              | Some h => h st
              | None => Raise e st
              end).
  { intros handler. unfold try_except.
    rewrite (bind_Ok _ _ _ _ _ (Section_get_lookup _ _ _ _ R)).
    unfold to_bool. rewrite Hb. unfold bind at 1, ret at 1.
    rewrite (bind_Ok _ _ _ _ _ (Section_get_lookup _ _ _ _ R)).
    unfold ConfWriter. rewrite He. reflexivity. }
  split.
  - intros -> Hs. erewrite Hw.
    2:{ unfold save_sections_writer. rewrite Htry.
        rewrite (bind_Ok _ _ _ _ _ (Section_get_lookup _ _ _ _ R)).
        unfold ConfWriter. rewrite Hs. reflexivity. }
    destruct st as [ss ds bs ls ev sf].
    unfold bind, ret, emit, modify, set_events, written. simpl.
    by rewrite <- app_assoc.
  - intros Hne. erewrite Hw.
    2:{ unfold save_sections_writer. rewrite Htry. by destruct e. }
    reflexivity.
Qed.

End Saving.

Lemma save_sections_without_default_witness :
  save_sections (C := Demo.collaborators) 0 Demo.headless
  = Raise (KeyError "default") Demo.headless.
Proof.
  exact (save_sections_without_default (C := Demo.collaborators)
           0 Demo.headless [("docs", 0)] eq_refl eq_refl).
Defined.

Lemma save_sections_writer_failure_witness :
  readable Demo.four_layers 5
  ∧ save_sections (C := Demo.picky) 3 Demo.four_layers
    = Ok tt (set_events (λ t, t ++ written "True" 3) Demo.four_layers).
Proof.
  assert (R : readable Demo.four_layers 5) by (by eexists).
  split; [done|].
  destruct (save_sections_writer_failure (C := Demo.picky)
              Demo.four_layers 3 [("default", 5); ("mysection", 6)] 5
              ValueError eq_refl eq_refl R eq_refl eq_refl) as [H _].
  by apply H.
Defined.

(** ** Capturing the targets *)

Lemma pop_absent {V} (d : Dict.t V) k :
  Dict.get d k = None → Dict.pop d k = (None, d).
Proof.
  induction d as [|[k' v] r IH]; simpl; [done|].
  destruct (String.eqb k' k); [done|]. intros H. by rewrite IH.
Qed.

Section Captured.
Context {C : Collaborators}.

Lemma capture_targets_run st c cd l s :
  cli_sections (self st) = Some c →
  dict_store st !! c = Some cd →
  Dict.get cd "default" = Some l →
  section_store st !! l = Some s →
  capture_targets st
  = Ok tt (set_self
             (set_targets
                (λ ts, ts ++ map Str.lower
                               (match Dict.get (contents s) "targets" with
                                | Some t => Setting_iter t
                                | None => []
                                end)))
             (set_section_store
                (λ h, <[l := with_contents s
                               (Dict.pop (contents s) "targets").2]> h) st)).
Proof.
  intros Hc Hd Hl Hs.
  assert (Hv : l < length (section_store st)) by (by eapply lookup_lt_Some).
  unfold capture_targets.
  rewrite (bind_Ok _ _ _ _ _ (attr_section_Ok _ _ _ _ _ _ Hc Hd Hl)).
  rewrite (bind_Ok _ _ _ _ _ (deref_section_Ok _ _ _ Hs)).
  pose proof (pop_fst (contents s) "targets") as Hfst.
  destruct (Dict.pop (contents s) "targets") as [o r]. simpl in *. subst o.
  rewrite (bind_Ok _ _ _ _ _ (assign_section_Ok _ _ _ Hv)).
  apply append_targets.
Qed.

(** X5.  A command line without targets: [capture_targets] finds
    nothing to take out and leaves the whole state, targets included,
    as it was. *)
Theorem capture_targets_absent st c cd l s :
  cli_sections (self st) = Some c →
  dict_store st !! c = Some cd →
  Dict.get cd "default" = Some l →
  section_store st !! l = Some s →
  Dict.get (contents s) "targets" = None →
  capture_targets st = Ok tt st.
Proof.
  intros Hc Hd Hl Hs Ht.
  rewrite (capture_targets_run st c cd l s) by done.
  rewrite Ht, (pop_absent _ _ Ht). f_equal.
  destruct st as [ss ds bs ls ev []]. unfold set_self, set_targets,
    set_section_store. simpl in *. rewrite app_nil_r. f_equal.
  apply list_insert_id. by destruct s.
Qed.

(** X6.  Capturing is done once: after [capture_targets] has run, the
    targets are out of the section, and running it again changes
    nothing; no target is recorded twice. *)
Theorem capture_targets_once st c cd l s :
  cli_sections (self st) = Some c →
  dict_store st !! c = Some cd →
  Dict.get cd "default" = Some l →
  section_store st !! l = Some s →
  Dict.wf (contents s) →
  ∃ st', capture_targets st = Ok tt st'
         ∧ capture_targets st' = Ok tt st'.
Proof.
  intros Hc Hd Hl Hs W. eexists. split; [by eapply capture_targets_run|].
  assert (Hv : l < length (section_store st)) by (by eapply lookup_lt_Some).
  eapply capture_targets_absent; simpl; try done.
  - by apply list_lookup_insert_eq.
  - simpl. by apply get_pop_eq.
Qed.

End Captured.

Lemma capture_targets_absent_witness :
  capture_targets (C := Demo.collaborators) Demo.four_layers
  = Ok tt Demo.four_layers.
Proof.
  exact (capture_targets_absent (C := Demo.collaborators)
           Demo.four_layers 3 [("default", 5); ("mysection", 6)] 5 _
           eq_refl eq_refl eq_refl eq_refl eq_refl).
Defined.

Lemma capture_targets_once_witness :
  Dict.wf [("targets", mkSetting "targets" "Docs,MySection");
           ("save", mkSetting "save" "True")]
  ∧ ∃ st', capture_targets (C := Demo.collaborators)
             (Demo.state_of
                (r <- Demo.cli_reparse ["targets=Docs,MySection"; "save"] ;;
                 modify (set_self (set_cli_sections r))))
           = Ok tt st'
           ∧ capture_targets (C := Demo.collaborators) st' = Ok tt st'.
Proof.
  assert (W : Dict.wf [("targets", mkSetting "targets" "Docs,MySection");
                       ("save", mkSetting "save" "True")]) by check.
  split; [done|].
  exact (capture_targets_once (C := Demo.collaborators)
           (Demo.state_of
              (r <- Demo.cli_reparse ["targets=Docs,MySection"; "save"] ;;
               modify (set_self (set_cli_sections r))))
           0 [("default", 0)] 0 _ eq_refl eq_refl eq_refl eq_refl W).
Defined.

(** ** The interaction channel *)

Section Channel.
Context {C : Collaborators}.

Lemma select_log_printer_total log_type lvl st :
  ∃ p evs, select_log_printer log_type lvl st
           = Ok tt (set_events (λ t, t ++ evs)
                      (set_self (set_log_printer p) st)).
Proof.
  destruct (decide (log_type = "console")) as [->|Nc];
    [|destruct (decide (log_type = "none")) as [->|Nn];
      [|destruct (FilePrinter_error log_type) as [e|] eqn:Ef]].
  - exists (ConsolePrinter lvl), [].
    rewrite select_log_printer_console.
    destruct st as [ss ds bs ls ev sf]. unfold set_events. simpl.
    by rewrite app_nil_r.
  - exists NullPrinter, []. rewrite select_log_printer_none.
    destruct st as [ss ds bs ls ev sf]. unfold set_events. simpl.
    by rewrite app_nil_r.
  - exists (ConsolePrinter lvl), [fallback_warning log_type lvl].
    by erewrite select_log_printer_fallback.
  - exists (FilePrinter log_type lvl), [].
    rewrite select_log_printer_file by done.
    destruct st as [ss ds bs ls ev sf]. unfold set_events. simpl.
    by rewrite app_nil_r.
Qed.

(** X7.  Whatever the settings of a section say, and whether or not a
    file printer can be made, [retrieve_logging_objects] returns
    normally.  The interactor it leaves is bound to the log printer it
    has just chosen: a null interactor when the lower-cased [output]
    is [none], a console interactor made from the section otherwise.
    Only these two attributes of the manager change, and no section
    and no dictionary does. *)
Theorem retrieve_logging_objects_interactor st section :
  readable st section →
  ∃ st' p,
    retrieve_logging_objects section st = Ok tt st'
    ∧ log_printer (self st') = Some p
    ∧ interactor (self st')
      = Some (if String.eqb
                   (Str.lower (str (lookup st section "output" "console")))
                   "none"
              then NullInteractor p
              else ConsoleInteractor section p)
    ∧ self st'
      = set_interactor
          (if String.eqb
                (Str.lower (str (lookup st section "output" "console")))
                "none"
           then NullInteractor p
           else ConsoleInteractor section p)
          (set_log_printer p (self st))
    ∧ section_store st' = section_store st
    ∧ dict_store st' = dict_store st.
Proof.
  intros R.
  set (st1 := set_events (λ t, t ++ closing st) st).
  destruct (select_log_printer_total
              (Str.lower (str (lookup st section "log_type" "console")))
              (lookup_log_level
                 (Str.upper (str (lookup st section "log_level" ""))))
              st1) as (p & evs & Hsel).
  set (st2 := set_events (λ t, t ++ evs)
                (set_self (set_log_printer p) st1)) in *.
  assert (R1 : readable st1 section) by exact R.
  assert (Hrun : retrieve_logging_objects section st
                 = (if String.eqb
                         (Str.lower (str (lookup st section "output" "console")))
                         "none"
                    then modify (set_self (set_interactor (NullInteractor p)))
                    else modify (set_self
                                   (set_interactor (ConsoleInteractor section p))))
                     st2).
  { unfold retrieve_logging_objects.
    rewrite (bind_Ok _ _ _ _ _ (close_previous_Ok st)). fold st1.
    rewrite (bind_Ok _ _ _ _ _ (Section_get_lookup _ _ _ _ R1)).
    rewrite (bind_Ok _ _ _ _ _ (Section_get_lookup _ _ _ _ R1)).
    rewrite (bind_Ok _ _ _ _ _ (Section_get_lookup _ _ _ _ R1)).
    change (lookup st1) with (lookup st).
    rewrite (bind_Ok _ _ _ _ _ Hsel).
    by rewrite (bind_Ok _ _ st2 p st2). }
  rewrite Hrun.
  destruct (String.eqb _ "none"); eexists _, p; (split; [reflexivity|]);
    by destruct st as [ss ds bs ls ev []].
Qed.

End Channel.

Lemma retrieve_logging_objects_interactor_witness :
  readable Demo.logging 0
  ∧ ∃ st' p, retrieve_logging_objects (C := Demo.collaborators) 0 Demo.logging
             = Ok tt st'
             ∧ log_printer (self st') = Some p
             ∧ interactor (self st') = Some (ConsoleInteractor 0 p).
Proof.
  assert (R : readable Demo.logging 0) by (by eexists).
  split; [done|].
  destruct (retrieve_logging_objects_interactor (C := Demo.collaborators)
              Demo.logging 0 R) as (st' & p & H1 & H2 & H3 & _).
  by exists st', p.
Defined.

(** ** What the merges leave of the layers *)

Lemma keys_added ld hd :
  fst <$> added ld hd = filter (λ n, Dict.mem ld n = false) (fst <$> hd).
Proof.
  unfold added. induction hd as [|[k v] r IH]; [done|].
  rewrite fmap_cons, !filter_cons. simpl.
  destruct (decide (Dict.mem ld k = false)); [|done].
  by rewrite fmap_cons, IH.
Qed.

(** X8.  The merge reads [higher] and never writes it: after merging
    two dictionaries that share no section object, the dictionary
    [higher] and every section it holds are as they were, and so are the
    trace and the manager.  The names of [lower] keep their places and
    the new names follow in the order [higher] has them. *)
Theorem merge_section_dicts_keeps_higher st lower higher ld hd :
  separate st lower higher ld hd →
  ∃ st', merge_section_dicts lower higher st = Ok lower st'
    ∧ dict_store st' !! higher = Some hd
    ∧ (∀ n h, Dict.get hd n = Some h →
              section_store st' !! h = section_store st !! h)
    ∧ Dict.keys <$> dict_store st' !! lower
      = Some (Dict.keys ld
              ++ filter (λ n, Dict.mem ld n = false) (Dict.keys hd))
    ∧ events st' = events st
    ∧ self st' = self st.
Proof.
  intros S. destruct (merge_section_dicts_result _ _ _ _ _ S) as (st' & Hrun & _ & R).
  destruct S as [Hd Hl Hh Wl Wh V ND CW].
  apply NoDup_app in ND as (NDl & Hdis & NDh).
  exists st'. split; [done|]. repeat split.
  - rewrite (res_dicts _ _ _ _ _ _ R). by rewrite list_lookup_insert_ne.
  - intros n h Hn. apply (res_frame _ _ _ _ _ _ R). intros Hin.
    apply (Hdis h Hin). by eapply get_Some_values.
  - rewrite (res_dicts _ _ _ _ _ _ R).
    rewrite list_lookup_insert_eq by (by eapply lookup_lt_Some). simpl.
    f_equal. unfold keys. rewrite fmap_app. f_equal. apply keys_added.
  - apply (res_events _ _ _ _ _ _ R).
  - apply (res_self _ _ _ _ _ _ R).
Qed.

Lemma merge_section_dicts_keeps_higher_witness :
  separate Demo.four_layers 2 3
    [("default", 3); ("mysection", 4)] [("default", 5); ("mysection", 6)]
  ∧ ∃ st', merge_section_dicts 2 3 Demo.four_layers = Ok 2 st'
           ∧ dict_store st' !! 3 = Some [("default", 5); ("mysection", 6)]
           ∧ section_store st' !! 5 = section_store Demo.four_layers !! 5.
Proof.
  assert (S : separate Demo.four_layers 2 3
                [("default", 3); ("mysection", 4)]
                [("default", 5); ("mysection", 6)]).
  { split; try done; try check.
    - apply valid_Forall. check.
    - apply contents_wf_Forall. check. }
  split; [done|].
  destruct (merge_section_dicts_keeps_higher _ _ _ _ _ S)
    as (st' & H1 & H2 & H3 & _).
  exists st'. split; [done|]. split; [done|]. by apply (H3 "default").
Defined.

Section Consumed.
Context {C : Collaborators}.

(** X9.  The merged dictionary is the dictionary of the system
    coafile itself, and a section that enters it from a higher layer
    is that layer's own section object: after the three merges,
    [self.sections] is [self.default_sections], and a section that
    only the project's coafile had before the command line was merged
    is seen through the project's dictionary with the settings of the
    command line on top. *)
Theorem merge_layers_shares st d u p c dd ud pd cd :
  layered st d u p c dd ud pd cd →
  ∃ st', merge_layers st = Ok tt st'
    ∧ sections (self st') = default_sections (self st')
    ∧ ∀ n l, Dict.get dd n = None → Dict.get ud n = None →
             Dict.get pd n = Some l →
             section_of st' d n = Some l
             ∧ section_of st' p n = Some l
             ∧ ∀ k, explicit st' p n k
                    = first_of [explicit st c n k; explicit st p n k].
Proof.
  intros L. destruct (merge_layers_spec _ _ _ _ _ _ _ _ _ L) as (st' & Hrun & R).
  destruct L as [Ld Lu Lp Lc Lrefs Hdd Hud Hpd Hcd _ _ _ _].
  exists st'. split; [done|]. split.
  { rewrite (lm_self _ _ _ _ _ _ _ _ _ _ R). simpl. by rewrite Ld. }
  intros n l Hnd Hnu Hnp.
  assert (Hp : d ≠ p).
  { apply NoDup_cons in Lrefs as [Hd _]. rewrite !not_elem_of_cons in Hd.
    tauto. }
  assert (Hsd : section_of st' d n = Some l).
  { unfold section_of. rewrite (lm_dict _ _ _ _ _ _ _ _ _ _ R). simpl.
    unfold merged3. rewrite !get_app, !get_added, Hnd, Hnu.
    apply mem_false in Hnd as Hmd. rewrite Hmd. simpl.
    assert (Hm1 : Dict.mem (dd ++ added dd ud) n = false).
    { apply mem_false. by rewrite get_app, get_added, Hnd, Hmd. }
    by rewrite Hm1, Hnp. }
  assert (Hsp : section_of st' p n = Some l).
  { unfold section_of. rewrite (lm_dicts _ _ _ _ _ _ _ _ _ _ R) by done.
    by rewrite Hpd. }
  split; [done|]. split; [done|]. intros k.
  assert (E : explicit st' p n k = explicit st' d n k).
  { unfold explicit. by rewrite Hsd, Hsp. }
  rewrite E, (lm_explicit _ _ _ _ _ _ _ _ _ _ R). simpl.
  assert (Eu : explicit st u n k = None).
  { unfold explicit, section_of. by rewrite Hud; simpl; rewrite Hnu. }
  assert (Ed : explicit st d n k = None).
  { unfold explicit, section_of. by rewrite Hdd; simpl; rewrite Hnd. }
  rewrite Eu, Ed.
  destruct (explicit st c n k); [done|]. by destruct (explicit st p n k).
Qed.

(** X10.  A command line that comes without a [default] section stops
    the run at once: [read_cli] raises [KeyError] for [default] with
    the dictionary of the command line already recorded and no logging
    object chosen, and [_load_configuration] and [run] raise it too,
    before any coafile is read. *)
Theorem read_cli_without_default args st r st1 d :
  CliParser_reparse args st = Ok r st1 →
  dict_store st1 !! r = Some d →
  Dict.get d "default" = None →
  read_cli args st
  = Raise (KeyError "default") (set_self (set_cli_sections r) st1)
  ∧ _load_configuration args st
    = Raise (KeyError "default") (set_self (set_cli_sections r) st1)
  ∧ run args st
    = Raise (KeyError "default") (set_self (set_cli_sections r) st1).
Proof.
  intros Hp Hd Hn.
  assert (H : read_cli args st
              = Raise (KeyError "default") (set_self (set_cli_sections r) st1)).
  { unfold read_cli. rewrite (bind_Ok _ _ _ _ _ Hp).
    rewrite (bind_Ok (modify _) _ st1 tt _ eq_refl).
    apply bind_Raise.
    unfold attr_section, attr, deref_dict, bind, get_state, of_option.
    simpl. rewrite Hd. by apply index_Raise. }
  assert (H' : _load_configuration args st
               = Raise (KeyError "default") (set_self (set_cli_sections r) st1)).
  { unfold _load_configuration. by apply bind_Raise. }
  split; [done|]. split; [done|]. unfold run. by apply bind_Raise.
Qed.

End Consumed.

Lemma merge_layers_shares_witness :
  layered Demo.four_layers 0 1 2 3
    [("default", 0); ("docs", 1)] [("default", 2)]
    [("default", 3); ("mysection", 4)] [("default", 5); ("mysection", 6)]
  ∧ ∃ st', merge_layers Demo.four_layers = Ok tt st'
           ∧ section_of st' 0 "mysection" = Some 4
           ∧ explicit st' 2 "mysection" "files"
             = Some (mkSetting "files" "*.v").
Proof.
  assert (L : layered Demo.four_layers 0 1 2 3
                [("default", 0); ("docs", 1)] [("default", 2)]
                [("default", 3); ("mysection", 4)]
                [("default", 5); ("mysection", 6)]).
  { split; try done; try check.
    - apply valid_Forall. check.
    - apply contents_wf_Forall. check. }
  split; [done|].
  destruct (merge_layers_shares _ _ _ _ _ _ _ _ _ L) as (st' & H1 & _ & H2).
  destruct (H2 "mysection" 4 eq_refl eq_refl eq_refl) as (H3 & _ & H4).
  exists st'. split; [done|]. split; [done|]. by rewrite H4.
Defined.

Lemma read_cli_without_default_witness :
  ∃ st, run (C := Demo.headless_cli) ["files=*.rst"] initial_state
        = Raise (KeyError "default") st
        ∧ log_printer (self st) = None.
Proof.
  destruct (read_cli_without_default (C := Demo.headless_cli)
              ["files=*.rst"] initial_state 0 Demo.headless [("docs", 0)]
              eq_refl eq_refl eq_refl) as (_ & _ & H).
  eexists. split; [exact H|reflexivity].
Defined.

(** ** The defaults after the wiring *)

Section Inherit.
Context {C : Collaborators}.

Lemma wire_defaults_run st r d dl :
  sections (self st) = Some r →
  dict_store st !! r = Some d →
  Dict.get d "default" = Some dl →
  (∀ l, l ∈ values d → l < length (section_store st)) →
  ∃ st', wire_defaults st = Ok tt st'
    ∧ dict_store st' = dict_store st
    ∧ self st' = self st
    ∧ events st' = events st
    ∧ bear_store st' = bear_store st
    ∧ list_store st' = list_store st
    ∧ length (section_store st') = length (section_store st)
    ∧ ∀ x, section_store st' !! x
           = (λ s, if wired d (keys d) x then with_defaults s (Some dl) else s)
               <$> section_store st !! x.
Proof.
  intros Hs Hd Hdl Hv.
  destruct (wire_loop_spec r d dl (keys d) st) as (st' & Hw & H); try done.
  { intros n [l Hl]%keys_get_Some. exists l. split; [done|].
    apply Hv. by eapply get_Some_values. }
  exists st'. split; [|done]. unfold wire_defaults.
  rewrite (bind_Ok _ _ _ _ _ (attr_Ok _ _ _ Hs)).
  by rewrite (bind_Ok _ _ _ _ _ (deref_dict_Ok _ _ _ Hd)).
Qed.

(** X11.  What the wiring is for: once [wire_defaults] has run, a
    lookup in any section of the merged dictionary other than
    [default] finds the section's own setting, and where it has none,
    the setting of the [default] section.  The contents of the
    sections are not changed by the wiring. *)
Theorem wire_defaults_inherits st r d dl :
  sections (self st) = Some r →
  dict_store st !! r = Some d →
  Dict.get d "default" = Some dl →
  (∀ l, l ∈ Dict.values d → l < length (section_store st)) →
  ∃ st', wire_defaults st = Ok tt st'
    ∧ (∀ x, contents <$> section_store st' !! x
            = contents <$> section_store st !! x)
    ∧ ∀ n l s ds k,
        Dict.get d n = Some l → n ≠ "default" →
        section_store st !! l = Some s →
        section_store st !! dl = Some ds →
        found st' l k
        = match Dict.get (contents s) k with
          | Some v => Some v
          | None => Dict.get (contents ds) k
          end.
Proof.
  intros Hs Hd Hdl Hv.
  destruct (wire_defaults_run st r d dl Hs Hd Hdl Hv)
    as (st' & Hrun & _ & _ & _ & _ & _ & _ & H).
  exists st'. split; [done|]. split.
  - intros x. rewrite H. destruct (section_store st !! x); [|done].
    simpl. by destruct (wired d (keys d) x).
  - intros n l s ds k Hn Hne Hsl Hsd. unfold found.
    rewrite H, Hsl. simpl.
    rewrite (wired_true d (keys d) n l); [|by eapply get_Some_keys|done..].
    simpl. destruct (Dict.get (contents s) k); [done|]. simpl.
    rewrite H, Hsd. simpl. by destruct (wired d (keys d) dl).
Qed.

(** X12.  Wiring twice is wiring once: a second run of
    [wire_defaults] returns the state that the first has left. *)
Theorem wire_defaults_idempotent st r d dl :
  sections (self st) = Some r →
  dict_store st !! r = Some d →
  Dict.get d "default" = Some dl →
  (∀ l, l ∈ Dict.values d → l < length (section_store st)) →
  ∃ st', wire_defaults st = Ok tt st' ∧ wire_defaults st' = Ok tt st'.
Proof.
  intros Hs Hd Hdl Hv.
  destruct (wire_defaults_run st r d dl Hs Hd Hdl Hv)
    as (st' & Hrun & H1 & H2 & H3 & H4 & H5 & H6 & H7).
  destruct (wire_defaults_run st' r d dl)
    as (st'' & Hrun' & K1 & K2 & K3 & K4 & K5 & K6 & K7).
  { by rewrite H2. }
  { by rewrite H1. }
  { done. }
  { intros l Hl. rewrite H6. by apply Hv. }
  exists st'. split; [done|]. rewrite Hrun'. f_equal.
  assert (E : section_store st'' = section_store st').
  { apply list_eq. intros x. rewrite K7, H7.
    destruct (section_store st !! x); [|done]. simpl.
    by destruct (wired d (keys d) x). }
  destruct st' as [ss ds bs ls ev sf], st'' as [ss' ds' bs' ls' ev' sf'].
  simpl in *. congruence.
Qed.

End Inherit.

Lemma wire_defaults_inherits_witness :
  (∀ l, l ∈ [0; 1] → l < length (section_store Demo.four_layers))
  ∧ ∃ st', wire_defaults
             (set_self (set_sections 0) Demo.four_layers) = Ok tt st'
           ∧ found st' 1 "log_level" = Some (mkSetting "log_level" "INFO").
Proof.
  assert (Hv : ∀ l, l ∈ [0; 1] → l < length (section_store Demo.four_layers))
    by (apply valid_Forall; check).
  split; [done|].
  destruct (wire_defaults_inherits
              (set_self (set_sections 0) Demo.four_layers) 0
              [("default", 0); ("docs", 1)] 0 eq_refl eq_refl eq_refl Hv)
    as (st' & H1 & _ & H2).
  exists st'. split; [done|].
  by rewrite (H2 "docs" 1 _ _ "log_level" eq_refl ltac:(done) eq_refl eq_refl).
Defined.

Lemma wire_defaults_idempotent_witness :
  (∀ l, l ∈ [0; 1] → l < length (section_store Demo.four_layers))
  ∧ ∃ st', wire_defaults
             (set_self (set_sections 0) Demo.four_layers) = Ok tt st'
           ∧ wire_defaults st' = Ok tt st'.
Proof.
  assert (Hv : ∀ l, l ∈ [0; 1] → l < length (section_store Demo.four_layers))
    by (apply valid_Forall; check).
  split; [done|].
  exact (wire_defaults_idempotent
           (set_self (set_sections 0) Demo.four_layers) 0
           [("default", 0); ("docs", 1)] 0 eq_refl eq_refl eq_refl Hv).
Defined.

(** ** What [run] returns *)

Section Returned.
Context {C : Collaborators}.

Lemma attr_Ok_inv {A} (field : Manager → option A) st a st' :
  attr field st = Ok a st' → st' = st ∧ field (self st) = Some a.
Proof.
  unfold attr, bind, get_state, of_option.
  destruct (field (self st)); [|done]. by intros [= <- <-].
Qed.

Lemma get_state_Ok_inv st a st' :
  get_state st = Ok a st' → a = st ∧ st' = st.
Proof. unfold get_state. by intros [= <- <-]. Qed.

Lemma only_logs_warn_nonexistent_targets targets sections p :
  only_logs (warn_nonexistent_targets targets sections p).
Proof.
  apply only_logs_for_each. intros t.
  apply only_logs_bind; [apply only_logs_deref_dict|]. intros d.
  destruct (Dict.mem d t); [apply only_logs_ret|apply only_logs_emit].
Qed.

(** X13.  Saving and the warnings about targets, which come last in
    [run], change nothing that [run] returns: when [run] returns, the
    state is the one that [_fill_settings] has left, with more events
    in its trace, and the tuple returned is what the manager held
    then: its section dictionary, its collections of local and of
    global plugins, its targets, its interactor and its log printer. *)
Theorem run_returns_manager args st s lb gb ts i p st' :
  run args st = Ok (s, lb, gb, ts, i, p) st' →
  ∃ st3,
    (_load_configuration args ;;;
     l <- attr_section sections "default" ;;
     retrieve_logging_objects l ;;;
     _fill_settings) st = Ok tt st3
    ∧ logs_only st3 st'
    ∧ sections (self st3) = Some s
    ∧ lb = local_bears (self st3)
    ∧ gb = global_bears (self st3)
    ∧ ts = targets (self st3)
    ∧ interactor (self st3) = Some i
    ∧ log_printer (self st3) = Some p.
Proof.
  unfold run. intros H.
  apply bind_Ok_inv in H as ([] & s1 & H1 & H).
  apply bind_Ok_inv in H as (l & s2 & H2 & H).
  apply bind_Ok_inv in H as ([] & s3 & H3 & H).
  apply bind_Ok_inv in H as ([] & s4 & H4 & H).
  apply bind_Ok_inv in H as (s' & s5 & Hs & H).
  apply attr_Ok_inv in Hs as [-> Hs].
  apply bind_Ok_inv in H as ([] & s6 & Hsave & H).
  pose proof (only_logs_save_sections s' s4) as L1. rewrite Hsave in L1.
  apply bind_Ok_inv in H as (st0 & s7 & Hg & H).
  apply get_state_Ok_inv in Hg as [-> ->].
  apply bind_Ok_inv in H as (p0 & s8 & Hp0 & H).
  apply attr_Ok_inv in Hp0 as [-> Hp0].
  apply bind_Ok_inv in H as ([] & s9 & Hwarn & H).
  pose proof (only_logs_warn_nonexistent_targets
                (targets (self s6)) s' p0 s6) as L2.
  rewrite Hwarn in L2.
  apply bind_Ok_inv in H as (st1 & s10 & Hg & H).
  apply get_state_Ok_inv in Hg as [-> ->].
  apply bind_Ok_inv in H as (i' & s11 & Hi & H).
  apply attr_Ok_inv in Hi as [-> Hi].
  apply bind_Ok_inv in H as (p' & s12 & Hp & H).
  apply attr_Ok_inv in Hp as [-> Hp].
  injection H as <- <- <- <- <- <- <-.
  pose proof (logs_only_self _ _ L1) as E1.
  pose proof (logs_only_self _ _ L2) as E2.
  exists s4. split.
  { rewrite (bind_Ok _ _ _ _ _ H1). rewrite (bind_Ok _ _ _ _ _ H2).
    by rewrite (bind_Ok _ _ _ _ _ H3). }
  split; [by eapply logs_only_trans|].
  rewrite E2, E1 in *. by repeat split.
Qed.

End Returned.

Lemma run_returns_manager_witness :
  ∃ st' st3,
    run (C := Demo.collaborators) ["targets=Docs"] initial_state
    = Ok (1, [("default", 0); ("mysection", 3)],
          [("default", 1); ("mysection", 4)], ["docs"],
          ConsoleInteractor 1 (ConsolePrinter 0%Z), ConsolePrinter 0%Z) st'
    ∧ logs_only st3 st'
    ∧ sections (self st3) = Some 1
    ∧ targets (self st3) = ["docs"].
Proof.
  eassert (Run : run (C := Demo.collaborators) ["targets=Docs"] initial_state
                 = Ok _ _) by (vm_compute; reflexivity).
  destruct (run_returns_manager (C := Demo.collaborators) _ _ _ _ _ _ _ _ _ Run)
    as (st3 & _ & H0 & H1 & _ & _ & H2 & _).
  eexists _, st3. split; [exact Run|]. split; [exact H0|].
  split; [exact H1|]. by rewrite <- H2.
Defined.

(** ** Nothing to load *)

Section NothingFound.
Context {C : Collaborators}.

Lemma load_config_file_missing_run filename p silent st st0 :
  ConfParser_reparse (abspath filename) st = Raise FileNotFoundError st0 →
  load_config_file filename p silent st
  = Ok (length (dict_store st0))
       (with_empty_default
          (if silent then [] else [missing_warning p filename]) st0).
Proof.
  intros H. unfold load_config_file, try_except. rewrite H.
  destruct st0 as [ss ds bs ls ev sf].
  destruct silent; unfold with_empty_default; simpl; [|done].
  by rewrite app_nil_r.
Qed.

Lemma readable_extend st st' l :
  readable st l →
  (∀ x s, section_store st !! x = Some s → section_store st' !! x = Some s) →
  readable st' l ∧ ∀ k, found st' l k = found st l k.
Proof.
  intros (s & Hs & Hd) Hext. split.
  - exists s. split; [by apply Hext|]. intros x Hx.
    destruct (Hd x Hx) as [ds Hds]. exists ds. by apply Hext.
  - intros k. unfold found. rewrite Hs, (Hext _ _ Hs). simpl.
    destruct (Dict.get (contents s) k); [done|].
    destruct (defaults s) as [x|] eqn:E; [|done]. simpl.
    destruct (Hd x eq_refl) as [ds Hds]. by rewrite Hds, (Hext _ _ Hds).
Qed.

Lemma project_config_run st cl ul dl :
  default_of st cli_sections cl →
  default_of st user_sections ul →
  default_of st default_sections dl →
  project_config st
  = Ok (abspath (config_fallback (found st cl "config")
                                 (found st ul "config")
                                 (found st dl "config"))) st.
Proof.
  intros Hc Hu Hd. unfold project_config.
  rewrite (bind_Ok _ _ _ _ _ (attr_default_Ok _ _ _ Hd)).
  destruct Hd as (_ & _ & _ & _ & _ & Rd).
  rewrite (bind_Ok _ _ _ _ _ (Section_get_lookup _ _ _ _ Rd)).
  rewrite (bind_Ok _ _ _ _ _ (attr_default_Ok _ _ _ Hu)).
  destruct Hu as (_ & _ & _ & _ & _ & Ru).
  rewrite (bind_Ok _ _ _ _ _ (Section_get_lookup _ _ _ _ Ru)).
  rewrite (bind_Ok _ _ _ _ _ (attr_default_Ok _ _ _ Hc)).
  destruct Hc as (_ & _ & _ & _ & _ & Rc).
  rewrite (bind_Ok _ _ _ _ _ (Section_get_lookup _ _ _ _ Rc)).
  unfold ret, lookup, config_fallback. do 2 f_equal.
  destruct (found st cl "config"); [done|].
  destruct (found st ul "config"); [done|].
  by destruct (found st dl "config").
Qed.

Lemma load_layers_missing_run st p cl :
  (∀ path s, ConfParser_reparse path s = Raise FileNotFoundError s) →
  log_printer (self st) = Some p →
  default_of st cli_sections cl →
  ∃ st',
    load_layers st = Ok tt st'
    ∧ events st'
      = events st
        ++ [missing_warning p system_coafile;
            missing_warning p
              (abspath (match found st cl "config" with
                        | Some s => str s
                        | None => ".coafile"
                        end))]
    ∧ section_store st'
      = section_store st
        ++ [Section_new "default"; Section_new "default"; Section_new "default"]
    ∧ dict_store st'
      = dict_store st
        ++ [[("default", length (section_store st))];
            [("default", S (length (section_store st)))];
            [("default", S (S (length (section_store st))))]]
    ∧ default_sections (self st') = Some (length (dict_store st))
    ∧ user_sections (self st') = Some (S (length (dict_store st)))
    ∧ coafile_sections (self st') = Some (S (S (length (dict_store st))))
    ∧ cli_sections (self st') = cli_sections (self st)
    ∧ self st'
      = set_coafile_sections (S (S (length (dict_store st))))
          (set_user_sections (S (length (dict_store st)))
             (set_default_sections (length (dict_store st)) (self st))).
Proof.
  intros Hnone Hp Hc.
  set (n := length (section_store st)). set (m := length (dict_store st)).
  set (st1 := set_self (set_default_sections m)
                (with_empty_default [missing_warning p system_coafile] st)).
  set (st2 := set_self (set_user_sections (S m))
                (with_empty_default [] st1)).
  set (cfg := abspath (match found st cl "config" with
                       | Some s => str s
                       | None => ".coafile"
                       end)).
  set (st3 := set_self (set_coafile_sections (S (S m)))
                (with_empty_default [missing_warning p cfg] st2)).
  assert (Hext : ∀ x s, section_store st !! x = Some s →
                        section_store st2 !! x = Some s).
  { intros x s Hs. simpl. by do 2 apply lookup_app_l_Some. }
  assert (Hcfg : project_config st2 = Ok cfg st2).
  { destruct Hc as (r & d & Hf & Hd & Hn & R).
    destruct (readable_extend st st2 cl R Hext) as [R2 Hfound].
    rewrite (project_config_run st2 cl (S n) n).
    - rewrite Hfound. unfold cfg, config_fallback. do 2 f_equal.
      destruct (found st cl "config"); [done|].
      assert (Hu : found st2 (S n) "config" = None).
      { unfold found. simpl.
        replace (S n) with (length (section_store st ++ [Section_new "default"]))
          by (rewrite length_app; simpl; unfold n; lia).
        by rewrite list_lookup_middle. }
      assert (Hd' : found st2 n "config" = None).
      { unfold found. simpl. rewrite lookup_app_l_Some with (x := Section_new "default");
          [done|]. by apply list_lookup_middle. }
      by rewrite Hu, Hd'.
    - exists r, d. repeat split; try done.
      simpl. by do 2 apply lookup_app_l_Some.
    - exists (S m), [("default", S n)]. repeat split; try done.
      + simpl. unfold m.
        replace (S (length (dict_store st)))
          with (length (dict_store st ++ [[("default", n)]]))
          by (rewrite length_app; simpl; lia).
        rewrite list_lookup_middle; [|done]. do 3 f_equal.
        rewrite length_app. simpl. unfold n. lia.
      + exists (Section_new "default"). split; [|done]. simpl.
        replace (S n) with (length (section_store st ++ [Section_new "default"]))
          by (rewrite length_app; simpl; unfold n; lia).
        by rewrite list_lookup_middle.
    - exists m, [("default", n)]. repeat split; try done.
      + simpl. apply lookup_app_l_Some. by apply list_lookup_middle.
      + exists (Section_new "default"). split; [|done]. simpl.
        apply lookup_app_l_Some. by apply list_lookup_middle. }
  exists st3. split.
  { unfold load_layers.
    rewrite (bind_Ok _ _ _ _ _ (attr_Ok _ _ _ Hp)).
    rewrite (bind_Ok _ _ _ _ _
               (load_config_file_missing_run _ p false st st (Hnone _ _))).
    rewrite (bind_Ok (modify _) _ _ tt st1 eq_refl).
    rewrite (bind_Ok _ _ st1 p st1) by (by apply attr_Ok).
    rewrite (bind_Ok _ _ _ _ _
               (load_config_file_missing_run _ p true st1 st1 (Hnone _ _))).
    rewrite (bind_Ok (modify _) _ _ tt st2).
    2:{ unfold modify, st2, st1, with_empty_default. simpl. do 3 f_equal.
        rewrite length_app. simpl. unfold m. lia. }
    rewrite (bind_Ok _ _ _ _ _ Hcfg).
    rewrite (bind_Ok _ _ st2 p st2) by (by apply attr_Ok).
    rewrite (bind_Ok _ _ _ _ _
               (load_config_file_missing_run _ p false st2 st2 (Hnone _ _))).
    unfold modify, st3. do 3 f_equal.
    simpl. rewrite !length_app. simpl. unfold m. lia. }
  destruct st as [ss ds bs ls ev []]. simpl in *. subst n m.
  repeat split; rewrite <- ?app_assoc; simpl; try done.
  repeat f_equal; rewrite ?length_app; simpl; lia.
Qed.

(** X14.  With no coafile anywhere, [load_layers] still returns: each
    of the three layers becomes a new dictionary with a new, empty
    [default] section of its own.  It warns about the system coafile
    and about the project's coafile, in this order, and is silent
    about the user's.  The project's coafile is looked for under the
    [config] of the command line, else under [.coafile]; the path is
    made absolute twice, once by [_load_configuration] and once by
    [load_config_file]. *)
Theorem load_layers_nothing_found st p cl :
  (∀ path s, ConfParser_reparse path s = Raise FileNotFoundError s) →
  log_printer (self st) = Some p →
  default_of st cli_sections cl →
  ∃ st',
    load_layers st = Ok tt st'
    ∧ events st'
      = events st
        ++ [missing_warning p system_coafile;
            missing_warning p
              (abspath (match found st cl "config" with
                        | Some s => str s
                        | None => ".coafile"
                        end))]
    ∧ section_store st'
      = section_store st
        ++ [Section_new "default"; Section_new "default"; Section_new "default"]
    ∧ dict_store st'
      = dict_store st
        ++ [[("default", length (section_store st))];
            [("default", S (length (section_store st)))];
            [("default", S (S (length (section_store st))))]]
    ∧ default_sections (self st') = Some (length (dict_store st))
    ∧ user_sections (self st') = Some (S (length (dict_store st)))
    ∧ coafile_sections (self st') = Some (S (S (length (dict_store st))))
    ∧ cli_sections (self st') = cli_sections (self st).
Proof.
  intros Hnone Hp Hc.
  destruct (load_layers_missing_run st p cl Hnone Hp Hc)
    as (st' & H1 & H2 & H3 & H4 & H5 & H6 & H7 & H8 & _).
  by exists st'.
Qed.

End NothingFound.

Lemma load_layers_nothing_found_witness :
  default_of Demo.after_cli cli_sections 0
  ∧ ∃ st', load_layers (C := Demo.empty_disk) Demo.after_cli = Ok tt st'
           ∧ events st'
             = [EvLog (ConsolePrinter 2%Z) 2%Z
                  (mkMessage coafile_missing "/etc/default_coafile");
                EvLog (ConsolePrinter 2%Z) 2%Z
                  (mkMessage coafile_missing "/work/my.coafile")]
           ∧ coafile_sections (self st') = Some 3.
Proof.
  assert (Hc : default_of Demo.after_cli cli_sections 0).
  { exists 0, [("default", 0)]. repeat split; try done. by eexists. }
  split; [done|].
  destruct (load_layers_nothing_found (C := Demo.empty_disk)
              Demo.after_cli (ConsolePrinter 2%Z) 0
              (λ _ _, eq_refl) eq_refl Hc)
    as (st' & H1 & H2 & _ & _ & _ & _ & H3 & _).
  exists st'. split; [done|]. split; [|done]. by rewrite H2.
Defined.

(** ** Reading the command line *)

Lemma keys_pop_sublist {V} (d : Dict.t V) k :
  keys (Dict.pop d k).2 `sublist_of` keys d.
Proof.
  unfold keys. induction d as [|[k' v] r IH]; simpl; [done|].
  destruct (String.eqb k' k); simpl.
  - by apply sublist_cons.
  - destruct (Dict.pop r k) as [o r']. simpl in *. by apply sublist_skip.
Qed.

Lemma wf_pop {V} (d : Dict.t V) k : wf d → wf (Dict.pop d k).2.
Proof. unfold wf. intros W. eapply sublist_NoDup; [exact W|apply keys_pop_sublist]. Qed.

Section CommandLine.
Context {C : Collaborators}.

Lemma retrieve_logging_objects_run st section :
  readable st section →
  ∃ p evs,
    retrieve_logging_objects section st
    = Ok tt (set_self
               (λ m, set_interactor
                       (if String.eqb
                             (Str.lower
                                (str (lookup st section "output" "console")))
                             "none"
                        then NullInteractor p
                        else ConsoleInteractor section p)
                       (set_log_printer p m))
               (set_events (λ t, t ++ evs) st)).
Proof.
  intros R.
  set (st1 := set_events (λ t, t ++ closing st) st).
  destruct (select_log_printer_total
              (Str.lower (str (lookup st section "log_type" "console")))
              (lookup_log_level
                 (Str.upper (str (lookup st section "log_level" ""))))
              st1) as (p & evs & Hsel).
  set (st2 := set_events (λ t, t ++ evs)
                (set_self (set_log_printer p) st1)) in *.
  assert (R1 : readable st1 section) by exact R.
  exists p, (closing st ++ evs). unfold retrieve_logging_objects.
  rewrite (bind_Ok _ _ _ _ _ (close_previous_Ok st)). fold st1.
  rewrite (bind_Ok _ _ _ _ _ (Section_get_lookup _ _ _ _ R1)).
  rewrite (bind_Ok _ _ _ _ _ (Section_get_lookup _ _ _ _ R1)).
  rewrite (bind_Ok _ _ _ _ _ (Section_get_lookup _ _ _ _ R1)).
  change (lookup st1) with (lookup st).
  rewrite (bind_Ok _ _ _ _ _ Hsel).
  rewrite (bind_Ok _ _ st2 p st2) by done.
  destruct st as [ss ds bs ls ev []].
  destruct (String.eqb _ "none"); unfold modify, set_self, set_events; simpl;
    by rewrite app_assoc.
Qed.

Lemma read_cli_run args st r st1 d l s :
  CliParser_reparse args st = Ok r st1 →
  dict_store st1 !! r = Some d →
  Dict.get d "default" = Some l →
  section_store st1 !! l = Some s →
  readable st1 l →
  ∃ p i evs st',
    read_cli args st = Ok tt st'
    ∧ section_store st'
      = <[l := with_contents s (Dict.pop (contents s) "targets").2]>
          (section_store st1)
    ∧ dict_store st' = dict_store st1
    ∧ events st' = events st1 ++ evs
    ∧ self st'
      = set_targets
          (λ ts, ts ++ map Str.lower
                         (match Dict.get (contents s) "targets" with
                          | Some t => Setting_iter t
                          | None => []
                          end))
          (set_interactor i (set_log_printer p (set_cli_sections r (self st1)))).
Proof.
  intros Hp Hd Hl Hs R.
  set (sta := set_self (set_cli_sections r) st1).
  assert (Ra : readable sta l) by exact R.
  destruct (retrieve_logging_objects_run sta l Ra) as (p & evs & Hret).
  eexists p, _, evs, _. split.
  { unfold read_cli. rewrite (bind_Ok _ _ _ _ _ Hp).
    rewrite (bind_Ok (modify (set_self (set_cli_sections r))) _ st1 tt sta
               eq_refl).
    rewrite (bind_Ok _ _ sta l sta).
    2:{ by apply (attr_section_Ok cli_sections "default" sta r d l). }
    rewrite (bind_Ok _ _ _ _ _ Hret).
    by apply (capture_targets_run _ r d l s). }
  by destruct st1 as [ss ds bs ls ev []].
Qed.

(** X15.  A command line that has a [default] section is always read
    to the end: [read_cli] returns, with the dictionary of the command
    line recorded, a log printer and an interactor chosen, the targets
    of the [default] section appended in lower case and taken out of
    that section, and no other section and no dictionary changed. *)
Theorem read_cli_returns args st r st1 d l s :
  CliParser_reparse args st = Ok r st1 →
  dict_store st1 !! r = Some d →
  Dict.get d "default" = Some l →
  section_store st1 !! l = Some s →
  readable st1 l →
  ∃ st' p i,
    read_cli args st = Ok tt st'
    ∧ cli_sections (self st') = Some r
    ∧ log_printer (self st') = Some p
    ∧ interactor (self st') = Some i
    ∧ targets (self st')
      = targets (self st1)
        ++ map Str.lower
             (match Dict.get (contents s) "targets" with
              | Some t => Setting_iter t
              | None => []
              end)
    ∧ section_store st' !! l
      = Some (with_contents s (Dict.pop (contents s) "targets").2)
    ∧ (∀ x, x ≠ l → section_store st' !! x = section_store st1 !! x)
    ∧ dict_store st' = dict_store st1.
Proof.
  intros Hp Hd Hl Hs R.
  destruct (read_cli_run args st r st1 d l s Hp Hd Hl Hs R)
    as (p & i & evs & st' & Hrun & Hss & Hds & _ & Hself).
  exists st', p, i. split; [done|]. rewrite Hself, Hss.
  repeat split; try done.
  - apply list_lookup_insert_eq. by eapply lookup_lt_Some.
  - intros x Hx. by apply list_lookup_insert_ne.
Qed.

End CommandLine.

Lemma read_cli_returns_witness :
  readable Demo.parsed_cli 0
  ∧ ∃ st', read_cli (C := Demo.empty_disk)
             ["config=my.coafile"; "targets=Docs"] initial_state = Ok tt st'
           ∧ targets (self st') = ["docs"]
           ∧ cli_sections (self st') = Some 0.
Proof.
  assert (R : readable Demo.parsed_cli 0) by (by eexists).
  split; [done|].
  destruct (read_cli_returns (C := Demo.empty_disk)
              ["config=my.coafile"; "targets=Docs"] initial_state
              0 Demo.parsed_cli [("default", 0)] 0 _
              eq_refl eq_refl eq_refl eq_refl R)
    as (st' & p & i & H1 & H2 & _ & _ & H3 & _).
  exists st'. split; [done|]. split; [|done]. by rewrite H3.
Defined.

(** ** The configuration of a bare command line *)

Lemma explicit_same_contents st st' r n k :
  dict_store st' = dict_store st →
  (∀ x, contents <$> section_store st' !! x = contents <$> section_store st !! x) →
  explicit st' r n k = explicit st r n k.
Proof.
  intros Hd Hc. unfold explicit, section_of. rewrite Hd.
  destruct (dict_store st !! r) as [d|]; [|done]. simpl.
  destruct (Dict.get d n) as [x|]; [|done]. simpl.
  specialize (Hc x).
  destruct (section_store st' !! x) as [s'|], (section_store st !! x) as [s|];
    simpl in *; try done. by injection Hc as ->.
Qed.

Lemma lookup_three {A} (l : list A) a b c :
  (l ++ [a; b; c]) !! length l = Some a
  ∧ (l ++ [a; b; c]) !! S (length l) = Some b
  ∧ (l ++ [a; b; c]) !! S (S (length l)) = Some c.
Proof.
  repeat split.
  - by apply list_lookup_middle.
  - rewrite lookup_app_r by lia. by replace (S (length l) - length l) with 1 by lia.
  - rewrite lookup_app_r by lia.
    by replace (S (S (length l)) - length l) with 2 by lia.
Qed.

Lemma explicit_fresh st j sj n k :
  dict_store st !! j = Some [("default", sj)] →
  section_store st !! sj = Some (Section_new "default") →
  explicit st j n k = None.
Proof.
  intros Hj Hsj. unfold explicit, section_of. rewrite Hj.
  cbn [mbind option_bind Dict.get].
  destruct (String.eqb "default" n); [|done].
  cbn [mbind option_bind]. by rewrite Hsj.
Qed.

Section BareCommandLine.
Context {C : Collaborators}.

(** X16.  With no coafile anywhere, the configuration that
    [_load_configuration] resolves is the command line's: it returns,
    the merged dictionary is the new dictionary made for the system
    coafile, and every section of it holds under every name the
    setting that the command line gave, but for the [targets] of
    [default], which are gone from the dictionary and recorded, lower
    case, as targets.  Supposes a command line whose dictionary has a
    [default] section and a section object of its own per name. *)
Theorem load_configuration_cli_only args st r st1 d l s :
  (∀ path x, ConfParser_reparse path x = Raise FileNotFoundError x) →
  CliParser_reparse args st = Ok r st1 →
  dict_store st1 !! r = Some d →
  Dict.get d "default" = Some l →
  section_store st1 !! l = Some s →
  readable st1 l →
  Dict.wf d →
  NoDup (Dict.values d) →
  (∀ x, x ∈ Dict.values d → x < length (section_store st1)) →
  contents_wf st1 →
  ∃ st',
    _load_configuration args st = Ok tt st'
    ∧ sections (self st') = Some (length (dict_store st1))
    ∧ explicit st' (length (dict_store st1)) "default" "targets" = None
    ∧ (∀ n k, n ≠ "default" ∨ k ≠ "targets" →
              explicit st' (length (dict_store st1)) n k
              = explicit st1 r n k)
    ∧ targets (self st')
      = targets (self st1)
        ++ map Str.lower
             (match Dict.get (contents s) "targets" with
              | Some t => Setting_iter t
              | None => []
              end).
Proof.
  intros Hnone Hp Hd Hl Hs R Wd NDd Vd CW.
  set (rest := (Dict.pop (contents s) "targets").2).
  set (sl := with_contents s rest).
  set (n := length (section_store st1)).
  set (m := length (dict_store st1)).
  assert (Hln : l < n) by (by eapply lookup_lt_Some).
  assert (Hrm : r < m) by (by eapply lookup_lt_Some).
  (* the command line *)
  destruct (read_cli_run args st r st1 d l s Hp Hd Hl Hs R)
    as (p & i & evs & stA & HrunA & SA & DA & _ & SelfA).
  fold rest in SA. fold sl in SA.
  assert (LenA : length (section_store stA) = n).
  { by rewrite SA, length_insert. }
  assert (HcA : default_of stA cli_sections l).
  { exists r, d. split; [by rewrite SelfA|]. split; [by rewrite DA|].
    split; [done|]. exists sl. split.
    - rewrite SA. by apply list_lookup_insert_eq.
    - intros x Hx. destruct R as (s0 & Hs0 & Hdef).
      assert (s0 = s) by congruence. subst s0.
      apply lookup_lt_is_Some. rewrite LenA.
      apply lookup_lt_is_Some. by apply Hdef. }
  (* the coafiles *)
  destruct (load_layers_missing_run stA p l Hnone) as
    (stB & HrunB & _ & SB & DB & Bd & Bu & Bp & Bc & SelfB);
    [by rewrite SelfA|done|].
  rewrite LenA in DB. rewrite DA in DB, Bd, Bu, Bp. fold m in DB, Bd, Bu, Bp.
  destruct (lookup_three (dict_store st1)
              [("default", n)] [("default", S n)] [("default", S (S n))])
    as (Dm & Dm1 & Dm2).
  fold m in Dm, Dm1, Dm2. rewrite <- DB in Dm, Dm1, Dm2.
  destruct (lookup_three (section_store stA)
              (Section_new "default") (Section_new "default")
              (Section_new "default")) as (Sn & Sn1 & Sn2).
  rewrite LenA, <- SB in Sn, Sn1, Sn2.
  assert (SBold : ∀ x, x < n → section_store stB !! x = section_store stA !! x).
  { intros x Hx. rewrite SB. apply lookup_app_l. by rewrite LenA. }
  assert (Hvd : ∀ x, x ∈ values d → x < n) by exact Vd.
  assert (CWB : contents_wf stB).
  { intros x sx Hx. destruct (decide (x < n)) as [Hlt|Hge].
    - rewrite SBold, SA in Hx by done.
      destruct (decide (l = x)) as [<-|Hne].
      + rewrite list_lookup_insert_eq in Hx by done. injection Hx as <-.
        simpl. apply wf_pop. by eapply CW.
      + rewrite list_lookup_insert_ne in Hx by done. by eapply CW.
    - rewrite SB in Hx. rewrite lookup_app_r in Hx by (rewrite LenA; lia).
      rewrite LenA in Hx.
      destruct (x - n) as [|[|[|?]]]; simpl in Hx; try done;
        injection Hx as <-; apply NoDup_nil_2. }
  assert (L : layered stB m (S m) (S (S m)) r
                [("default", n)] [("default", S n)]
                [("default", S (S n))] d).
  { split; try done.
    - by rewrite Bc, SelfA.
    - repeat (apply NoDup_cons; split);
        rewrite ?not_elem_of_cons; try apply NoDup_nil_2;
        repeat split; try lia; apply not_elem_of_nil.
    - rewrite DB. by apply lookup_app_l_Some.
    - repeat split; try done; apply NoDup_singleton.
    - intros x. simpl. rewrite SB, length_app, LenA. simpl.
      rewrite !elem_of_cons. intros [->|[->|[->|Hx]]]; try lia.
      specialize (Hvd x Hx). lia.
    - simpl. repeat (apply NoDup_cons; split); [| | |done].
      + rewrite !not_elem_of_cons. repeat split; try lia.
        intros Hx. specialize (Hvd _ Hx). lia.
      + rewrite !not_elem_of_cons. repeat split; try lia.
        intros Hx. specialize (Hvd _ Hx). lia.
      + intros Hx. specialize (Hvd _ Hx). lia. }
  (* the merges *)
  destruct (merge_layers_spec _ _ _ _ _ _ _ _ _ L) as (stC & HrunC & RC).
  set (md := merged3 [("default", n)] [("default", S n)]
                     [("default", S (S n))] d) in *.
  (* the wiring *)
  destruct (wire_defaults_run stC m md n) as
    (st' & HrunW & WD & WS & _ & _ & _ & _ & WC).
  { apply (lm_sections _ _ _ _ _ _ _ _ _ _ RC). }
  { apply (lm_dict _ _ _ _ _ _ _ _ _ _ RC). }
  { unfold md, merged3. by rewrite !get_app. }
  { apply (lm_valid _ _ _ _ _ _ _ _ _ _ RC). }
  assert (Hex : ∀ n' k, explicit st' m n' k = explicit stA r n' k).
  { intros n' k.
    assert (Hcont : ∀ x, contents <$> section_store st' !! x
                         = contents <$> section_store stC !! x).
    { intros x. rewrite WC. destruct (section_store stC !! x); [|done].
      by destruct (wired md (keys md) x). }
    rewrite (explicit_same_contents stC st' m n' k WD Hcont).
    rewrite (lm_explicit _ _ _ _ _ _ _ _ _ _ RC).
    assert (Hfresh : ∀ j sj, dict_store stB !! j = Some [("default", sj)] →
                             section_store stB !! sj = Some (Section_new "default") →
                             explicit stB j n' k = None).
    { intros j sj Hj Hsj. by apply (explicit_fresh stB j sj). }
    rewrite (Hfresh _ _ Dm2 Sn2), (Hfresh _ _ Dm1 Sn1), (Hfresh _ _ Dm Sn).
    assert (E : explicit stB r n' k = explicit stA r n' k).
    { apply (explicit_frame _ _ _ _ _ d); [by rewrite DA| |].
      - rewrite DB. by apply lookup_app_l_Some.
      - intros x Hx. apply SBold. by apply Hvd. }
    rewrite E. simpl. by destruct (explicit stA r n' k). }
  assert (HexA : ∀ n' k, explicit stA r n' k
                         = x ← Dict.get d n';
                           sx ← <[l := sl]> (section_store st1) !! x;
                           Dict.get (contents sx) k).
  { intros n' k. unfold explicit, section_of. by rewrite DA, Hd, SA. }
  exists st'. split.
  { unfold _load_configuration. rewrite (bind_Ok _ _ _ _ _ HrunA).
    rewrite (bind_Ok _ _ _ _ _ HrunB). by rewrite (bind_Ok _ _ _ _ _ HrunC). }
  split; [by rewrite WS; apply (lm_sections _ _ _ _ _ _ _ _ _ _ RC)|].
  split; [|split].
  - rewrite Hex, HexA, Hl. simpl. rewrite list_lookup_insert_eq by done.
    simpl. apply get_pop_eq. by eapply CW.
  - intros n' k Hnk. rewrite Hex, HexA. unfold explicit, section_of.
    rewrite Hd. simpl. destruct (Dict.get d n') as [x|] eqn:Hx; [|done].
    simpl. destruct (decide (l = x)) as [<-|Hne].
    + rewrite list_lookup_insert_eq, Hs by done. simpl.
      assert (n' = "default") by (by apply (get_inj_values d n' "default" l)).
      apply get_pop_ne. destruct Hnk; [done|congruence].
    + by rewrite list_lookup_insert_ne.
  - rewrite WS, (lm_self _ _ _ _ _ _ _ _ _ _ RC). simpl.
    by rewrite SelfB, SelfA.
Qed.

End BareCommandLine.

Lemma load_configuration_cli_only_witness :
  readable Demo.parsed_cli 0
  ∧ contents_wf Demo.parsed_cli
  ∧ ∃ st', _load_configuration (C := Demo.empty_disk)
             ["config=my.coafile"; "targets=Docs"] initial_state = Ok tt st'
           ∧ sections (self st') = Some 1
           ∧ explicit st' 1 "default" "targets" = None
           ∧ explicit st' 1 "default" "config"
             = Some (mkSetting "config" "my.coafile")
           ∧ targets (self st') = ["docs"].
Proof.
  assert (R : readable Demo.parsed_cli 0) by (by eexists).
  assert (CW : contents_wf Demo.parsed_cli)
    by (apply contents_wf_Forall; check).
  split; [done|]. split; [done|].
  destruct (load_configuration_cli_only (C := Demo.empty_disk)
              ["config=my.coafile"; "targets=Docs"] initial_state
              0 Demo.parsed_cli [("default", 0)] 0 _
              (λ _ _, eq_refl) eq_refl eq_refl eq_refl eq_refl R)
    as (st' & H1 & H2 & H3 & H4 & H5); try done; try check.
  { apply valid_Forall. check. }
  exists st'. split; [done|]. split; [done|]. split; [done|]. split.
  - rewrite H4 by (by right). reflexivity.
  - by rewrite H5.
Defined.

(** ** The plugins of every section *)

Lemma keeps_self_only_logs {A} (m : M A) : only_logs m → keeps_self m.
Proof.
  intros H st a st' E. specialize (H st). rewrite E in H.
  by apply logs_only_self.
Qed.

Lemma keeps_self_bind {A B} (m : M A) (k : A → M B) :
  keeps_self m → (∀ a, keeps_self (k a)) → keeps_self (bind m k).
Proof.
  intros Hm Hk st b st' E. apply bind_Ok_inv in E as (a & st1 & E1 & E2).
  rewrite (Hk a _ _ _ E2). by eapply Hm.
Qed.

Lemma keeps_self_ret {A} (a : A) : keeps_self (ret a).
Proof. by intros st b st' [= <- <-]. Qed.

Lemma keeps_self_deref_bear l : keeps_self (deref_bear l).
Proof.
  apply keeps_self_bind; [by intros st a st' [= <- <-]|].
  intros s. destruct (bear_store s !! l); [apply keeps_self_ret|done].
Qed.

Lemma keeps_self_deref_list l : keeps_self (deref_list l).
Proof.
  apply keeps_self_bind; [by intros st a st' [= <- <-]|].
  intros s. destruct (list_store s !! l); [apply keeps_self_ret|done].
Qed.

Lemma keeps_self_alloc_bear b : keeps_self (alloc_bear b).
Proof. by intros st a st' [= <- <-]. Qed.

Lemma keeps_self_alloc_list xs : keeps_self (alloc_list xs).
Proof. by intros st a st' [= <- <-]. Qed.

Lemma keeps_self_assign_list l xs : keeps_self (assign_list l xs).
Proof.
  intros st a st'. unfold assign_list, bind, get_state.
  case_decide; [|done]. by intros [= <- <-].
Qed.

Lemma keeps_self_deepcopy_items items : ∀ memo, keeps_self (deepcopy_items items memo).
Proof.
  induction items as [|x r IH]; intros memo; [apply keeps_self_ret|].
  simpl. destruct (memo_find memo x).
  - apply keeps_self_bind; [apply IH|]. intros; apply keeps_self_ret.
  - apply keeps_self_bind; [apply keeps_self_deref_bear|]. intros b.
    apply keeps_self_bind; [apply keeps_self_alloc_bear|]. intros y.
    apply keeps_self_bind; [apply IH|]. intros; apply keeps_self_ret.
Qed.

Lemma keeps_self_combine_bears local global : keeps_self (combine_bears local global).
Proof.
  apply keeps_self_bind.
  - apply keeps_self_bind; [apply keeps_self_deref_list|]. intros items.
    apply keeps_self_bind; [apply keeps_self_deepcopy_items|]. intros copies.
    apply keeps_self_alloc_list.
  - intros all. apply keeps_self_bind; [|intros; apply keeps_self_ret].
    apply keeps_self_bind; [apply keeps_self_deref_list|]. intros a.
    apply keeps_self_bind; [apply keeps_self_deref_list|]. intros b.
    apply keeps_self_assign_list.
Qed.

Lemma deref_dict_Ok_inv r st d st' :
  deref_dict r st = Ok d st' → st' = st ∧ dict_store st !! r = Some d.
Proof.
  unfold deref_dict, bind, get_state, of_option.
  destruct (dict_store st !! r); [|done]. by intros [= <- <-].
Qed.

Lemma index_Ok_inv {V} (d : Dict.t V) k st v st' :
  index d k st = Ok v st' → st' = st ∧ Dict.get d k = Some v.
Proof. unfold index. destruct (Dict.get d k); [|done]. by intros [= <- <-]. Qed.

Lemma Section_get_Ok_inv l k fb st v st' :
  Section_get l k fb st = Ok v st' → st' = st ∧ v = lookup st l k fb.
Proof.
  unfold Section_get, lookup, found, deref_section, bind, get_state, of_option, ret.
  destruct (section_store st !! l) as [s|]; [|done]. simpl.
  destruct (Dict.get (contents s) k) as [x|]; [by intros [= <- <-]|].
  destruct (defaults s) as [t|]; [|by intros [= <- <-]]. simpl.
  destruct (section_store st !! t) as [ts|]; [|done]. simpl.
  destruct (Dict.get (contents ts) k); by intros [= <- <-].
Qed.

Section Plugins.
Context {C : Collaborators}.

Hypothesis collect_keeps :
  ∀ dirs names k p, keeps_self (collect_bears dirs names k p).
Hypothesis fill_keeps :
  ∀ l i p b, keeps_self (fill_section l i p b).

Lemma fill_one_records n st st' :
  fill_one n st = Ok tt st' →
  ∃ lb gb,
    self st'
    = set_global_bears (λ d, Dict.set d n gb)
        (set_local_bears (λ d, Dict.set d n lb) (self st))
    ∧ discovery n lb gb.
Proof.
  unfold fill_one. intros H.
  apply bind_Ok_inv in H as (l & s1 & E1 & H).
  unfold attr_section in E1.
  apply bind_Ok_inv in E1 as (r & sa & Er & E1).
  apply attr_Ok_inv in Er as [-> Er].
  apply bind_Ok_inv in E1 as (d & sa & Ed & E1).
  apply deref_dict_Ok_inv in Ed as [-> Ed].
  apply index_Ok_inv in E1 as [-> El].
  apply bind_Ok_inv in H as (bd & s2 & E2 & H).
  apply Section_get_Ok_inv in E2 as [-> ->].
  apply bind_Ok_inv in H as (bs & s3 & E3 & H).
  apply Section_get_Ok_inv in E3 as [-> ->].
  apply bind_Ok_inv in H as (p1 & s4 & E4 & H).
  apply attr_Ok_inv in E4 as [-> E4].
  apply bind_Ok_inv in H as (lb & s5 & E5 & H).
  pose proof (collect_keeps _ _ _ _ _ _ _ E5) as K5.
  apply bind_Ok_inv in H as (p2 & s6 & E6 & H).
  apply attr_Ok_inv in E6 as [-> E6].
  apply bind_Ok_inv in H as (gb & s7 & E7 & H).
  pose proof (collect_keeps _ _ _ _ _ _ _ E7) as K7.
  apply bind_Ok_inv in H as (i & s8 & E8 & H).
  apply attr_Ok_inv in E8 as [-> E8].
  apply bind_Ok_inv in H as (p3 & s9 & E9 & H).
  apply attr_Ok_inv in E9 as [-> E9].
  apply bind_Ok_inv in H as (all & s10 & E10 & H).
  apply keeps_self_combine_bears in E10.
  apply bind_Ok_inv in H as ([] & s11 & E11 & H).
  apply fill_keeps in E11.
  exists lb, gb. split.
  - unfold bind, modify in H. injection H as <-. simpl.
    by rewrite E11, E10, K7, K5.
  - exists st, r, l, p1, s5, p2, s7. repeat split; try done.
    unfold section_of. by rewrite Ed.
Qed.

Lemma fill_loop_records names : ∀ st st',
  for_each names fill_one st = Ok tt st' →
  ∃ lbs gbs,
    self st' = set_global_bears (λ _, gbs) (set_local_bears (λ _, lbs) (self st))
    ∧ (∀ n, n ∈ names →
            ∃ lb gb, discovery n lb gb
                     ∧ Dict.get lbs n = Some lb ∧ Dict.get gbs n = Some gb)
    ∧ (∀ n, n ∉ names →
            Dict.get lbs n = Dict.get (local_bears (self st)) n
            ∧ Dict.get gbs n = Dict.get (global_bears (self st)) n).
Proof.
  induction names as [|n rest IH]; intros st st' H.
  - injection H as <-. exists (local_bears (self st)), (global_bears (self st)).
    split; [by destruct (self st)|]. split; [|done].
    intros m Hm. by apply elem_of_nil in Hm.
  - simpl in H. apply bind_Ok_inv in H as ([] & s1 & E1 & H).
    apply fill_one_records in E1 as (lb & gb & E1 & D).
    destruct (IH _ _ H) as (lbs & gbs & E2 & Kin & Kout).
    exists lbs, gbs. rewrite E1 in E2, Kout. simpl in *.
    split; [by rewrite E2; destruct (self st)|]. split.
    + intros m Hm. destruct (decide (m ∈ rest)) as [Hr|Hr]; [by apply Kin|].
      apply elem_of_cons in Hm as [->|Hm]; [|done].
      exists lb, gb. split; [done|].
      destruct (Kout n Hr) as [-> ->]. by rewrite !get_set_eq.
    + intros m Hm. apply not_elem_of_cons in Hm as [Hne Hr].
      destruct (Kout m Hr) as [-> ->]. by rewrite !get_set_ne.
Qed.

(** X17.  Provided that plugin collection and the section filler leave
    the manager alone, [_fill_settings], when it returns, has recorded
    under the name of every section of the dictionary what
    [collect_bears] returned for that section: as its local plugins
    the list returned for the LOCAL kind, as its global plugins the
    list returned for the GLOBAL kind.  What was recorded under other
    names is kept, and nothing else of the manager has changed. *)
Theorem fill_settings_records st st' r d :
  sections (self st) = Some r →
  dict_store st !! r = Some d →
  _fill_settings st = Ok tt st' →
  ∃ lbs gbs,
    self st' = set_global_bears (λ _, gbs) (set_local_bears (λ _, lbs) (self st))
    ∧ (∀ n, n ∈ Dict.keys d →
            ∃ lb gb, discovery n lb gb
                     ∧ Dict.get lbs n = Some lb ∧ Dict.get gbs n = Some gb)
    ∧ (∀ n, n ∉ Dict.keys d →
            Dict.get lbs n = Dict.get (local_bears (self st)) n
            ∧ Dict.get gbs n = Dict.get (global_bears (self st)) n).
Proof.
  intros Hs Hd H. unfold _fill_settings in H.
  rewrite (bind_Ok _ _ _ _ _ (attr_Ok _ _ _ Hs)) in H.
  rewrite (bind_Ok _ _ _ _ _ (deref_dict_Ok _ _ _ Hd)) in H.
  by apply fill_loop_records.
Qed.

End Plugins.

Lemma keeps_self_alloc_bears bs : keeps_self (Demo.alloc_bears bs).
Proof.
  induction bs as [|b r IH]; [apply keeps_self_ret|].
  simpl. apply keeps_self_bind; [apply keeps_self_alloc_bear|]. intros l.
  apply keeps_self_bind; [apply IH|]. intros; apply keeps_self_ret.
Qed.

Lemma keeps_self_collect dirs names k p :
  keeps_self (Demo.collect dirs names k p).
Proof.
  apply keeps_self_bind; [apply keeps_self_alloc_bears|].
  intros; apply keeps_self_alloc_list.
Qed.

Lemma fill_settings_records_witness :
  ∃ st' lb gb,
    _fill_settings (C := Demo.empty_disk) Demo.configured = Ok tt st'
    ∧ discovery (H := Demo.empty_disk) "default" lb gb
    ∧ Dict.get (local_bears (self st')) "default" = Some lb
    ∧ Dict.get (global_bears (self st')) "default" = Some gb
    ∧ sections (self st') = Some 1
    ∧ targets (self st') = ["docs"].
Proof.
  eassert (Run : _fill_settings (C := Demo.empty_disk) Demo.configured
                 = Ok tt _) by (vm_compute; reflexivity).
  destruct (fill_settings_records (C := Demo.empty_disk)
              keeps_self_collect (λ _ _ _ _, keeps_self_ret tt)
              Demo.configured _ 1 [("default", 1)] eq_refl eq_refl Run)
    as (lbs & gbs & E & K & _).
  destruct (K "default") as (lb & gb & D & Hl & Hg); [left|].
  eexists _, lb, gb. split; [exact Run|]. rewrite E.
  by repeat split.
Defined.

(** * The claims on the whole of the loading *)

(** ** Targets *)

Section TargetsLoaded.
Context {C : Collaborators}.

(** C8, as the code has it.  [_load_configuration] appends every value
    of the [targets] setting of the [default] section of the command
    line, lower-cased, to the targets, and removes that setting from
    the contents of that section, whose other settings stay, before
    any coafile is read.  The command line so brings no [targets] into
    the merged dictionary: when the coafiles are read and the layers
    merged and wired, what the merged [default] section holds under
    [targets] is what the project's, else the user's, else the system
    coafile holds there. *)
Theorem targets_captured args st r st0 cd l s :
  CliParser_reparse args st = Ok r st0 →
  dict_store st0 !! r = Some cd →
  Dict.get cd "default" = Some l →
  section_store st0 !! l = Some s →
  readable st0 l →
  Dict.wf (contents s) →
  ∃ st1,
    read_cli args st = Ok tt st1
    ∧ targets (self st1)
      = targets (self st0)
        ++ map Str.lower
             (match Dict.get (contents s) "targets" with
              | Some t => Setting_iter t
              | None => []
              end)
    ∧ explicit st1 r "default" "targets" = None
    ∧ (∀ k, k ≠ "targets" →
            explicit st1 r "default" k = Dict.get (contents s) k)
    ∧ (∀ x, x ≠ l → section_store st1 !! x = section_store st0 !! x)
    ∧ dict_store st1 = dict_store st0
    ∧ ∀ st2 d u p dd ud pd,
        load_layers st1 = Ok tt st2 →
        layered st2 d u p r dd ud pd cd →
        section_store st2 !! l = section_store st1 !! l →
        ∃ st',
          _load_configuration args st = Ok tt st'
          ∧ sections (self st') = Some d
          ∧ explicit st' d "default" "targets"
            = first_of [explicit st2 p "default" "targets";
                        explicit st2 u "default" "targets";
                        explicit st2 d "default" "targets"]
          ∧ (∀ k, k ≠ "targets" →
                  explicit st' d "default" k
                  = first_of [Dict.get (contents s) k;
                              explicit st2 p "default" k;
                              explicit st2 u "default" k;
                              explicit st2 d "default" k])
          ∧ targets (self st') = targets (self st2).
Proof.
  intros Hp Hd Hl Hs R W.
  destruct (read_cli_run args st r st0 cd l s Hp Hd Hl Hs R)
    as (q & i & evs & st1 & Hrun & Hss & Hds & _ & Hself).
  set (rest := (Dict.pop (contents s) "targets").2) in *.
  assert (Hvl : l < length (section_store st0)) by (by eapply lookup_lt_Some).
  assert (Hsl : section_store st1 !! l = Some (with_contents s rest)).
  { rewrite Hss. by apply list_lookup_insert_eq. }
  assert (Hex : ∀ k, explicit st1 r "default" k = Dict.get rest k).
  { intros k. unfold explicit, section_of. rewrite Hds, Hd. simpl.
    rewrite Hl. simpl. by rewrite Hsl. }
  exists st1. split; [done|]. split; [by rewrite Hself|].
  split; [rewrite Hex; by apply get_pop_eq|].
  split; [intros k Hk; rewrite Hex; by apply get_pop_ne|].
  split; [intros x Hx; rewrite Hss; by apply list_lookup_insert_ne|].
  split; [done|].
  intros st2 d u p dd ud pd Hload L Hkeep.
  assert (Hex2 : ∀ k, explicit st2 r "default" k = Dict.get rest k).
  { intros k. unfold explicit, section_of.
    rewrite (lay_cd _ _ _ _ _ _ _ _ _ L). simpl. rewrite Hl. simpl.
    by rewrite Hkeep, Hsl. }
  destruct (merge_layers_spec _ _ _ _ _ _ _ _ _ L) as (st3 & Hmerge & M).
  set (md := merged3 dd ud pd cd) in *.
  assert (Hdef : is_Some (Dict.get md "default")).
  { unfold md. rewrite merged3_get, Hl. simpl.
    destruct (Dict.get dd "default"); [by eexists|].
    destruct (Dict.get ud "default"); [by eexists|].
    destruct (Dict.get pd "default"); by eexists. }
  destruct Hdef as [dl Hdl].
  destruct (wire_defaults_run st3 d md dl) as
    (st' & Hwire & WD & WS & _ & _ & _ & _ & WC).
  { apply (lm_sections _ _ _ _ _ _ _ _ _ _ M). }
  { apply (lm_dict _ _ _ _ _ _ _ _ _ _ M). }
  { done. }
  { apply (lm_valid _ _ _ _ _ _ _ _ _ _ M). }
  assert (Hcont : ∀ x, contents <$> section_store st' !! x
                       = contents <$> section_store st3 !! x).
  { intros x. rewrite WC. destruct (section_store st3 !! x); [|done].
    by destruct (wired md (keys md) x). }
  assert (Hfinal : ∀ k, explicit st' d "default" k
                        = first_of [Dict.get rest k;
                                    explicit st2 p "default" k;
                                    explicit st2 u "default" k;
                                    explicit st2 d "default" k]).
  { intros k. rewrite (explicit_same_contents st3 st' d "default" k WD Hcont).
    by rewrite (lm_explicit _ _ _ _ _ _ _ _ _ _ M), Hex2. }
  exists st'. split.
  { unfold _load_configuration. rewrite (bind_Ok _ _ _ _ _ Hrun).
    rewrite (bind_Ok _ _ _ _ _ Hload). by rewrite (bind_Ok _ _ _ _ _ Hmerge). }
  split; [by rewrite WS; apply (lm_sections _ _ _ _ _ _ _ _ _ _ M)|].
  split; [|split].
  - rewrite Hfinal. unfold rest. by rewrite get_pop_eq.
  - intros k Hk. rewrite Hfinal. unfold rest. by rewrite get_pop_ne.
  - by rewrite WS, (lm_self _ _ _ _ _ _ _ _ _ _ M).
Qed.

End TargetsLoaded.

Lemma targets_captured_witness :
  readable
    (Demo.state_of
       (Demo.cli_reparse ["targets=Docs,MySection"; "save=backup.coafile"] ;;;
        ret tt)) 0
  ∧ ∃ st1,
      read_cli (C := Demo.collaborators)
        ["targets=Docs,MySection"; "save=backup.coafile"] initial_state
      = Ok tt st1
      ∧ targets (self st1) = ["docs"; "mysection"]
      ∧ explicit st1 0 "default" "targets" = None
      ∧ load_layers (C := Demo.collaborators) st1 = Ok tt Demo.loaded
      ∧ ∃ st',
          _load_configuration (C := Demo.collaborators)
            ["targets=Docs,MySection"; "save=backup.coafile"] initial_state
          = Ok tt st'
          ∧ targets (self st') = ["docs"; "mysection"]
          ∧ explicit st' 1 "default" "targets"
            = Some (mkSetting "targets" "docs")
          ∧ explicit st' 1 "default" "save"
            = Some (mkSetting "save" "backup.coafile").
Proof.
  set (args := ["targets=Docs,MySection"; "save=backup.coafile"]).
  set (st0 := Demo.state_of (Demo.cli_reparse args ;;; ret tt)).
  assert (R : readable st0 0) by (by eexists).
  split; [done|].
  assert (L : layered Demo.loaded 1 2 3 0
                [("default", 1)] [("default", 2)]
                [("default", 3); ("mysection", 4)] [("default", 0)]).
  { split; try done; try check.
    - apply valid_Forall. check.
    - apply contents_wf_Forall. check. }
  destruct (targets_captured (C := Demo.collaborators)
              args initial_state 0 st0 [("default", 0)] 0 _
              eq_refl eq_refl eq_refl eq_refl R)
    as (st1 & H1 & H2 & H3 & _ & _ & _ & H4); [check|].
  eassert (Run : read_cli (C := Demo.collaborators) args initial_state
                 = Ok tt _) by (vm_compute; reflexivity).
  pose proof (eq_trans (eq_sym H1) Run) as E. injection E as E. subst st1.
  lazymatch type of Run with
  | _ = Ok _ ?s1 =>
      assert (Hload : load_layers (C := Demo.collaborators) s1
                      = Ok tt Demo.loaded) by (vm_compute; reflexivity)
  end.
  destruct (H4 Demo.loaded 1 2 3 _ _ _ Hload L eq_refl)
    as (st' & H5 & _ & H6 & H7 & H8).
  eexists. split; [exact Run|]. split; [exact H2|]. split; [exact H3|].
  split; [exact Hload|].
  exists st'. split; [done|]. split; [by rewrite H8|].
  split; [by rewrite H6|]. by rewrite H7.
Defined.

(** C8, as stated, fails: the system coafile of the sample sets
    [targets] in its [default] section, and after [_load_configuration]
    the merged [default] section still holds it. *)
Lemma targets_in_merged_counterexample :
  ¬ merged_without_targets (H := Demo.collaborators)
      ["targets=Docs,MySection"; "save=backup.coafile"] initial_state.
Proof.
  intros Claim.
  eassert (Run : _load_configuration (C := Demo.collaborators)
                   ["targets=Docs,MySection"; "save=backup.coafile"]
                   initial_state = Ok tt _) by (vm_compute; reflexivity).
  specialize (Claim _ 1 1 _ Run eq_refl eq_refl eq_refl).
  discriminate Claim.
Qed.
